(** * Delayed prequential evaluation: a shallow embedding

    Embedding of [skmultiflow/evaluation/evaluate_prequential_delayed.py]
    (class [EvaluatePrequentialDelayed]).  The evaluator is stateful Python:
    its attributes become the record [State], its methods become computations
    in a state-and-exception monad [M], and every call that leaves the class
    (stream, models, metric accumulators, running-time trackers, the clock
    and the helpers inherited from [StreamEvaluator]) goes through one oracle
    [ext], which may answer with a value or raise.  Each such call is also
    written to a trace, newest event first, so that temporal properties
    (predict before train) can be stated on the trace. *)

From stdpp Require Import gmap strings list.
From Stdlib Require Import ZArith QArith Bool Lia Permutation Sorted.

Local Open Scope Z_scope.

(** ** Data *)

(** A row of features, a label and a logical timestamp.  Timestamps are
    ordered, comparable values; the evaluator only compares them. *)
Definition Feat : Type := list Z.
Definition Label : Type := Z.
Definition Time : Type := Z.

(** The exceptions that the modelled code can meet.  [except BaseException]
    catches all of them, [KeyboardInterrupt] included. *)
Inductive Exn : Type :=
| TypeError (msg : string)
| AttributeError (msg : string)
| IndexError (msg : string)
| ValueError (msg : string)
| KeyError (msg : string)
| ZeroDivisionError
| OverflowError (msg : string)
| KeyboardInterrupt
| OtherError (msg : string).

(** [constants.CLASSIFICATION] and its siblings. *)
Inductive TaskType : Type :=
| CLASSIFICATION
| REGRESSION
| MULTI_TARGET_CLASSIFICATION
| MULTI_TARGET_REGRESSION.

(** The metric identifiers that [__init__] names.  Their values live in
    [skmultiflow.utils.constants]; the code only needs them to be fixed
    strings. *)
Definition ACCURACY : string := "accuracy".
Definition KAPPA : string := "kappa".
Definition DATA_POINTS : string := "data_points".

(** What [stream.next_sample(n)] returns: [(X, arrival_time, available_time,
    y)] with an optional fifth component (the weight).  [X] may be [None],
    which [_predict_samples] tests for. *)
Record Batch : Type := {
  bX : option (list Feat);
  b_arrival_time : list Time;
  b_available_time : list Time;
  b_y : list Label;
  b_has_weight : bool
}.

(** One row of the delay queue, columns [_delayed_columns]. *)
Record Row : Type := {
  rX : Feat;
  y_real : Label;
  y_pred : list Label;
  arrival_time : Time;
  available_time : Time
}.

(** ** Calls that leave the class *)

(** The third argument of [partial_fit]. *)
Inductive Classes : Type :=
| NoClasses
| TargetValues
| UniqueTargetValues.

(** [mean_eval_measurements] or [current_eval_measurements]. *)
Inductive Accumulator : Type :=
| MeanEval
| CurrentEval.

(** The methods of a running-time tracker. *)
Inductive Timing : Type :=
| compute_training_time_begin
| compute_training_time_end
| compute_testing_time_begin
| compute_testing_time_end
| update_time_measurements (n : Z).

(** What a model's [predict] hands back: a sequence with one entry per label,
    or a value that [list.extend] cannot iterate ([None], a number). *)
Inductive PredOut : Type :=
| PredSeq (l : list Label)
| PredNotIterable.

Inductive Call : Type :=
| stream_next_sample (n : Z)
| stream_has_more_samples
| stream_n_remaining_samples
| stream_restart
| model_predict (i : nat) (Xb : list Feat)
| model_partial_fit (i : nat) (Xb : option (list Feat)) (y : list Label) (c : Classes)
| add_result (a : Accumulator) (j : nat) (y_true yp : Label)
| running_time (i : nat) (t : Timing)
| timer
| check_progress (n : Z)
| update_metrics
| flush_file_buffer
| evaluation_summary.

(** The type of the value a call returns. *)
Definition reply (c : Call) : Type :=
  match c with
  | stream_next_sample _ => Batch
  | stream_has_more_samples => bool
  | stream_n_remaining_samples => Z
  | model_predict _ _ => PredOut
  | timer => Q
  | _ => unit
  end.

(** Trace entries: a call that left the class, or a [print]. *)
Inductive Event : Type :=
| EvCall (c : Call)
| EvPrint (msg : string)
| EvPrintExn (e : Exn).

(** ** Pure helpers *)

(** [zip] of five sequences stops at the shortest. *)
Fixpoint zip_rows (Xb : list Feat) (ys : list Label) (yps : list (list Label))
         (arr avail : list Time) : list Row :=
  match Xb, ys, yps, arr, avail with
  | x :: Xb', y :: ys', p :: yps', a :: arr', v :: avail' =>
      {| rX := x; y_real := y; y_pred := p; arrival_time := a; available_time := v |}
        :: zip_rows Xb' ys' yps' arr' avail'
  | _, _, _, _, _ => []
  end.

(** A list of rows is a matrix when all rows are as long as the first. *)
Definition rectangular (rows : list (list Label)) : bool :=
  match rows with
  | [] => true
  | r0 :: rest => forallb (fun r => Nat.eqb (length r) (length r0)) rest
  end.

(** The columns of a matrix, as [np.array(rows).T.tolist()] gives them.  A
    matrix without rows, or with empty rows, has no columns. *)
Definition columns (rows : list (list Label)) : list (list Label) :=
  match rows with
  | [] => []
  | r0 :: _ => map (fun j => map (fun r => nth j r 0) rows) (seq 0 (length r0))
  end.

(** [l[-1]]. *)
Definition last_item {A : Type} (l : list A) : Exn + A :=
  match rev l with
  | [] => inl (IndexError "list index out of range")
  | x :: _ => inr x
  end.

(** [l[i]] for [i] in [range(...)]. *)
Definition item {A : Type} (l : list A) (i : nat) : Exn + A :=
  match nth_error l i with
  | Some x => inr x
  | None => inl (IndexError "list index out of range")
  end.

(** [a > b] on numbers that are compared exactly: Python compares a float
    with an int, and two floats, by their exact values. *)
Definition Qgt_bool (a b : Q) : bool := negb (Qle_bool a b).

(** ** Python's true division of two ints

    [a / b] is a float: the binary64 number nearest to the exact quotient,
    a tie going to the even significand.  The quotient of [0] is [0.0], a
    zero divisor raises [ZeroDivisionError], and a quotient that rounds
    beyond the largest float raises [OverflowError].  The float is kept as
    the rational that it is. *)

(** The integer nearest to [a / b], a tie going to the even one, for
    [0 <= a] and [0 < b]. *)
Definition round_half_even (a b : Z) : Z :=
  let q := a / b in
  let r := a mod b in
  if 2 * r <? b then q
  else if b <? 2 * r then q + 1
  else if Z.even q then q else q + 1.

(** [(n / d) / 2^s] as a fraction. *)
Definition scale (n d s : Z) : Z * Z :=
  if 0 <=? s then (n, d * 2 ^ s) else (n * 2 ^ (- s), d).

(** The exponent [e] with [2^e <= n / d < 2^(e+1)], for positive [n] and
    [d]. *)
Definition binade (n d : Z) : Z :=
  let e0 := Z.log2 n - Z.log2 d in
  let ab := scale n d e0 in
  if snd ab <=? fst ab then e0 else e0 - 1.

(** The float nearest to [n / d], for positive [n] and [d]: a significand of
    53 bits, or fewer below [2^-1022], where the last bit stands for
    [2^-1074]. *)
Definition nearest_binary64 (n d : Z) : Exn + Q :=
  let s := Z.max (binade n d - 52) (-1074) in
  let ab := scale n d s in
  let m := round_half_even (fst ab) (snd ab) in
  if 0 <=? s then
    if 2 ^ 1024 <=? m * 2 ^ s
    then inl (OverflowError "integer division result too large for a float")
    else inr (inject_Z (m * 2 ^ s))
  else inr (m # Z.to_pos (2 ^ (- s))).

Definition true_divide (a b : Z) : Exn + Q :=
  if b =? 0 then inl ZeroDivisionError
  else if a =? 0 then inr 0%Q
  else
    match nearest_binary64 (Z.abs a) (Z.abs b) with
    | inl e => inl e
    | inr x => inr (if Z.sgn a * Z.sgn b <? 0 then (- x)%Q else x)
    end.

(** The rows whose label is available at [t], and the others: the two
    boolean masks of [_get_delayed_samples]. *)
Definition released (t : Time) (q : list Row) : list Row :=
  List.filter (fun r => available_time r <=? t) q.

Definition retained (t : Time) (q : list Row) : list Row :=
  List.filter (fun r => available_time r >? t) q.


(** [set(metrics).difference({DATA_POINTS})] is not empty. *)
Definition tracks_summary_metric (ms : list string) : bool :=
  existsb (fun m => negb (String.eqb m DATA_POINTS)) ms.

(** [A] stands before [B] in [l]. *)
Definition before {A : Type} (a b : A) (l : list A) : Prop :=
  exists l1 l2 l3, l = l1 ++ a :: l2 ++ b :: l3.

(** ** The constructor

    [__init__] stores the [metrics] argument.  A Python list is an object
    with identity: the caller and the evaluator may hold the same one.  List
    objects therefore live in a heap, and [metrics] is a reference. *)
Module Init.

Inductive MetricsArg : Type :=
| MetricsNone
| MetricsList (l : nat)
| MetricsOther (type_name : string).

Record Args : Type := {
  a_n_wait : Z;
  a_max_samples : Z;
  a_batch_size : Z;
  a_pretrain_size : Z;
  a_max_time : option Q;
  a_metrics : MetricsArg;
  a_output_file : option string;
  a_show_plot : bool;
  a_restart_stream : bool;
  a_data_points_for_classification : bool
}.

(** The attributes that [__init__] assigns. *)
Record Evaluator : Type := {
  _method : string;
  n_wait : Z;
  max_samples : Z;
  pretrain_size : Z;
  batch_size : Z;
  max_time : option Q;
  output_file : option string;
  show_plot : bool;
  data_points_for_classification : bool;
  metrics : nat;
  restart_stream : bool;
  n_sliding : Z
}.

(** A list display [[a, b]] creates a new list object. *)
Definition alloc (v : list string) (h : gmap nat (list string))
  : nat * gmap nat (list string) :=
  let l := fresh (dom h) in (l, <[l := v]> h).

(** [l.append(x)] changes the object in place. *)
Definition append (l : nat) (x : string) (h : gmap nat (list string))
  : gmap nat (list string) :=
  alter (fun ms => ms ++ [x]) l h.

Definition build (a : Args) (m : nat) : Evaluator :=
  {| _method := "prequential";
     n_wait := a_n_wait a;
     max_samples := a_max_samples a;
     pretrain_size := a_pretrain_size a;
     batch_size := a_batch_size a;
     max_time := a_max_time a;
     output_file := a_output_file a;
     show_plot := a_show_plot a;
     data_points_for_classification := a_data_points_for_classification a;
     metrics := m;
     restart_stream := a_restart_stream a;
     n_sliding := a_n_wait a |}.

Definition bad_metrics (type_name : string) : Exn :=
  ValueError (String.append "Attribute 'metrics' must be 'None' or 'list', passed "
                            type_name).

Definition __init__ (a : Args) (h : gmap nat (list string))
  : Exn + (Evaluator * gmap nat (list string)) :=
  if negb (a_data_points_for_classification a) then
    match a_metrics a with
    | MetricsNone =>
        let '(l, h') := alloc [ACCURACY; KAPPA] h in inr (build a l, h')
    | MetricsList l => inr (build a l, h)
    | MetricsOther ty => inl (bad_metrics ty)
    end
  else
    match a_metrics a with
    | MetricsNone =>
        let '(l, h') := alloc [DATA_POINTS] h in inr (build a l, h')
    | MetricsList l => inr (build a l, append l DATA_POINTS h)
    | MetricsOther ty => inl (bad_metrics ty)
    end.

End Init.

(** ** The evaluator's attributes during a run *)

(** Attributes that stay fixed during one evaluation.  [metrics] is the
    content of the list object the attribute refers to; [model] holds, for
    each tracked model, the name of its class, and [n_models] is its
    length. *)
Record Config : Type := {
  n_wait : Z;
  max_samples : Z;
  batch_size : Z;
  pretrain_size : Z;
  max_time : option Q;
  metrics : list string;
  restart_stream : bool;
  model : list string;
  _task_type : TaskType
}.

Definition n_models (c : Config) : nat := length (model c).

Section Attributes.

(** The state of everything outside the class: stream, models, metric
    accumulators, running-time trackers, clock. *)
Variable W : Type.

(** The attributes that change.  [delay_queue] and [current_timestamp] are
    assigned only by [_train_and_test]; until then the attribute does not
    exist ([None] here) and reading it raises [AttributeError]. *)
Record State : Type := {
  config : Config;
  global_sample_count : Z;
  actual_max_samples : Z;
  first_run : bool;
  update_count : Z;
  current_timestamp : option Time;
  delay_queue : option (list Row);
  _start_time : Q;
  _end_time : Q;
  world : W;
  trace : list Event
}.

Definition set_global_sample_count (v : Z) (s : State) : State :=
  {| config := config s; global_sample_count := v;
     actual_max_samples := actual_max_samples s; first_run := first_run s;
     update_count := update_count s; current_timestamp := current_timestamp s;
     delay_queue := delay_queue s; _start_time := _start_time s;
     _end_time := _end_time s; world := world s; trace := trace s |}.

Definition set_actual_max_samples (v : Z) (s : State) : State :=
  {| config := config s; global_sample_count := global_sample_count s;
     actual_max_samples := v; first_run := first_run s;
     update_count := update_count s; current_timestamp := current_timestamp s;
     delay_queue := delay_queue s; _start_time := _start_time s;
     _end_time := _end_time s; world := world s; trace := trace s |}.

Definition set_first_run (v : bool) (s : State) : State :=
  {| config := config s; global_sample_count := global_sample_count s;
     actual_max_samples := actual_max_samples s; first_run := v;
     update_count := update_count s; current_timestamp := current_timestamp s;
     delay_queue := delay_queue s; _start_time := _start_time s;
     _end_time := _end_time s; world := world s; trace := trace s |}.

Definition set_update_count (v : Z) (s : State) : State :=
  {| config := config s; global_sample_count := global_sample_count s;
     actual_max_samples := actual_max_samples s; first_run := first_run s;
     update_count := v; current_timestamp := current_timestamp s;
     delay_queue := delay_queue s; _start_time := _start_time s;
     _end_time := _end_time s; world := world s; trace := trace s |}.

Definition set_current_timestamp (v : option Time) (s : State) : State :=
  {| config := config s; global_sample_count := global_sample_count s;
     actual_max_samples := actual_max_samples s; first_run := first_run s;
     update_count := update_count s; current_timestamp := v;
     delay_queue := delay_queue s; _start_time := _start_time s;
     _end_time := _end_time s; world := world s; trace := trace s |}.

Definition set_delay_queue (v : option (list Row)) (s : State) : State :=
  {| config := config s; global_sample_count := global_sample_count s;
     actual_max_samples := actual_max_samples s; first_run := first_run s;
     update_count := update_count s; current_timestamp := current_timestamp s;
     delay_queue := v; _start_time := _start_time s;
     _end_time := _end_time s; world := world s; trace := trace s |}.

Definition set_start_time (v : Q) (s : State) : State :=
  {| config := config s; global_sample_count := global_sample_count s;
     actual_max_samples := actual_max_samples s; first_run := first_run s;
     update_count := update_count s; current_timestamp := current_timestamp s;
     delay_queue := delay_queue s; _start_time := v;
     _end_time := _end_time s; world := world s; trace := trace s |}.

Definition set_end_time (v : Q) (s : State) : State :=
  {| config := config s; global_sample_count := global_sample_count s;
     actual_max_samples := actual_max_samples s; first_run := first_run s;
     update_count := update_count s; current_timestamp := current_timestamp s;
     delay_queue := delay_queue s; _start_time := _start_time s;
     _end_time := v; world := world s; trace := trace s |}.

Definition set_world (v : W) (s : State) : State :=
  {| config := config s; global_sample_count := global_sample_count s;
     actual_max_samples := actual_max_samples s; first_run := first_run s;
     update_count := update_count s; current_timestamp := current_timestamp s;
     delay_queue := delay_queue s; _start_time := _start_time s;
     _end_time := _end_time s; world := v; trace := trace s |}.

Definition set_trace (v : list Event) (s : State) : State :=
  {| config := config s; global_sample_count := global_sample_count s;
     actual_max_samples := actual_max_samples s; first_run := first_run s;
     update_count := update_count s; current_timestamp := current_timestamp s;
     delay_queue := delay_queue s; _start_time := _start_time s;
     _end_time := _end_time s; world := world s; trace := v |}.

End Attributes.

Arguments config {W} s.
Arguments global_sample_count {W} s.
Arguments actual_max_samples {W} s.
Arguments first_run {W} s.
Arguments update_count {W} s.
Arguments current_timestamp {W} s.
Arguments delay_queue {W} s.
Arguments _start_time {W} s.
Arguments _end_time {W} s.
Arguments world {W} s.
Arguments trace {W} s.
Arguments Build_State {W}.
Arguments set_global_sample_count {W} v s.
Arguments set_actual_max_samples {W} v s.
Arguments set_first_run {W} v s.
Arguments set_update_count {W} v s.
Arguments set_current_timestamp {W} v s.
Arguments set_delay_queue {W} v s.
Arguments set_start_time {W} v s.
Arguments set_end_time {W} v s.
Arguments set_world {W} v s.
Arguments set_trace {W} v s.

(** ** What a sort of the delay queue may promise *)

(** The result is the input rearranged by non-decreasing [available_time]:
    what [sort_values] promises for every [kind]. *)
Definition sorts_by_available_time (sort : list Row -> list Row) : Prop :=
  forall l,
    Permutation (sort l) l /\
    StronglySorted (fun a b => available_time a <= available_time b) (sort l).

(** Rows with the same [available_time] keep their relative order: what only
    the stable kinds ([mergesort], [stable]) promise. *)
Definition stable_on_ties (sort : list Row -> list Row) : Prop :=
  forall l t,
    List.filter (fun r => available_time r =? t) (sort l) =
    List.filter (fun r => available_time r =? t) l.

(** The same promise, pair by pair: a row that stands before another one
    with the same [available_time] still does after the sort. *)
Definition keeps_ties_in_place (sort : list Row -> list Row) : Prop :=
  forall l A B,
    available_time A = available_time B ->
    before A B l -> before A B (sort l).

(** ** An index that is a list holding an array

    The flush after the loop selects the labels to drop with
    [index[[np.arange(batch_size)]]]: the subscript is a list whose only
    item is an array.  NumPy up to 1.22 reads such a list as a tuple, so the
    subscript is the array itself and the first [batch_size] labels are
    selected.  From NumPy 1.23 the list is an array of shape
    [(1, batch_size)]: the selection has two dimensions and [drop] raises
    [KeyError] for it. *)
Inductive ListIndex : Type :=
| ReadAsTuple
| ReadAsArray.

(** ** Concrete collaborators

    A small world to run the evaluator in: a stream that serves a list of
    samples, models that predict their own index for every row (one of them
    may be broken and hand back [None]), a clock that ticks at every
    reading, and an insertion sort for the delay queue. *)
Module Demo.

Record World : Type := {
  pending : list (Feat * Time * Time * Label);
  clock : Z
}.

Definition batch_of (l : list (Feat * Time * Time * Label)) : Batch :=
  {| bX := Some (map (fun p => fst (fst (fst p))) l);
     b_arrival_time := map (fun p => snd (fst (fst p))) l;
     b_available_time := map (fun p => snd (fst p)) l;
     b_y := map snd l;
     b_has_weight := false |}.

(** What may be wrong with the models. *)
Inductive Fault : Type :=
| Sound
| ReturnsNone (k : nat)
| ReturnsOneLabel.

(** A sound model predicts its own index for every row.  With
    [ReturnsNone k], model [k] hands back [None]; with [ReturnsOneLabel],
    every model hands back a single label whatever the size of the batch. *)
Definition ext (f : Fault) (c : Call) (w : World) : (Exn + reply c) * World :=
  match c as c0 return (Exn + reply c0) * World with
  | stream_next_sample n =>
      (inr (batch_of (firstn (Z.to_nat n) (pending w))),
       {| pending := skipn (Z.to_nat n) (pending w); clock := clock w |})
  | stream_has_more_samples => (inr (negb (Nat.eqb (length (pending w)) 0)), w)
  | stream_n_remaining_samples => (inr (Z.of_nat (length (pending w))), w)
  | stream_restart => (inr tt, w)
  | model_predict i Xb =>
      (inr (match f with
            | Sound => PredSeq (map (fun _ => Z.of_nat i) Xb)
            | ReturnsNone k => if Nat.eqb i k then PredNotIterable
                               else PredSeq (map (fun _ => Z.of_nat i) Xb)
            | ReturnsOneLabel => PredSeq [0]
            end), w)
  | model_partial_fit _ _ _ _ => (inr tt, w)
  | add_result _ _ _ _ => (inr tt, w)
  | running_time _ _ => (inr tt, w)
  | timer =>
      (inr (inject_Z (clock w)),
       {| pending := pending w; clock := clock w + 1 |})
  | check_progress _ => (inr tt, w)
  | update_metrics => (inr tt, w)
  | flush_file_buffer => (inr tt, w)
  | evaluation_summary => (inr tt, w)
  end.

(** Insertion sort on [available_time]; a new row goes in front of the rows
    with the same key, so rows with equal keys keep their order. *)
Fixpoint insert_row (r : Row) (l : list Row) : list Row :=
  match l with
  | [] => [r]
  | x :: l' =>
      if available_time r <=? available_time x then r :: l
      else x :: insert_row r l'
  end.

Definition stable_sort (l : list Row) : list Row := fold_right insert_row [] l.

(** Rows of different lengths: the answer of recent numpy versions. *)
Definition ragged (rows : list (list Label)) : Exn + list (list Label) :=
  inl (ValueError "inhomogeneous shape").

(** Sample [k] arrives at time [k]; its label is available three ticks
    later. *)
Definition sample (k : Z) : Feat * Time * Time * Label :=
  ([k], k, k + 3, k mod 2).

Definition cfg (pretrain : Z) : Config :=
  {| n_wait := 2; max_samples := 6; batch_size := 2; pretrain_size := pretrain;
     max_time := None; metrics := [ACCURACY]; restart_stream := true;
     model := ["HT"; "NB"]%string; _task_type := CLASSIFICATION |}.

(** The evaluator as [evaluate] hands it to [_train_and_test]: counters at
    zero, no delay queue and no timestamp yet, ten samples in the stream. *)
Definition start (pretrain : Z) : State World :=
  {| config := cfg pretrain;
     global_sample_count := 0;
     actual_max_samples := 0;
     first_run := true;
     update_count := 0;
     current_timestamp := None;
     delay_queue := None;
     _start_time := 0%Q;
     _end_time := 0%Q;
     world := {| pending := map sample [1; 2; 3; 4; 5; 6; 7; 8; 9; 10];
                 clock := 0 |};
     trace := [] |}.

Definition rowA : Row :=
  {| rX := [1]; y_real := 0; y_pred := [0; 1]; arrival_time := 1; available_time := 5 |}.

Definition rowB : Row :=
  {| rX := [2]; y_real := 1; y_pred := [0; 1]; arrival_time := 2; available_time := 5 |}.

Definition rowC : Row :=
  {| rX := [3]; y_real := 1; y_pred := [0; 1]; arrival_time := 3; available_time := 9 |}.

(** In the middle of a run: four samples counted out of six, a watermark
    and three queued rows. *)
Definition midway : State World :=
  {| config := cfg 2;
     global_sample_count := 4;
     actual_max_samples := 6;
     first_run := false;
     update_count := 0;
     current_timestamp := Some 5;
     delay_queue := Some [rowA; rowC; rowB];
     _start_time := 0%Q;
     _end_time := 0%Q;
     world := {| pending := map sample [7; 8; 9; 10]; clock := 5 |};
     trace := [] |}.


(** A very long run: more than [2^53] samples counted, a count that a
    float no longer holds exactly. *)
Definition long_run : State World :=
  {| config :=
       {| n_wait := 2; max_samples := 2 ^ 60; batch_size := 2; pretrain_size := 1;
          max_time := None; metrics := [ACCURACY]; restart_stream := true;
          model := ["HT"; "NB"]%string; _task_type := CLASSIFICATION |};
     global_sample_count := 2 ^ 54 + 1;
     actual_max_samples := 2 ^ 60;
     first_run := false;
     update_count := 2 ^ 53 - 1;
     current_timestamp := Some 5;
     delay_queue := Some [rowC];
     _start_time := 0%Q;
     _end_time := 0%Q;
     world := {| pending := []; clock := 5 |};
     trace := [] |}.

(** Arguments of the constructor, and a heap with the caller's list. *)
Definition args (m : Init.MetricsArg) : Init.Args :=
  {| Init.a_n_wait := 200;
     Init.a_max_samples := 100000;
     Init.a_batch_size := 1;
     Init.a_pretrain_size := 200;
     Init.a_max_time := None;
     Init.a_metrics := m;
     Init.a_output_file := None;
     Init.a_show_plot := false;
     Init.a_restart_stream := true;
     Init.a_data_points_for_classification := true |}.

End Demo.

(** ** A stream that fails

    The world of [Demo] with sound models, but the stream raises when it is
    asked whether it has more samples. *)
Module Outage.

Definition ext (c : Call) (w : Demo.World) : (Exn + reply c) * Demo.World :=
  match c as c0 return (Exn + reply c0) * Demo.World with
  | stream_has_more_samples => (inl (OtherError "connection lost"), w)
  | c' => Demo.ext Demo.Sound c' w
  end.

(** [Demo.midway] with a [batch_size] of zero: the stream serves batches
    without samples. *)
Definition stalled : State Demo.World :=
  {| config :=
       {| n_wait := 2; max_samples := 6; batch_size := 0; pretrain_size := 2;
          max_time := None; metrics := [ACCURACY]; restart_stream := true;
          model := ["HT"; "NB"]%string; _task_type := CLASSIFICATION |};
     global_sample_count := 4;
     actual_max_samples := 6;
     first_run := false;
     update_count := 0;
     current_timestamp := Some 5;
     delay_queue := Some [Demo.rowA; Demo.rowC; Demo.rowB];
     _start_time := 0%Q;
     _end_time := 0%Q;
     world := {| Demo.pending := map Demo.sample [7; 8; 9; 10];
                 Demo.clock := 5 |};
     trace := [] |}.

End Outage.

Section Evaluator.

(** The world outside the class, and how it answers a call. *)
Variable W : Type.
Variable ext : forall c : Call, W -> (Exn + reply c) * W.

(** [DataFrame.sort_values(by='available_time')], called without a [kind]
    argument, followed by [reset_index(drop=True)].  The rows are kept in a
    list, so their position is their index. *)
Variable sort_values : list Row -> list Row.

(** What [np.array(rows).T.tolist()] does when the rows have different
    lengths; it depends on the numpy version (an array of objects, or an
    error). *)
Variable np_ragged : list (list Label) -> Exn + list (list Label).

(** How the installed NumPy reads the subscript of the flush. *)
Variable np_list_index : ListIndex.

(** ** The monad: a state, and a value or a raised exception *)

Definition M (A : Type) : Type := State W -> (Exn + A) * State W.

Definition ret {A : Type} (a : A) : M A := fun s => (inr a, s).

Definition raise {A : Type} (e : Exn) : M A := fun s => (inl e, s).

Definition bind {A B : Type} (m : M A) (k : A -> M B) : M B :=
  fun s =>
    match m s with
    | (inr a, s') => k a s'
    | (inl e, s') => (inl e, s')
    end.

Notation "'let*' x ':=' m 'in' k" := (bind m (fun x => k))
  (at level 10, x pattern, m at level 100, k at level 200).

Definition gets {A : Type} (f : State W -> A) : M A := fun s => (inr (f s), s).

Definition modify (f : State W -> State W) : M unit := fun s => (inr tt, f s).

Definition lift {A : Type} (r : Exn + A) : M A :=
  match r with
  | inl e => raise e
  | inr a => ret a
  end.

(** A call that leaves the class: logged, then answered by the oracle. *)
Definition call (c : Call) : M (reply c) :=
  fun s =>
    let '(r, w) := ext c (world s) in
    (r, set_world w (set_trace (EvCall c :: trace s) s)).

Definition print (msg : string) : M unit :=
  modify (fun s => set_trace (EvPrint msg :: trace s) s).

Definition print_exn (e : Exn) (s : State W) : State W :=
  set_trace (EvPrintExn e :: trace s) s.

(** [try: m except TypeError: h]. *)
Definition except_TypeError {A : Type} (m : M A) (h : M A) : M A :=
  fun s =>
    match m s with
    | (inl (TypeError _), s') => h s'
    | other => other
    end.

(** [for i in l: body(i)]. *)
Fixpoint for_each {A : Type} (l : list A) (body : A -> M unit) : M unit :=
  match l with
  | [] => ret tt
  | i :: l' => let* _ := body i in for_each l' body
  end.

(** [[f(i) for i in l]], the results collected in order. *)
Fixpoint collect {A B : Type} (l : list A) (f : A -> M B) : M (list B) :=
  match l with
  | [] => ret []
  | i :: l' => let* b := f i in let* bs := collect l' f in ret (b :: bs)
  end.

Definition range (n : nat) : list nat := seq 0 n.

(** Reading an attribute that may not exist yet. *)
Definition get_delay_queue : M (list Row) :=
  fun s =>
    match delay_queue s with
    | Some q => (inr q, s)
    | None => (inl (AttributeError "delay_queue"), s)
    end.

Definition get_current_timestamp : M Time :=
  fun s =>
    match current_timestamp s with
    | Some t => (inr t, s)
    | None => (inl (AttributeError "current_timestamp"), s)
    end.

Definition np_T (rows : list (list Label)) : Exn + list (list Label) :=
  if rectangular rows then inr (columns rows) else np_ragged rows.

(** ** The methods *)

Definition _sort_delay_queue : M unit :=
  let* q := get_delay_queue in
  modify (set_delay_queue (Some (sort_values q))).

Definition _get_delayed_samples : M (list Feat * list Label * list (list Label)) :=
  let* q := get_delay_queue in
  let* t := get_current_timestamp in
  let delayed_samples := released t q in
  let* _ := modify (set_delay_queue (Some (retained t q))) in
  let* yp := lift (np_T (map y_pred delayed_samples)) in
  ret (map rX delayed_samples, map y_real delayed_samples, yp).

(** One model's turn in [_update_classifiers]. *)
Definition fit_one (Xd : list Feat) (yd : list Label) (c : Classes) (i : nat) : M unit :=
  let* _ := call (running_time i compute_training_time_begin) in
  let* _ := call (model_partial_fit i (Some Xd) yd c) in
  let* _ := call (running_time i compute_training_time_end) in
  let* bs := gets (fun s => batch_size (config s)) in
  call (running_time i (update_time_measurements bs)).

Definition is_regression (t : TaskType) : bool :=
  match t with
  | REGRESSION | MULTI_TARGET_REGRESSION => true
  | _ => false
  end.

Definition _update_classifiers (Xd : list Feat) (yd : list Label) : M unit :=
  if (0 <? length Xd)%nat then
    let* fr := gets first_run in
    let* n := gets (fun s => n_models (config s)) in
    if fr then
      let* _ := for_each (range n) (fun i =>
                  let* t := gets (fun s => _task_type (config s)) in
                  if negb (is_regression t)
                  then fit_one Xd yd TargetValues i
                  else fit_one Xd yd NoClasses i) in
      modify (set_first_run false)
    else
      for_each (range n) (fit_one Xd yd NoClasses)
  else ret tt.

(** The body of the inner loop of [_update_metrics_delayed]. *)
Definition feed_one (yr : list Label) (yp : list (list Label)) (j i : nat) : M unit :=
  let* t1 := lift (item yr i) in
  let* row1 := lift (item yp j) in
  let* p1 := lift (item row1 i) in
  let* _ := call (add_result MeanEval j t1 p1) in
  let* t2 := lift (item yr i) in
  let* row2 := lift (item yp j) in
  let* p2 := lift (item row2 i) in
  call (add_result CurrentEval j t2 p2).

(** The test that decides a metrics update.  [or] stops at the first true
    operand; [%] raises when [n_wait] is zero, before [/] is reached.  The
    quotient is a float, compared exactly with the int [update_count + 1]. *)
Definition update_due : M bool :=
  let* g := gets global_sample_count in
  let* w := gets (fun s => n_wait (config s)) in
  if w =? 0 then raise ZeroDivisionError
  else if g mod w =? 0 then ret true
  else
    let* mx := gets (fun s => max_samples (config s)) in
    if g >=? mx then ret true
    else
      let* u := gets update_count in
      let* quotient := lift (true_divide g w) in
      ret (Qgt_bool quotient (inject_Z (u + 1))).

(** The two nested loops of [_update_metrics_delayed]. *)
Definition feed_accumulators (yr : list Label) (yp : list (list Label)) : M unit :=
  let* n := gets (fun s => n_models (config s)) in
  for_each (range n) (fun j =>
    let* row0 := lift (item yp 0) in
    for_each (range (length row0)) (feed_one yr yp j)).

Definition _update_metrics_delayed (yr : list Label) (yp : list (list Label)) : M unit :=
  if (0 <? length yp)%nat then
    let* _ := feed_accumulators yr yp in
    let* a := gets actual_max_samples in
    let* _ := call (check_progress a) in
    let* due := update_due in
    if due then
      let* _ := call update_metrics in
      modify (fun s => set_update_count (update_count s + 1) s)
    else ret tt
  else ret tt.

Definition unexpected_prediction (class_name : string) : Exn :=
  TypeError (String.append "Unexpected prediction value from " class_name).

(** One model's turn in [_predict_samples]; the [try] covers the two timing
    calls as well. *)
Definition predict_one (Xb : list Feat) (i : nat) : M (list Label) :=
  except_TypeError
    (let* _ := call (running_time i compute_testing_time_begin) in
     let* out := call (model_predict i Xb) in
     let* l := match out with
               | PredSeq l => ret l
               | PredNotIterable => raise (TypeError "object is not iterable")
               end in
     let* _ := call (running_time i compute_testing_time_end) in
     ret l)
    (let* names := gets (fun s => model (config s)) in
     raise (unexpected_prediction (nth i names ""%string))).

Definition _predict_samples (Xo : option (list Feat)) : M (option (list (list Label))) :=
  match Xo with
  | None => ret None
  | Some Xb =>
      let* n := gets (fun s => n_models (config s)) in
      let* prediction := collect (range n) (predict_one Xb) in
      let* _ := modify (fun s => set_global_sample_count
                                   (global_sample_count s + batch_size (config s)) s) in
      let* yp := lift (np_T prediction) in
      ret (Some yp)
  end.

Definition _update_delayed_queue (Xo : option (list Feat)) (arr avail : list Time)
           (yr : list Label) (ypo : option (list (list Label))) : M unit :=
  match Xo, ypo with
  | None, _ => raise (TypeError "zip argument #1 must support iteration")
  | Some _, None => raise (TypeError "zip argument #3 must support iteration")
  | Some Xb, Some yp =>
      let delay_frame := zip_rows Xb yr yp arr avail in
      let* q := get_delay_queue in
      let* _ := modify (set_delay_queue (Some (q ++ delay_frame))) in
      _sort_delay_queue
  end.

(** ** [_train_and_test] *)

(** One model's turn in the pre-training block. *)
Definition pretrain_one (b : Batch) (i : nat) : M unit :=
  let* t := gets (fun s => _task_type (config s)) in
  let c := match t with
           | CLASSIFICATION => TargetValues
           | MULTI_TARGET_CLASSIFICATION => UniqueTargetValues
           | _ => NoClasses
           end in
  let* _ := call (running_time i compute_training_time_begin) in
  let* _ := call (model_partial_fit i (bX b) (b_y b) c) in
  let* _ := call (running_time i compute_training_time_end) in
  let* p := gets (fun s => pretrain_size (config s)) in
  call (running_time i (update_time_measurements p)).

(** The block under [if self.pretrain_size > 0].  The printed texts are
    logged without the numbers formatted into them. *)
Definition pretrain : M unit :=
  let* _ := print "Pre-training on {} sample(s)." in
  let* p := gets (fun s => pretrain_size (config s)) in
  let* current_batch := call (stream_next_sample p) in
  let* n := gets (fun s => n_models (config s)) in
  let* _ := for_each (range n) (pretrain_one current_batch) in
  let* _ := modify (fun s => set_global_sample_count
                               (global_sample_count s + pretrain_size (config s)) s) in
  let* _ := modify (set_first_run false) in
  let* t := lift (last_item (b_arrival_time current_batch)) in
  let* _ := modify (set_current_timestamp (Some t)) in
  let* _ := modify (set_delay_queue (Some [])) in
  _sort_delay_queue.

(** Everything before the [while] loop. *)
Definition prologue : M unit :=
  let* t0 := call timer in
  let* _ := modify (set_start_time t0) in
  let* t1 := call timer in
  let* _ := modify (set_end_time t1) in
  let* _ := print "Prequential Evaluation Delayed" in
  let* _ := print "Evaluating {} target(s)." in
  let* r := call stream_n_remaining_samples in
  let* mx := gets (fun s => max_samples (config s)) in
  let* _ := modify (set_actual_max_samples
                      (if (r =? -1) || (r >? mx) then mx else r)) in
  let* _ := modify (set_first_run true) in
  let* p := gets (fun s => pretrain_size (config s)) in
  let* _ := (if p >? 0 then pretrain else ret tt) in
  let* _ := modify (set_update_count 0) in
  print "Evaluating...".

(** The condition of the [while] loop.  Its operands are joined by [&], so
    all three are evaluated. *)
Definition loop_guard : M bool :=
  let* g := gets global_sample_count in
  let* a := gets actual_max_samples in
  let* t0 := gets _start_time in
  let* t1 := gets _end_time in
  let* mt := gets (fun s => max_time (config s)) in
  let* more := call stream_has_more_samples in
  ret ((g <? a)
       && match mt with
          | None => true
          | Some m => Qgt_bool m (t1 - t0)%Q
          end
       && more).

(** The first two statements of the loop body: pull a batch, advance the
    watermark. *)
Definition pull_batch : M Batch :=
  let* bs := gets (fun s => batch_size (config s)) in
  let* current_batch := call (stream_next_sample bs) in
  let* t := lift (last_item (b_arrival_time current_batch)) in
  let* _ := modify (set_current_timestamp (Some t)) in
  ret current_batch.

(** The rest of the loop body. *)
Definition process_batch (b : Batch) : M unit :=
  let* delayed := _get_delayed_samples in
  let '(X_delayed, y_real_delayed, y_pred_delayed) := delayed in
  let* _ := _update_metrics_delayed y_real_delayed y_pred_delayed in
  let* _ := _update_classifiers X_delayed y_real_delayed in
  let* yp := _predict_samples (bX b) in
  let* _ := _update_delayed_queue (bX b) (b_arrival_time b) (b_available_time b)
                                  (b_y b) yp in
  let* t := call timer in
  modify (set_end_time t).

Definition loop_body : M unit :=
  let* b := pull_batch in
  process_batch b.

(** The [while] loop with its [try ... except BaseException].  The handler
    prints the exception and breaks; its test [exc is KeyboardInterrupt]
    compares an instance with a class and never holds.  [None] means that the
    fuel ran out. *)
Fixpoint while_loop (fuel : nat) (s : State W) : option ((Exn + unit) * State W) :=
  match fuel with
  | O => None
  | S fuel' =>
      match loop_guard s with
      | (inl e, s1) => Some (inl e, s1)
      | (inr false, s1) => Some (inr tt, s1)
      | (inr true, s1) =>
          match loop_body s1 with
          | (inr _, s2) => while_loop fuel' s2
          | (inl e, s2) => Some (inr tt, print_exn e s2)
          end
      end
  end.

(** [q.drop(q.index[[np.arange(n)]])]: the queue without its first [n]
    rows, or the [KeyError] of a selection in two dimensions (the text of
    the message, which quotes the labels, is not kept). *)
Definition drop_leading (n : Z) (q : list Row) : Exn + list Row :=
  match np_list_index with
  | ReadAsTuple => inr (skipn (Z.to_nat n) q)
  | ReadAsArray => inl (KeyError "not found in axis")
  end.

(** The inner [while] of the flush after the loop: drop the first
    [batch_size] rows as long as more than [batch_size] rows are left. *)
Fixpoint drop_chunks (fuel : nat) (s : State W) : option ((Exn + unit) * State W) :=
  match fuel with
  | O => None
  | S fuel' =>
      match get_delay_queue s with
      | (inl e, s1) => Some (inl e, s1)
      | (inr q, s1) =>
          let n := Z.of_nat (length q) in
          let bs := batch_size (config s1) in
          if (n >? 0) && (n - bs >? 0)
          then
            match drop_leading bs q with
            | inl e => Some (inl e, s1)
            | inr q' => drop_chunks fuel' (set_delay_queue (Some q') s1)
            end
          else Some (inr tt, s1)
      end
  end.

(** The block after the loop that handles what is left in the queue. *)
Definition draining (fuel : nat) (s : State W) : option ((Exn + unit) * State W) :=
  match get_delay_queue s with
  | (inl e, s1) => Some (inl e, s1)
  | (inr q, s1) =>
      if (0 <? length q)%nat then
        match _sort_delay_queue s1 with
        | (inl e, s2) => Some (inl e, s2)
        | (inr _, s2) => drop_chunks fuel s2
        end
      else Some (inr tt, s1)
  end.

(** Flush, summary, restart, [return self.model]. *)
Definition epilogue : M (list string) :=
  let* _ := call flush_file_buffer in
  let* ms := gets (fun s => metrics (config s)) in
  let* _ := (if tracks_summary_metric ms
             then call evaluation_summary
             else print "Done") in
  let* rs := gets (fun s => restart_stream (config s)) in
  let* _ := (if rs then call stream_restart else ret tt) in
  gets (fun s => model (config s)).

Definition _train_and_test (fuel : nat) (s : State W)
  : option ((Exn + list string) * State W) :=
  match prologue s with
  | (inl e, s1) => Some (inl e, s1)
  | (inr _, s1) =>
      match while_loop fuel s1 with
      | None => None
      | Some (inl e, s2) => Some (inl e, s2)
      | Some (inr _, s2) =>
          match draining fuel s2 with
          | None => None
          | Some (inl e, s3) => Some (inl e, s3)
          | Some (inr _, s3) => Some (epilogue s3)
          end
      end
  end.

(** ** Statements about several methods *)

(** What [_get_delayed_samples] hands back when it releases the rows [rs]. *)
Definition drained_columns (rs : list Row)
  : Exn + list Feat * list Label * list (list Label) :=
  match np_T (map y_pred rs) with
  | inr yp => inr (map rX rs, map y_real rs, yp)
  | inl e => inl e
  end.

(** Enqueue a batch, re-sort, drain at a watermark [t]: whenever [A] stands
    before [B] in the queue followed by the new batch (both in the queue,
    both in the batch, or [A] in the queue and [B] in the batch) and the two
    have the same [available_time <= t], the drain hands back [A] before
    [B]. *)
Definition ties_drain_in_insertion_order : Prop :=
  forall (s : State W) (q : list Row) (Xb : list Feat) (yr : list Label)
         (yp : list (list Label)) (arr avail : list Time) (t : Time) (A B : Row),
    delay_queue s = Some q ->
    available_time A = available_time B ->
    available_time A <= t ->
    before A B (q ++ zip_rows Xb yr yp arr avail) ->
    let s1 := snd (_update_delayed_queue (Some Xb) arr avail yr (Some yp) s) in
    exists q1,
      delay_queue s1 = Some q1 /\
      before A B (released t q1) /\
      fst (_get_delayed_samples (set_current_timestamp (Some t) s1)) =
        drained_columns (released t q1).

(** ** Reasoning about computations *)

(** [m] takes every state to one that is [R]-related to it, whether it
    returns or raises. *)
Definition keeps {A : Type} (R : State W -> State W -> Prop) (m : M A) : Prop :=
  forall s, R s (snd (m s)).

(** The observation [f] of the state has the same value before and after. *)
Definition same {B : Type} (f : State W -> B) (s s' : State W) : Prop := f s' = f s.

(** From a state in [P], [m] ends in an outcome and a state in [Q]. *)
Definition hoare {A : Type} (P : State W -> Prop) (m : M A)
           (Q : Exn + A -> State W -> Prop) : Prop :=
  forall s, P s -> Q (fst (m s)) (snd (m s)).

(** The attributes that only [_predict_samples] and the pre-training block
    may change. *)
Definition counters (s : State W) : Config * Z * Z :=
  (config s, global_sample_count s, actual_max_samples s).

(** The attributes that the pre-training block may change only by adding
    [pretrain_size] to the count. *)
Definition config_and_count (s : State W) : Config * Z :=
  (config s, global_sample_count s).

(** The count grew by nothing or by [pretrain_size]. *)
Definition pretrained (s s' : State W) : Prop :=
  config s' = config s /\
  (global_sample_count s' = global_sample_count s \/
   global_sample_count s' = global_sample_count s + pretrain_size (config s)).

(** The count after everything that precedes the loop. *)
Definition counted_from (s s' : State W) : Prop :=
  config s' = config s /\
  global_sample_count s' <=
    global_sample_count s + Z.max 0 (pretrain_size (config s)).

(** The number of calls of [_update_metrics] in a trace. *)
Definition is_update (e : Event) : bool :=
  match e with
  | EvCall update_metrics => true
  | _ => false
  end.

Definition updates (tr : list Event) : nat := length (List.filter is_update tr).

(** What the feeding of the accumulators leaves alone. *)
Definition cadence_view (s : State W) : Config * Z * Z * Z * nat :=
  (config s, global_sample_count s, actual_max_samples s, update_count s,
   updates (trace s)).


(** The same condition with the bound that the code compares with: the
    configured [max_samples]. *)
Definition update_amended (s : State W) : Prop :=
  global_sample_count s mod n_wait (config s) = 0 \/
  max_samples (config s) <= global_sample_count s \/
  (inject_Z (update_count s + 1) <
   inject_Z (global_sample_count s) / inject_Z (n_wait (config s)))%Q.

(** The condition as the code evaluates it: the bound is [max_samples], and
    the quotient is the float that Python's [/] returns. *)
Definition update_coded (s : State W) : Prop :=
  global_sample_count s mod n_wait (config s) = 0 \/
  max_samples (config s) <= global_sample_count s \/
  exists x,
    true_divide (global_sample_count s) (n_wait (config s)) = inr x /\
    (inject_Z (update_count s + 1) < x)%Q.

(** ** Predict before train, on the trace

    The trace is kept newest event first: in [later ++ e :: earlier] the
    events of [earlier] happened before [e]. *)

(** Model [j] was asked to predict a batch that holds the features [x]. *)
Definition predicted_by (tr : list Event) (x : Feat) (j : nat) : Prop :=
  exists Xb, In (EvCall (model_predict j Xb)) tr /\ In x Xb.

(** Each of the [n] tracked models was. *)
Definition predicted_by_all (n : nat) (tr : list Event) (x : Feat) : Prop :=
  forall j, (j < n)%nat -> predicted_by tr x j.

(** A call of [partial_fit] is justified by what happened before it when its
    training data are the [X] and [y_real] columns of rows that every model
    had predicted by then. *)
Definition fit_justified (n : nat) (earlier : list Event) (e : Event) : Prop :=
  match e with
  | EvCall (model_partial_fit _ Xo yd _) =>
      exists rs, Xo = Some (map rX rs) /\ yd = map y_real rs /\
                 Forall (fun r => predicted_by_all n earlier (rX r)) rs
  | _ => True
  end.

(** Every event of [new], the part of the trace that follows [base], is
    justified. *)
Fixpoint fits_justified (n : nat) (base new : list Event) : Prop :=
  match new with
  | [] => True
  | e :: earlier =>
      fit_justified n (earlier ++ base) e /\ fits_justified n base earlier
  end.

(** Every row in the delay queue has been predicted by every model. *)
Definition queue_recorded (s : State W) : Prop :=
  forall q, delay_queue s = Some q ->
            Forall (fun r => predicted_by_all (n_models (config s)) (trace s) (rX r)) q.

(** The invariant of the loop, for a run with configuration [cfg] that
    entered the loop with the trace [base]. *)
Definition no_leak (cfg : Config) (base : list Event) (s : State W) : Prop :=
  config s = cfg /\
  (exists new, trace s = new ++ base /\ fits_justified (n_models cfg) base new) /\
  queue_recorded s.

(** An event that a step may log when the only training data allowed to it
    are the columns of [D] (no training at all for [None]). *)
Definition allowed (D : option (list Row)) (e : Event) : Prop :=
  match e with
  | EvCall (model_partial_fit _ Xo yd _) =>
      match D with
      | Some rs => Xo = Some (map rX rs) /\ yd = map y_real rs
      | None => False
      end
  | _ => True
  end.

(** The step left configuration and queue alone and logged allowed events
    only. *)
Definition grows (D : option (list Row)) (s s' : State W) : Prop :=
  config s' = config s /\
  delay_queue s' = delay_queue s /\
  exists new, trace s' = new ++ trace s /\ Forall (allowed D) new.

(** The step logged events in [P] only. *)
Definition logs (P : Event -> Prop) (s s' : State W) : Prop :=
  exists new, trace s' = new ++ trace s /\ Forall P new.

(** Neither a training call nor a prediction call. *)
Definition calm (e : Event) : Prop :=
  match e with
  | EvCall (model_partial_fit _ _ _ _) => False
  | EvCall (model_predict _ _) => False
  | _ => True
  end.

(** No prediction call, and training calls on the columns of [rs] only. *)
Definition training (rs : list Row) (e : Event) : Prop :=
  match e with
  | EvCall (model_partial_fit _ Xo yd _) => Xo = Some (map rX rs) /\ yd = map y_real rs
  | EvCall (model_predict _ _) => False
  | _ => True
  end.

(** No training call. *)
Definition predicting (e : Event) : Prop :=
  match e with
  | EvCall (model_partial_fit _ _ _ _) => False
  | _ => True
  end.

(** ** Further statements *)

(** Rows in non-decreasing order of [available_time]. *)
Definition by_available_time (q : list Row) : Prop :=
  StronglySorted (fun a b => available_time a <= available_time b) q.

(** The delay queue, if it exists, is in that order. *)
Definition queue_sorted (s : State W) : Prop :=
  forall q, delay_queue s = Some q -> by_available_time q.

(** The number of rows that [zip] makes of five columns. *)
Definition zipped_length (Xb : list Feat) (yr : list Label) (yp : list (list Label))
           (arr avail : list Time) : nat :=
  Nat.min (length Xb)
          (Nat.min (length yr)
                   (Nat.min (length yp) (Nat.min (length arr) (length avail)))).

(** The attributes of the evaluator itself: everything in the state but the
    world outside and the log. *)
Definition attributes (s : State W)
  : Config * Z * Z * bool * Z * option Time * option (list Row) * Q * Q :=
  (config s, global_sample_count s, actual_max_samples s, first_run s,
   update_count s, current_timestamp s, delay_queue s, _start_time s,
   _end_time s).

(** The calls of one model's turn in a training round, newest first: [n] is
    the number of samples reported to the time measurement. *)
Definition fit_calls (n : Z) (Xo : option (list Feat)) (yd : list Label)
           (c : Classes) (i : nat) : list Event :=
  [ EvCall (running_time i (update_time_measurements n));
    EvCall (running_time i compute_training_time_end);
    EvCall (model_partial_fit i Xo yd c);
    EvCall (running_time i compute_training_time_begin) ].

(** The classes that [_update_classifiers] passes from the state [s]. *)
Definition classes_passed (s : State W) : Classes :=
  if first_run s && negb (is_regression (_task_type (config s)))
  then TargetValues else NoClasses.

(** The classes that the pre-training block passes. *)
Definition pretrain_classes (t : TaskType) : Classes :=
  match t with
  | CLASSIFICATION => TargetValues
  | MULTI_TARGET_CLASSIFICATION => UniqueTargetValues
  | _ => NoClasses
  end.

(** The two calls that feed one released sample to the accumulators of
    model [j], newest first. *)
Definition feed_calls (j : nat) (y p : Label) : list Event :=
  [ EvCall (add_result CurrentEval j y p);
    EvCall (add_result MeanEval j y p) ].

(** The calls of one model's turn in a prediction round, newest first. *)
Definition predict_calls (Xb : list Feat) (i : nat) : list Event :=
  [ EvCall (running_time i compute_testing_time_end);
    EvCall (model_predict i Xb);
    EvCall (running_time i compute_testing_time_begin) ].

(** The events of the turns of the models [0 .. n-1], newest first. *)
Definition rounds (n : nat) (turn : nat -> list Event) : list Event :=
  flat_map turn (rev (range n)).

(** Every queued row carries one prediction for each model. *)
Definition rows_complete (s : State W) : Prop :=
  forall q, delay_queue s = Some q ->
            Forall (fun r => length (y_pred r) = n_models (config s)) q.

(** The models answer a batch with one label for each of its samples. *)
Definition models_answer_per_sample : Prop :=
  forall i Xb w l w',
    ext (model_predict i Xb) w = (inr (PredSeq l), w') -> length l = length Xb.

(** Configuration and queue. *)
Definition config_and_queue (s : State W) : Config * option (list Row) :=
  (config s, delay_queue s).

(** The attribute [delay_queue] has been created. *)
Definition queue_exists (s : State W) : Prop := delay_queue s <> None.

(** * Properties *)

(** ** The two masks of the drain *)

Lemma in_released (t : Time) (q : list Row) (r : Row) :
  In r (released t q) <-> In r q /\ available_time r <= t.
Proof.
  unfold released. rewrite List.filter_In, Z.leb_le. reflexivity.
Qed.

Lemma in_retained (t : Time) (q : list Row) (r : Row) :
  In r (retained t q) <-> In r q /\ available_time r > t.
Proof.
  unfold retained. rewrite List.filter_In, Z.gtb_ltb, Z.ltb_lt.
  split; intros [H1 H2]; split; auto; lia.
Qed.

Lemma released_retained (t : Time) (q : list Row) : released t (retained t q) = [].
Proof.
  unfold released, retained.
  induction q as [|r q IH]; simpl; [reflexivity|].
  destruct (available_time r >? t) eqn:E; simpl; [|exact IH].
  rewrite Z.gtb_ltb, Z.ltb_lt in E.
  destruct (available_time r <=? t) eqn:E'; [|exact IH].
  rewrite Z.leb_le in E'. lia.
Qed.

Lemma retained_retained (t : Time) (q : list Row) :
  retained t (retained t q) = retained t q.
Proof.
  unfold retained.
  induction q as [|r q IH]; simpl; [reflexivity|].
  destruct (available_time r >? t) eqn:E; simpl; [|exact IH].
  rewrite E, IH. reflexivity.
Qed.

Lemma released_app_retained (t : Time) (q : list Row) :
  Permutation q (released t q ++ retained t q).
Proof.
  unfold released, retained.
  induction q as [|r q IH]; simpl; [constructor|].
  rewrite Z.gtb_ltb, Z.ltb_antisym.
  destruct (available_time r <=? t); simpl.
  - constructor. exact IH.
  - apply Permutation_cons_app. exact IH.
Qed.

Lemma released_nil (t : Time) (q : list Row) :
  released t q = [] <-> (forall r, In r q -> available_time r > t).
Proof.
  split.
  - intros H r Hr.
    destruct (Z_le_gt_dec (available_time r) t) as [Hle|Hgt]; [|exact Hgt].
    assert (Hin : In r (released t q)) by (apply in_released; auto).
    rewrite H in Hin. destruct Hin.
  - intros H. destruct (released t q) as [|r l] eqn:E; [reflexivity|].
    assert (Hin : In r (released t q)) by (rewrite E; left; reflexivity).
    apply in_released in Hin. destruct Hin as [Hin Hle].
    specialize (H r Hin). lia.
Qed.

(** C2.  Whatever the queue [q] and the watermark [t], the drain leaves in
    the queue exactly the rows with [available_time > t] and hands back the
    columns of exactly the rows with [available_time <= t] (nothing when no
    row qualifies); every row goes to one side only, and a second drain at
    the same watermark hands back nothing and leaves the queue as it is. *)
Theorem drain_correct (s : State W) (q : list Row) (t : Time) :
  delay_queue s = Some q ->
  current_timestamp s = Some t ->
  let out := _get_delayed_samples s in
  delay_queue (snd out) = Some (retained t q)
  /\ fst out = drained_columns (released t q)
  /\ (forall r, In r (released t q) <-> In r q /\ available_time r <= t)
  /\ (forall r, In r (retained t q) <-> In r q /\ available_time r > t)
  /\ Permutation q (released t q ++ retained t q)
  /\ (released t q = [] <-> forall r, In r q -> available_time r > t)
  /\ _get_delayed_samples (snd out) = (inr ([], [], []), snd out).
Proof.
  intros Hq Ht out.
  assert (Hout : out = (drained_columns (released t q),
                        set_delay_queue (Some (retained t q)) s)).
  { subst out. unfold drained_columns, _get_delayed_samples, bind, get_delay_queue,
      get_current_timestamp, modify, lift, ret, raise.
    rewrite Hq. simpl. rewrite Ht.
    destruct (np_T (map y_pred (released t q))); reflexivity. }
  rewrite Hout. simpl.
  split; [reflexivity|]. split; [reflexivity|].
  split; [intro r; apply in_released|].
  split; [intro r; apply in_retained|].
  split; [apply released_app_retained|].
  split; [apply released_nil|].
  unfold _get_delayed_samples, bind, get_delay_queue, get_current_timestamp,
    modify, lift, ret, raise. simpl. rewrite Ht.
    rewrite released_retained, retained_retained. reflexivity.
Qed.

(** ** Order among rows with the same key *)

Lemma filter_cons_inv {A : Type} (p : A -> bool) (l : list A) (a : A) (m : list A) :
  List.filter p l = a :: m ->
  exists l1 l2, l = l1 ++ a :: l2 /\ List.filter p l2 = m.
Proof.
  induction l as [|x l IH]; simpl; [discriminate|].
  destruct (p x) eqn:E.
  - intros H. injection H as -> <-. exists [], l. split; reflexivity.
  - intros H. destruct (IH H) as (l1 & l2 & -> & H2).
    exists (x :: l1), l2. split; [reflexivity|exact H2].
Qed.

Lemma filter_app_cons_inv {A : Type} (p : A -> bool) (m1 : list A) :
  forall (l : list A) (a : A) (m : list A),
    List.filter p l = m1 ++ a :: m ->
    exists l1 l2, l = l1 ++ a :: l2 /\ List.filter p l2 = m.
Proof.
  induction m1 as [|x m1 IH]; intros l a m H.
  - apply filter_cons_inv in H. exact H.
  - apply filter_cons_inv in H. destruct H as (k1 & k2 & -> & H).
    destruct (IH _ _ _ H) as (l1 & l2 & -> & H2).
    exists (k1 ++ x :: l1), l2. split; [|exact H2].
    rewrite <- List.app_assoc. reflexivity.
Qed.

Lemma before_filter {A : Type} (p : A -> bool) (a b : A) (l : list A) :
  p a = true -> p b = true -> before a b l -> before a b (List.filter p l).
Proof.
  intros Ha Hb (l1 & l2 & l3 & ->).
  exists (List.filter p l1), (List.filter p l2), (List.filter p l3).
  rewrite List.filter_app. simpl. rewrite Ha.
  rewrite List.filter_app. simpl. rewrite Hb. reflexivity.
Qed.

Lemma before_filter_inv {A : Type} (p : A -> bool) (a b : A) (l : list A) :
  before a b (List.filter p l) -> before a b l.
Proof.
  intros (m1 & m2 & m3 & H).
  apply filter_app_cons_inv in H. destruct H as (l1 & k & -> & H).
  apply filter_app_cons_inv in H. destruct H as (l2 & l3 & -> & _).
  exists l1, l2, l3. reflexivity.
Qed.

Lemma stable_keeps_before (sort : list Row -> list Row) (A B : Row) (l : list Row) :
  stable_on_ties sort ->
  available_time A = available_time B ->
  before A B l -> before A B (sort l).
Proof.
  intros Hst Hk Hb.
  apply before_filter_inv with (p := fun r => available_time r =? available_time A).
  rewrite Hst. apply before_filter; [apply Z.eqb_refl| |exact Hb].
  rewrite <- Hk. apply Z.eqb_refl.
Qed.

Lemma enqueue_state (s : State W) (q : list Row) (Xb : list Feat)
      (yr : list Label) (yp : list (list Label)) (arr avail : list Time) :
  delay_queue s = Some q ->
  _update_delayed_queue (Some Xb) arr avail yr (Some yp) s =
    (inr tt, set_delay_queue
               (Some (sort_values (q ++ zip_rows Xb yr yp arr avail))) s).
Proof.
  intros Hq.
  unfold _update_delayed_queue, _sort_delay_queue, bind, get_delay_queue, modify.
  rewrite Hq. reflexivity.
Qed.

Lemma drain_state (s : State W) (q : list Row) (t : Time) :
  delay_queue s = Some q ->
  current_timestamp s = Some t ->
  _get_delayed_samples s =
    (drained_columns (released t q), set_delay_queue (Some (retained t q)) s).
Proof.
  intros Hq Ht.
  unfold drained_columns, _get_delayed_samples, bind, get_delay_queue,
    get_current_timestamp, modify, lift, ret, raise.
  rewrite Hq. simpl. rewrite Ht.
  destruct (np_T (map y_pred (released t q))); reflexivity.
Qed.

Lemma stable_keeps_ties_in_place (sort : list Row -> list Row) :
  stable_on_ties sort -> keeps_ties_in_place sort.
Proof.
  intros Hst l A B Hk Hb. apply stable_keeps_before; assumption.
Qed.

(** C3.  Whether rows with the same [available_time] are drained in the
    order in which they were enqueued is decided by the library's sort and
    by nothing else in the code: the property holds exactly when
    [sort_values] leaves such rows in place.  The code calls [sort_values]
    without a [kind], and the default kind does not promise that.  ([s0] is
    any state of the evaluator, to try the property on.) *)
Theorem tie_order_rests_on_the_sort (s0 : State W) :
  ties_drain_in_insertion_order <-> keeps_ties_in_place sort_values.
Proof.
  split.
  - intros Hclaim l A B Hk Hb.
    assert (Hq : delay_queue (set_delay_queue (Some l) s0) = Some l)
      by reflexivity.
    assert (Hb' : before A B (l ++ zip_rows [] [] [] [] [])).
    { simpl. rewrite List.app_nil_r. exact Hb. }
    destruct (Hclaim (set_delay_queue (Some l) s0) l [] [] [] [] []
                (available_time A) A B Hq Hk ltac:(lia) Hb')
      as (q1 & Hq1 & Hbef & _).
    rewrite (enqueue_state _ _ _ _ _ _ _ Hq) in Hq1. simpl in Hq1.
    injection Hq1 as <-. rewrite List.app_nil_r in Hbef.
    eapply before_filter_inv. exact Hbef.
  - intros Hst s q Xb yr yp arr avail t A B Hq Hk Ht Hb s1.
    subst s1. rewrite (enqueue_state _ _ _ _ _ _ _ Hq). simpl.
    eexists. split; [reflexivity|]. split.
    + apply before_filter.
      * apply Z.leb_le. exact Ht.
      * apply Z.leb_le. lia.
      * apply Hst; assumption.
    + rewrite (drain_state _ (sort_values (q ++ zip_rows Xb yr yp arr avail)) t);
        reflexivity.
Qed.

(** ** The flush after the loop *)

Lemma drop_leading_returns (n : Z) (q q' : list Row) :
  drop_leading n q = inr q' ->
  np_list_index = ReadAsTuple /\ q' = skipn (Z.to_nat n) q.
Proof.
  unfold drop_leading. destruct np_list_index; [|discriminate].
  intros H. injection H as <-. split; reflexivity.
Qed.

Lemma drop_leading_raises (n : Z) (q : list Row) (e : Exn) :
  drop_leading n q = inl e ->
  np_list_index = ReadAsArray /\ e = KeyError "not found in axis".
Proof.
  unfold drop_leading. destruct np_list_index; [discriminate|].
  intros H. injection H as <-. split; reflexivity.
Qed.

Lemma drop_chunks_step (fuel : nat) (s : State W) (q : list Row) :
  delay_queue s = Some q ->
  drop_chunks (S fuel) s =
    if (Z.of_nat (length q) >? 0)
       && (Z.of_nat (length q) - batch_size (config s) >? 0)
    then
      match drop_leading (batch_size (config s)) q with
      | inl e => Some (inl e, s)
      | inr q' => drop_chunks fuel (set_delay_queue (Some q') s)
      end
    else Some (inr tt, s).
Proof.
  intros Hq. cbn [drop_chunks]. unfold get_delay_queue at 1. rewrite Hq.
  reflexivity.
Qed.

Lemma set_delay_queue_same (s : State W) (q : list Row) :
  delay_queue s = Some q -> set_delay_queue (Some q) s = s.
Proof. intros H. destruct s. simpl in H. subst. reflexivity. Qed.

(** Whatever the flush loop ends with, it has touched nothing but the
    queue, and the queue that is left is the one it started with, without
    some of its first rows. *)
Lemma drop_chunks_frame (fuel : nat) :
  forall (s : State W) (q : list Row) r s',
    delay_queue s = Some q ->
    drop_chunks fuel s = Some (r, s') ->
    s' = set_delay_queue (delay_queue s') s /\
    exists k, delay_queue s' = Some (skipn k q).
Proof.
  induction fuel as [|fuel IH]; intros s q r s' Hq H; [discriminate|].
  rewrite (drop_chunks_step fuel s q Hq) in H.
  destruct ((Z.of_nat (length q) >? 0)
            && (Z.of_nat (length q) - batch_size (config s) >? 0)).
  - destruct (drop_leading (batch_size (config s)) q) as [e|q'] eqn:E.
    + injection H as _ <-. rewrite Hq.
      split; [symmetry; apply set_delay_queue_same; exact Hq|].
      exists 0%nat. reflexivity.
    + apply drop_leading_returns in E. destruct E as [_ ->].
      apply IH with (q := skipn (Z.to_nat (batch_size (config s))) q) in H;
        [|reflexivity].
      destruct H as (Hs & k & Hk). split.
      * rewrite Hs at 1. reflexivity.
      * exists (Z.to_nat (batch_size (config s)) + k)%nat.
        rewrite Hk. rewrite List.skipn_skipn. f_equal. f_equal. lia.
  - injection H as _ <-. rewrite Hq.
    split; [symmetry; apply set_delay_queue_same; exact Hq|].
    exists 0%nat. reflexivity.
Qed.

Lemma drop_chunks_terminates (n : nat) :
  forall (s : State W) (q : list Row),
    delay_queue s = Some q ->
    (length q <= n)%nat ->
    0 < batch_size (config s) ->
    exists out, drop_chunks (S n) s = Some out.
Proof.
  induction n as [|n IH]; intros s q Hq Hn Hbs.
  - rewrite (drop_chunks_step 0 s q Hq).
    destruct q; [|simpl in Hn; lia]. simpl. eexists. reflexivity.
  - rewrite (drop_chunks_step (S n) s q Hq).
    destruct ((Z.of_nat (length q) >? 0)
              && (Z.of_nat (length q) - batch_size (config s) >? 0)) eqn:E;
      [|eexists; reflexivity].
    destruct (drop_leading (batch_size (config s)) q) as [e|q'] eqn:El;
      [eexists; reflexivity|].
    apply drop_leading_returns in El. destruct El as [_ ->].
    apply andb_prop in E. destruct E as [E1 E2].
    rewrite Z.gtb_ltb, Z.ltb_lt in E1, E2.
    apply IH with (q := skipn (Z.to_nat (batch_size (config s))) q);
      [reflexivity| |exact Hbs].
    rewrite List.length_skipn. lia.
Qed.

(** With the subscript read as a tuple the flush loop returns. *)
Lemma drop_chunks_returns (n : nat) :
  np_list_index = ReadAsTuple ->
  forall (s : State W) (q : list Row),
    delay_queue s = Some q ->
    (length q <= n)%nat ->
    0 < batch_size (config s) ->
    exists s', drop_chunks (S n) s = Some (inr tt, s').
Proof.
  intros Hread. induction n as [|n IH]; intros s q Hq Hn Hbs.
  - rewrite (drop_chunks_step 0 s q Hq).
    destruct q; [|simpl in Hn; lia]. simpl. eexists. reflexivity.
  - rewrite (drop_chunks_step (S n) s q Hq).
    destruct ((Z.of_nat (length q) >? 0)
              && (Z.of_nat (length q) - batch_size (config s) >? 0)) eqn:E;
      [|eexists; reflexivity].
    unfold drop_leading. rewrite Hread.
    apply andb_prop in E. destruct E as [E1 E2].
    rewrite Z.gtb_ltb, Z.ltb_lt in E1, E2.
    apply IH with (q := skipn (Z.to_nat (batch_size (config s))) q);
      [reflexivity| |exact Hbs].
    rewrite List.length_skipn. lia.
Qed.

(** The frame of the flush, for use in other proofs. *)
Lemma draining_frame (fuel : nat) (s : State W) (q : list Row) r s' :
  delay_queue s = Some q ->
  draining fuel s = Some (r, s') ->
  trace s' = trace s /\ s' = set_delay_queue (delay_queue s') s /\
  exists k, delay_queue s' =
            Some (skipn k (if (0 <? length q)%nat then sort_values q else q)).
Proof.
  intros Hq H. unfold draining, get_delay_queue in H. rewrite Hq in H.
  destruct (0 <? length q)%nat.
  - unfold _sort_delay_queue, bind, get_delay_queue, modify in H.
    rewrite Hq in H.
    apply drop_chunks_frame with (q := sort_values q) in H; [|reflexivity].
    destruct H as (Hs & k & Hk).
    rewrite Hs. split; [reflexivity|]. split; [reflexivity|].
    exists k. exact Hk.
  - injection H as _ <-.
    split; [reflexivity|]. split; [destruct s; reflexivity|].
    exists 0%nat. exact Hq.
Qed.

Lemma draining_ends (s : State W) :
  0 < batch_size (config s) -> exists fuel out, draining fuel s = Some out.
Proof.
  intros Hbs. unfold draining, get_delay_queue.
  destruct (delay_queue s) as [q|] eqn:Hq; [|exists 0%nat; eexists; reflexivity].
  destruct (0 <? length q)%nat; [|exists 0%nat; eexists; reflexivity].
  unfold _sort_delay_queue, bind, get_delay_queue, modify. rewrite Hq.
  destruct (drop_chunks_terminates (length (sort_values q))
              (set_delay_queue (Some (sort_values q)) s) (sort_values q))
    as [out Hout]; [reflexivity|lia|exact Hbs|].
  exists (S (length (sort_values q))), out. exact Hout.
Qed.

Lemma draining_returns (s : State W) (q : list Row) :
  np_list_index = ReadAsTuple ->
  delay_queue s = Some q ->
  0 < batch_size (config s) ->
  exists fuel s', draining fuel s = Some (inr tt, s').
Proof.
  intros Hread Hq Hbs. unfold draining, get_delay_queue. rewrite Hq.
  destruct (0 <? length q)%nat.
  - unfold _sort_delay_queue, bind, get_delay_queue, modify. rewrite Hq.
    destruct (drop_chunks_returns (length (sort_values q)) Hread
                (set_delay_queue (Some (sort_values q)) s) (sort_values q))
      as [s' Hs']; [reflexivity|lia|exact Hbs|].
    exists (S (length (sort_values q))), s'. exact Hs'.
  - exists 0%nat, s. reflexivity.
Qed.

(** C9.  The flush after the loop, however it ends and however NumPy reads
    the subscript of its [drop], makes no call that leaves the class: the
    trace holds no new event, least of all a [partial_fit] or an
    [add_result], and the world of models and accumulators is as it was.
    Every attribute but the delay queue keeps its value, and the queue that
    is left is the re-sorted queue without some of its first rows.  With a
    positive [batch_size] the flush comes to an end. *)
Theorem draining_only_shrinks_queue (s : State W) :
  (forall fuel r s',
      draining fuel s = Some (r, s') ->
      trace s' = trace s /\
      world s' = world s /\
      s' = set_delay_queue (delay_queue s') s /\
      forall q, delay_queue s = Some q ->
                exists k, delay_queue s' =
                          Some (skipn k (if (0 <? length q)%nat
                                         then sort_values q else q)))
  /\ (0 < batch_size (config s) ->
      exists fuel out, draining fuel s = Some out).
Proof.
  split.
  - intros fuel r s' H.
    destruct (delay_queue s) as [q|] eqn:Hq.
    + unfold draining, get_delay_queue in H. rewrite Hq in H.
      destruct (0 <? length q)%nat eqn:Hlen.
      * unfold _sort_delay_queue, bind, get_delay_queue, modify in H.
        rewrite Hq in H.
        apply drop_chunks_frame with (q := sort_values q) in H; [|reflexivity].
        destruct H as (Hs & k & Hk). rewrite Hs.
        split; [reflexivity|]. split; [reflexivity|]. split; [reflexivity|].
        intros q0 E. injection E as <-. rewrite Hlen. exists k. exact Hk.
      * injection H as _ <-.
        split; [reflexivity|]. split; [reflexivity|].
        split; [destruct s; reflexivity|].
        intros q0 E. injection E as <-. rewrite Hlen.
        exists 0%nat. exact Hq.
    + unfold draining, get_delay_queue in H. rewrite Hq in H.
      injection H as _ <-.
      split; [reflexivity|]. split; [reflexivity|].
      split; [destruct s; reflexivity|].
      intros q0 E. discriminate.
  - intros Hbs. unfold draining, get_delay_queue.
    destruct (delay_queue s) as [q|] eqn:Hq;
      [|exists 0%nat; eexists; reflexivity].
    destruct (0 <? length q)%nat; [|exists 0%nat; eexists; reflexivity].
    unfold _sort_delay_queue, bind, get_delay_queue, modify. rewrite Hq.
    destruct (drop_chunks_terminates (length (sort_values q))
                (set_delay_queue (Some (sort_values q)) s) (sort_values q))
      as [out Hout]; [reflexivity|lia|exact Hbs|].
    exists (S (length (sort_values q))), out. exact Hout.
Qed.

(** ** Rules for [keeps] *)

Section Keeps.

Variable R : State W -> State W -> Prop.
Hypothesis R_refl : forall s, R s s.
Hypothesis R_trans : forall s1 s2 s3, R s1 s2 -> R s2 s3 -> R s1 s3.

Lemma keeps_ret {A : Type} (a : A) : keeps R (ret a).
Proof using R_refl R_trans. intro s. apply R_refl. Qed.

Lemma keeps_raise {A : Type} (e : Exn) : keeps R (@raise A e).
Proof using R_refl R_trans. intro s. apply R_refl. Qed.

Lemma keeps_gets {A : Type} (f : State W -> A) : keeps R (gets f).
Proof using R_refl R_trans. intro s. apply R_refl. Qed.

Lemma keeps_lift {A : Type} (r : Exn + A) : keeps R (lift r).
Proof using R_refl R_trans. destruct r; intro s; apply R_refl. Qed.

Lemma keeps_bind {A B : Type} (m : M A) (k : A -> M B) :
  keeps R m -> (forall a, keeps R (k a)) -> keeps R (bind m k).
Proof using R_refl R_trans.
  intros Hm Hk s. unfold bind. specialize (Hm s).
  destruct (m s) as [[e|a] s1]; simpl in *; [exact Hm|].
  eapply R_trans; [exact Hm|apply Hk].
Qed.

Lemma keeps_except {A : Type} (m h : M A) :
  keeps R m -> keeps R h -> keeps R (except_TypeError m h).
Proof using R_refl R_trans.
  intros Hm Hh s. unfold except_TypeError. specialize (Hm s).
  destruct (m s) as [[e|a] s1]; simpl in *; [|exact Hm].
  destruct e; simpl; try exact Hm.
  eapply R_trans; [exact Hm|apply Hh].
Qed.

Lemma keeps_for_each {A : Type} (l : list A) (body : A -> M unit) :
  (forall i, keeps R (body i)) -> keeps R (for_each l body).
Proof using R_refl R_trans.
  intros Hb. induction l as [|i l IH]; simpl.
  - apply keeps_ret.
  - apply keeps_bind; [apply Hb|intros _; exact IH].
Qed.

Lemma keeps_collect {A B : Type} (l : list A) (f : A -> M B) :
  (forall i, keeps R (f i)) -> keeps R (collect l f).
Proof using R_refl R_trans.
  intros Hf. induction l as [|i l IH]; simpl.
  - apply keeps_ret.
  - apply keeps_bind; [apply Hf|]. intros b.
    apply keeps_bind; [exact IH|]. intros bs. apply keeps_ret.
Qed.

End Keeps.

Lemma same_refl {B : Type} (f : State W -> B) (s : State W) : same f s s.
Proof. reflexivity. Qed.

Lemma same_trans {B : Type} (f : State W -> B) (s1 s2 s3 : State W) :
  same f s1 s2 -> same f s2 s3 -> same f s1 s3.
Proof. unfold same. congruence. Qed.

Lemma keeps_same_call {B : Type} (f : State W -> B) (c : Call) :
  (forall s w, f (set_world w (set_trace (EvCall c :: trace s) s)) = f s) ->
  keeps (same f) (call c).
Proof.
  intros Hf s. unfold call, same. destruct (ext c (world s)) as [r w]. simpl.
  apply Hf.
Qed.

Lemma keeps_same_modify {B : Type} (f : State W -> B) (g : State W -> State W) :
  (forall s, f (g s) = f s) -> keeps (same f) (modify g).
Proof. intros Hf s. apply Hf. Qed.

(** Break a computation down along its structure; what is left are the
    calls and the assignments. *)
Lemma keeps_get_delay_queue (R : State W -> State W -> Prop) :
  (forall s, R s s) -> keeps R get_delay_queue.
Proof. intros HR s. unfold get_delay_queue. destruct (delay_queue s); apply HR. Qed.

Lemma keeps_get_current_timestamp (R : State W -> State W -> Prop) :
  (forall s, R s s) -> keeps R get_current_timestamp.
Proof.
  intros HR s. unfold get_current_timestamp.
  destruct (current_timestamp s); apply HR.
Qed.

Ltac keeps_side := first [apply same_refl | apply same_trans].

Ltac keeps_structure :=
  repeat (intros; first
    [ apply keeps_ret; keeps_side
    | apply keeps_raise; keeps_side
    | apply keeps_gets; keeps_side
    | apply keeps_lift; keeps_side
    | apply keeps_get_delay_queue; keeps_side
    | apply keeps_get_current_timestamp; keeps_side
    | apply keeps_bind; [keeps_side|keeps_side| |]
    | apply keeps_except; [keeps_side|keeps_side| |]
    | apply keeps_for_each; [keeps_side|keeps_side|]
    | apply keeps_collect; [keeps_side|keeps_side|]
    | match goal with
      | |- keeps _ (call ?c) => refine (keeps_same_call _ c _); reflexivity
      end
    | apply keeps_same_modify; reflexivity
    | match goal with
      | |- keeps _ (if ?b then _ else _) => destruct b
      | |- keeps _ (match ?x with _ => _ end) => destruct x
      end ]).

Lemma print_keeps {B : Type} (f : State W -> B) (msg : string) :
  (forall s tr, f (set_trace tr s) = f s) -> keeps (same f) (print msg).
Proof. intros Hf s. apply Hf. Qed.

Lemma sort_keeps_counters : keeps (same counters) _sort_delay_queue.
Proof. unfold _sort_delay_queue. keeps_structure. Qed.

Lemma pull_batch_keeps_counters : keeps (same counters) pull_batch.
Proof. unfold pull_batch. keeps_structure. Qed.

Lemma drain_keeps_counters : keeps (same counters) _get_delayed_samples.
Proof. unfold _get_delayed_samples. keeps_structure. Qed.

Lemma metrics_keep_counters (yr : list Label) (yp : list (list Label)) :
  keeps (same counters) (_update_metrics_delayed yr yp).
Proof.
  unfold _update_metrics_delayed, feed_accumulators, feed_one, update_due.
  keeps_structure.
Qed.

Lemma classifiers_keep_counters (Xd : list Feat) (yd : list Label) :
  keeps (same counters) (_update_classifiers Xd yd).
Proof. unfold _update_classifiers, fit_one. keeps_structure. Qed.

Lemma enqueue_keeps_counters Xo arr avail yr ypo :
  keeps (same counters) (_update_delayed_queue Xo arr avail yr ypo).
Proof.
  unfold _update_delayed_queue, _sort_delay_queue.
  destruct Xo; [destruct ypo|]; keeps_structure.
Qed.

(** ** The sample count *)

Lemma predict_one_keeps_counters (Xb : list Feat) (i : nat) :
  keeps (same counters) (predict_one Xb i).
Proof. unfold predict_one. keeps_structure. Qed.

Lemma predict_samples_count (Xo : option (list Feat)) (s : State W) :
  let out := _predict_samples Xo s in
  config (snd out) = config s /\
  actual_max_samples (snd out) = actual_max_samples s /\
  (global_sample_count (snd out) = global_sample_count s \/
   global_sample_count (snd out) = global_sample_count s + batch_size (config s)) /\
  (forall yp, fst out = inr (Some yp) ->
              global_sample_count (snd out) =
              global_sample_count s + batch_size (config s)) /\
  (fst out = inr None -> Xo = None).
Proof.
  destruct Xo as [Xb|]; simpl.
  2:{ repeat split; auto; intros; discriminate. }
  unfold bind, gets, modify, lift.
  pose proof (keeps_collect (same counters) (same_refl counters)
                (same_trans counters) (range (n_models (config s)))
                (predict_one Xb) (predict_one_keeps_counters Xb) s) as H.
  destruct (collect (range (n_models (config s))) (predict_one Xb) s)
    as [[e|prediction] s1]; simpl in H; unfold same, counters in H;
    injection H as Hc Hg Ha.
  - simpl. repeat split; auto; intros; discriminate.
  - destruct (np_T prediction) as [e|yp]; simpl; rewrite Hc, Hg;
      repeat split; auto; intros; discriminate.
Qed.

Ltac count_close :=
  simpl; repeat split; try congruence; try (intros; discriminate);
  try (left; congruence); try (right; congruence).

Lemma process_batch_count (b : Batch) (s : State W) :
  let out := process_batch b s in
  config (snd out) = config s /\
  actual_max_samples (snd out) = actual_max_samples s /\
  (global_sample_count (snd out) = global_sample_count s \/
   global_sample_count (snd out) = global_sample_count s + batch_size (config s)) /\
  (fst out = inr tt ->
   global_sample_count (snd out) = global_sample_count s + batch_size (config s)).
Proof.
  unfold process_batch, bind.
  pose proof (drain_keeps_counters s) as H1.
  destruct (_get_delayed_samples s) as [[e|[[Xd yd] ypd]] s1];
    unfold same, counters in H1; simpl in H1; injection H1 as Hc1 Hg1 Ha1;
    [count_close|].
  pose proof (metrics_keep_counters yd ypd s1) as H2.
  destruct (_update_metrics_delayed yd ypd s1) as [[e|u] s2];
    unfold same, counters in H2; simpl in H2; injection H2 as Hc2 Hg2 Ha2;
    [count_close|].
  pose proof (classifiers_keep_counters Xd yd s2) as H3.
  destruct (_update_classifiers Xd yd s2) as [[e|u'] s3];
    unfold same, counters in H3; simpl in H3; injection H3 as Hc3 Hg3 Ha3;
    [count_close|].
  pose proof (predict_samples_count (bX b) s3) as H4. simpl in H4.
  destruct (_predict_samples (bX b) s3) as [[e|ypo] s4]; simpl in H4;
    destruct H4 as (Hc4 & Ha4 & Hg4 & Hok4 & Hnone4).
  { destruct Hg4 as [Hg4|Hg4]; count_close. }
  pose proof (enqueue_keeps_counters (bX b) (b_arrival_time b)
                (b_available_time b) (b_y b) ypo s4) as H5.
  destruct (_update_delayed_queue (bX b) (b_arrival_time b) (b_available_time b)
              (b_y b) ypo s4) as [[e|u''] s5] eqn:E5;
    unfold same, counters in H5; simpl in H5; injection H5 as Hc5 Hg5 Ha5.
  { destruct Hg4 as [Hg4|Hg4]; count_close. }
  assert (Hsome : exists yp, ypo = Some yp).
  { destruct ypo as [yp|]; [eauto|]. unfold _update_delayed_queue in E5.
    destruct (bX b); discriminate. }
  destruct Hsome as [yp ->]. specialize (Hok4 yp eq_refl).
  unfold call, modify. destruct (ext timer (world s5)) as [[e|tm] w];
    count_close.
Qed.

Lemma loop_body_count (s : State W) :
  let out := loop_body s in
  config (snd out) = config s /\
  actual_max_samples (snd out) = actual_max_samples s /\
  (global_sample_count (snd out) = global_sample_count s \/
   global_sample_count (snd out) = global_sample_count s + batch_size (config s)) /\
  (fst out = inr tt ->
   global_sample_count (snd out) = global_sample_count s + batch_size (config s)).
Proof.
  unfold loop_body, bind.
  pose proof (pull_batch_keeps_counters s) as H1.
  destruct (pull_batch s) as [[e|b] s1];
    unfold same, counters in H1; simpl in H1; injection H1 as Hc1 Hg1 Ha1;
    [count_close|].
  pose proof (process_batch_count b s1) as H2. simpl in H2.
  destruct H2 as (Hc2 & Ha2 & Hg2 & Hok2).
  rewrite Hc1, Hg1 in Hg2, Hok2.
  split; [congruence|]. split; [congruence|]. split; assumption.
Qed.

Lemma loop_guard_spec (s : State W) :
  let out := loop_guard s in
  counters (snd out) = counters s /\
  (fst out = inr true -> global_sample_count s < actual_max_samples s).
Proof.
  unfold loop_guard, bind, gets, call, ret. simpl.
  destruct (ext stream_has_more_samples (world s)) as [[e|more] w]; simpl.
  - split; [reflexivity|]. intros H. discriminate.
  - split; [reflexivity|]. intros H. injection H as H.
    apply andb_prop in H. destruct H as [H _].
    apply andb_prop in H. destruct H as [H _].
    apply Z.ltb_lt. exact H.
Qed.

Lemma while_loop_count (fuel : nat) :
  forall (s : State W) r s',
    while_loop fuel s = Some (r, s') ->
    config s' = config s /\
    actual_max_samples s' = actual_max_samples s /\
    global_sample_count s' <=
      Z.max (global_sample_count s)
            (actual_max_samples s + batch_size (config s) - 1).
Proof.
  induction fuel as [|fuel IH]; intros s r s' H; simpl in H; [discriminate|].
  pose proof (loop_guard_spec s) as Hg. simpl in Hg.
  destruct (loop_guard s) as [[e|[|]] s1]; simpl in Hg;
    destruct Hg as [Hc Hlt]; unfold counters in Hc; injection Hc as Hc Hg Ha.
  - injection H as <- <-. rewrite Hc, Hg, Ha. repeat split; lia.
  - specialize (Hlt eq_refl).
    pose proof (loop_body_count s1) as Hb. simpl in Hb.
    destruct (loop_body s1) as [[e|u] s2]; simpl in Hb;
      destruct Hb as (Hc2 & Ha2 & Hg2 & Hok2).
    + injection H as <- <-. simpl. rewrite Hc2, Ha2, Hc, Ha.
      repeat split; try reflexivity.
      rewrite Hc, Hg in Hg2. lia.
    + apply IH in H. destruct H as (Hc3 & Ha3 & Hg3).
      rewrite Hc3, Ha3, Hc2, Ha2, Hc, Ha. repeat split; try reflexivity.
      assert (Hu : u = tt) by (destruct u; reflexivity). subst u.
      specialize (Hok2 eq_refl).
      rewrite Hc2, Ha2, Hok2, Hc, Hg, Ha in Hg3. lia.
  - injection H as <- <-. rewrite Hc, Hg, Ha. repeat split; lia.
Qed.

Lemma keeps_bind_seq {A B : Type} (R1 R2 R : State W -> State W -> Prop)
      (m : M A) (k : A -> M B) :
  keeps R1 m ->
  (forall a, keeps R2 (k a)) ->
  (forall s1 s2, R1 s1 s2 -> R s1 s2) ->
  (forall s1 s2 s3, R1 s1 s2 -> R2 s2 s3 -> R s1 s3) ->
  keeps R (bind m k).
Proof.
  intros Hm Hk H1 H12 s. unfold bind. specialize (Hm s).
  destruct (m s) as [[e|a] s1]; simpl in *; [apply H1; exact Hm|].
  eapply H12; [exact Hm|apply Hk].
Qed.

Lemma same_then_pretrained (s1 s2 s3 : State W) :
  same config_and_count s1 s2 -> pretrained s2 s3 -> pretrained s1 s3.
Proof.
  unfold same, config_and_count, pretrained. intros H [Hc Hg].
  injection H as Hc' Hg'. rewrite Hc', Hg' in *. split; assumption.
Qed.

Lemma same_is_pretrained (s1 s2 : State W) :
  same config_and_count s1 s2 -> pretrained s1 s2.
Proof.
  unfold same, config_and_count, pretrained. intros H.
  injection H as Hc Hg. split; [exact Hc|left; exact Hg].
Qed.

Lemma pretrained_then_same (s1 s2 s3 : State W) :
  pretrained s1 s2 -> same config_and_count s2 s3 -> pretrained s1 s3.
Proof.
  unfold same, config_and_count, pretrained. intros [Hc Hg] H.
  injection H as Hc' Hg'. rewrite Hc', Hg'. split; assumption.
Qed.

Ltac pretrained_prefix :=
  eapply keeps_bind_seq;
  [ | | exact same_is_pretrained | exact same_then_pretrained ].

Lemma pretrain_count : keeps pretrained pretrain.
Proof.
  unfold pretrain.
  pretrained_prefix; [unfold print; keeps_structure|intros _].
  pretrained_prefix; [keeps_structure|intros p].
  pretrained_prefix; [keeps_structure|intros b].
  pretrained_prefix; [keeps_structure|intros n].
  pretrained_prefix; [unfold pretrain_one; keeps_structure|intros _].
  intro s. unfold bind, gets, modify, lift, _sort_delay_queue, get_delay_queue.
  simpl. unfold pretrained.
  destruct (last_item (b_arrival_time b)); simpl; split; auto.
Qed.

Lemma bind_rel_at {A B : Type} (R1 R2 R : State W -> State W -> Prop)
      (m : M A) (k : A -> M B) (s : State W) :
  R1 s (snd (m s)) ->
  (forall a, keeps R2 (k a)) ->
  (forall s1, R1 s s1 -> R s s1) ->
  (forall s1 s3, R1 s s1 -> R2 s1 s3 -> R s s3) ->
  R s (snd (bind m k s)).
Proof.
  intros Hm Hk H1 H12. unfold bind.
  destruct (m s) as [[e|a] s1]; simpl in *; [apply H1; exact Hm|].
  eapply H12; [exact Hm|apply Hk].
Qed.

Lemma prologue_count : keeps counted_from prologue.
Proof.
  unfold prologue.
  assert (Hsame : forall s1 s2 : State W,
            same config_and_count s1 s2 -> counted_from s1 s2).
  { unfold same, config_and_count, counted_from. intros s1 s2 H.
    injection H as Hc Hg. split; [exact Hc|lia]. }
  assert (Hseq : forall s1 s2 s3 : State W,
            same config_and_count s1 s2 -> counted_from s2 s3 ->
            counted_from s1 s3).
  { unfold same, config_and_count, counted_from. intros s1 s2 s3 H [Hc' Hg'].
    injection H as Hc Hg. rewrite Hc, Hg in *. split; assumption. }
  do 10 (eapply keeps_bind_seq; [| |exact Hsame|exact Hseq];
         [unfold print; keeps_structure|intros ?]).
  intro s. unfold bind at 1, gets at 1. cbn beta iota.
  apply bind_rel_at with (R1 := counted_from) (R2 := same config_and_count).
  - destruct (pretrain_size (config s) >? 0) eqn:E.
    + destruct (pretrain_count s) as [Hc Hg]. split; [exact Hc|].
      rewrite Z.gtb_ltb, Z.ltb_lt in E. lia.
    + simpl. split; [reflexivity|lia].
  - intros _. unfold print. keeps_structure.
  - auto.
  - unfold same, config_and_count, counted_from. intros s1 s3 [Hc Hg] H.
    injection H as Hc' Hg'. rewrite Hc', Hg'. split; assumption.
Qed.

Lemma draining_keeps_counters (fuel : nat) (s : State W) r s' :
  draining fuel s = Some (r, s') -> counters s' = counters s.
Proof.
  intros H. destruct (delay_queue s) as [q|] eqn:Hq.
  - destruct (draining_frame _ _ _ _ _ Hq H) as (_ & Hs & _).
    rewrite Hs. reflexivity.
  - unfold draining, get_delay_queue in H. rewrite Hq in H.
    injection H as <- <-. reflexivity.
Qed.

Lemma epilogue_keeps_counters : keeps (same counters) epilogue.
Proof. unfold epilogue, print. keeps_structure. Qed.

Lemma train_and_test_count (fuel : nat) (s : State W) r s' :
  _train_and_test fuel s = Some (r, s') ->
  config s' = config s /\
  global_sample_count s' <=
    Z.max (global_sample_count s + Z.max 0 (pretrain_size (config s)))
          (actual_max_samples s' + batch_size (config s) - 1).
Proof.
  unfold _train_and_test. intros H.
  destruct (prologue_count s) as [Hc1 Hg1].
  destruct (prologue s) as [[e|u] s1]; simpl in Hc1, Hg1.
  { injection H as <- <-. split; [exact Hc1|lia]. }
  destruct (while_loop fuel s1) as [[[e|u'] s2]|] eqn:E2; [| |discriminate];
    apply while_loop_count in E2; destruct E2 as (Hc2 & Ha2 & Hg2);
    rewrite Hc1 in Hg2.
  { injection H as <- <-. split; [congruence|]. rewrite Ha2. lia. }
  destruct (draining fuel s2) as [[[e|u''] s3]|] eqn:E3; [| |discriminate];
    apply draining_keeps_counters in E3; unfold counters in E3;
    injection E3 as Hc3 Hg3 Ha3.
  { injection H as <- <-. split; [congruence|]. rewrite Hg3, Ha3, Ha2. lia. }
  pose proof (epilogue_keeps_counters s3) as H4.
  unfold same, counters in H4. injection H4 as Hc4 Hg4 Ha4.
  injection H as H.
  assert (Hs' : s' = snd (epilogue s3)) by (rewrite H; reflexivity).
  subst s'. split; [congruence|].
  rewrite Hg4, Ha4, Hg3, Ha3, Ha2. lia.
Qed.

(** C5, as amended.  An iteration of the loop that comes to its end adds
    exactly [batch_size] to [global_sample_count], and so does every
    prediction step that succeeds; an iteration that is cut short adds that
    or nothing.  The loop never takes the count beyond the larger of its
    value at loop entry and [actual_max_samples + batch_size - 1], and over
    the whole run the count stays within the larger of the count at entry
    plus [pretrain_size] and [actual_max_samples + batch_size - 1]. *)
Theorem sample_count_budget :
  (forall (s : State W),
      let out := loop_body s in
      (fst out = inr tt ->
       global_sample_count (snd out) =
       global_sample_count s + batch_size (config s)) /\
      (global_sample_count (snd out) = global_sample_count s \/
       global_sample_count (snd out) =
       global_sample_count s + batch_size (config s)))
  /\ (forall (Xb : list Feat) (s : State W) yp,
         fst (_predict_samples (Some Xb) s) = inr yp ->
         global_sample_count (snd (_predict_samples (Some Xb) s)) =
         global_sample_count s + batch_size (config s))
  /\ (forall fuel (s : State W) r s',
         while_loop fuel s = Some (r, s') ->
         actual_max_samples s' = actual_max_samples s /\
         global_sample_count s' <=
           Z.max (global_sample_count s)
                 (actual_max_samples s + batch_size (config s) - 1))
  /\ (forall fuel (s : State W) r s',
         _train_and_test fuel s = Some (r, s') ->
         global_sample_count s' <=
           Z.max (global_sample_count s + Z.max 0 (pretrain_size (config s)))
                 (actual_max_samples s' + batch_size (config s) - 1)).
Proof.
  split; [|split; [|split]].
  - intros s out. destruct (loop_body_count s) as (_ & _ & Hg & Hok).
    split; assumption.
  - intros Xb s yp H.
    destruct (predict_samples_count (Some Xb) s) as (_ & _ & _ & Hok & Hnone).
    destruct yp as [yp|]; [apply (Hok yp); exact H|].
    specialize (Hnone H). discriminate.
  - intros fuel s r s' H. apply while_loop_count in H.
    destruct H as (_ & Ha & Hg). split; assumption.
  - intros fuel s r s' H. apply train_and_test_count in H.
    destruct H as [_ H]. exact H.
Qed.

(** ** The watermark *)

Lemma sort_nil : sorts_by_available_time sort_values -> sort_values [] = [].
Proof.
  intros H. destruct (H []) as [Hp _].
  apply Permutation_sym, Permutation_nil in Hp. exact Hp.
Qed.

Lemma last_item_app {A : Type} (earlier : list A) (t : A) :
  last_item (earlier ++ [t]) = inr t.
Proof. unfold last_item. rewrite List.rev_app_distr. reflexivity. Qed.

Lemma last_item_inv {A : Type} (l : list A) (t : A) :
  last_item l = inr t -> exists earlier, l = earlier ++ [t].
Proof.
  unfold last_item. destruct (rev l) as [|x r] eqn:E; [discriminate|].
  intros H. injection H as <-. exists (rev r).
  rewrite <- (List.rev_involutive l), E. reflexivity.
Qed.

Lemma last_item_empty {A : Type} (l : list A) (e : Exn) :
  last_item l = inl e -> l = [].
Proof.
  unfold last_item. destruct (rev l) as [|x r] eqn:E; [|discriminate].
  intros _. rewrite <- (List.rev_involutive l), E. reflexivity.
Qed.

Lemma process_batch_keeps_watermark (b : Batch) :
  keeps (same current_timestamp) (process_batch b).
Proof.
  unfold process_batch, _get_delayed_samples, _update_metrics_delayed,
    feed_accumulators, feed_one, update_due, _update_classifiers, fit_one,
    _predict_samples, predict_one, _update_delayed_queue, _sort_delay_queue.
  keeps_structure.
Qed.

(** C6.  When the pre-training block returns, the arrival times of the
    block it pulled end with the value that [current_timestamp] now has,
    and the delay queue is empty.  In an iteration, when the arrival times
    of the pulled batch end with [t], the rest of the iteration (drain,
    metrics, training, prediction, enqueue) runs from a state in which
    [current_timestamp] is already [t] and nothing but the pull has been
    logged; its drain releases the rows that are due at [t], and
    [current_timestamp] is still [t] when the iteration is over. *)
Theorem watermark_assignment :
  sorts_by_available_time sort_values ->
  (forall (s s' : State W),
      pretrain s = (inr tt, s') ->
      exists b w earlier t,
        ext (stream_next_sample (pretrain_size (config s))) (world s) =
          (inr b, w) /\
        b_arrival_time b = earlier ++ [t] /\
        current_timestamp s' = Some t /\
        delay_queue s' = Some [])
  /\ (forall (s : State W) (b : Batch) (w : W) (earlier : list Time) (t : Time),
         ext (stream_next_sample (batch_size (config s))) (world s) = (inr b, w) ->
         b_arrival_time b = earlier ++ [t] ->
         exists s1,
           loop_body s = process_batch b s1 /\
           current_timestamp s1 = Some t /\
           trace s1 = EvCall (stream_next_sample (batch_size (config s))) :: trace s /\
           world s1 = w /\
           delay_queue s1 = delay_queue s /\
           counters s1 = counters s /\
           (forall q, delay_queue s = Some q ->
                      _get_delayed_samples s1 =
                        (drained_columns (released t q),
                         set_delay_queue (Some (retained t q)) s1)) /\
           current_timestamp (snd (loop_body s)) = Some t).
Proof.
  intros Hsort. split.
  - intros s s' H.
    unfold pretrain, bind, print, modify, gets, call in H. simpl in H.
    destruct (ext (stream_next_sample (pretrain_size (config s))) (world s))
      as [[e|b] w] eqn:E; simpl in H; [discriminate|].
    match type of H with
    | context [for_each ?l ?f ?st] => destruct (for_each l f st) as [[e|u] s2]
    end; simpl in H; [discriminate|].
    destruct (last_item (b_arrival_time b)) as [e|t] eqn:Et; simpl in H;
      [discriminate|].
    unfold _sort_delay_queue, bind, get_delay_queue, modify in H. simpl in H.
    injection H as <-.
    destruct (last_item_inv _ _ Et) as [earlier Hearlier].
    exists b, w, earlier, t. simpl.
    rewrite (sort_nil Hsort). repeat split; try reflexivity. exact Hearlier.
  - intros s b w earlier t E Et.
    assert (Hlast : last_item (b_arrival_time b) = inr t)
      by (rewrite Et; apply last_item_app).
    assert (Hbody : loop_body s =
              process_batch b
                (set_current_timestamp (Some t)
                   (set_world w
                      (set_trace (EvCall (stream_next_sample
                                            (batch_size (config s)))
                                    :: trace s) s)))).
    { unfold loop_body, pull_batch, bind, gets, call, modify, lift, ret.
      rewrite E. simpl. rewrite Hlast. reflexivity. }
    eexists. split; [exact Hbody|]. simpl.
    split; [reflexivity|]. split; [reflexivity|]. split; [reflexivity|].
    split; [reflexivity|]. split; [reflexivity|]. split.
    + intros q Hq. apply drain_state; [exact Hq|reflexivity].
    + rewrite Hbody. apply (process_batch_keeps_watermark b).
Qed.

(** ** Rules for [hoare] *)

Lemma hoare_bind {A B : Type} (P : State W -> Prop) (m : M A) (k : A -> M B)
      (Q1 : Exn + A -> State W -> Prop) (Q : Exn + B -> State W -> Prop) :
  hoare P m Q1 ->
  (forall a, hoare (Q1 (inr a)) (k a) Q) ->
  (forall e s, Q1 (inl e) s -> Q (inl e) s) ->
  hoare P (bind m k) Q.
Proof.
  intros Hm Hk He s HP. unfold bind. specialize (Hm s HP).
  destruct (m s) as [[e|a] s1]; simpl in *.
  - apply He. exact Hm.
  - apply Hk. exact Hm.
Qed.

Lemma hoare_weaken {A : Type} (P P' : State W -> Prop) (m : M A)
      (Q Q' : Exn + A -> State W -> Prop) :
  hoare P' m Q' ->
  (forall s, P s -> P' s) ->
  (forall r s, Q' r s -> Q r s) ->
  hoare P m Q.
Proof. intros H HP HQ s Hs. apply HQ, H, HP, Hs. Qed.

Lemma hoare_keeps_same {A B : Type} (f : State W -> B) (m : M A) (v : B) :
  keeps (same f) m ->
  hoare (fun s => f s = v) m (fun _ s' => f s' = v).
Proof. intros H s Hs. rewrite <- Hs. apply H. Qed.

(** ** Python's true division *)





Lemma true_divide_raises (a b : Z) (e : Exn) :
  true_divide a b = inl e ->
  e = ZeroDivisionError /\ b = 0 \/ exists msg, e = OverflowError msg.
Proof.
  unfold true_divide. destruct (b =? 0) eqn:Eb.
  - intros H. injection H as <-. left. apply Z.eqb_eq in Eb.
    split; [reflexivity|exact Eb].
  - destruct (a =? 0); [discriminate|].
    unfold nearest_binary64.
    destruct (0 <=? _); [|discriminate].
    destruct (2 ^ 1024 <=? _); [|discriminate].
    intros H. injection H as <-. right. eexists. reflexivity.
Qed.


(** ** The cadence of the metrics updates *)

Lemma update_due_spec (s : State W) (due : bool) (s' : State W) :
  update_due s = (inr due, s') ->
  s' = s /\ n_wait (config s) <> 0 /\ (due = true <-> update_coded s).
Proof.
  unfold update_due, update_coded, bind, gets, raise, ret.
  cbv beta iota.
  destruct (n_wait (config s) =? 0) eqn:Ew; [discriminate|].
  apply Z.eqb_neq in Ew.
  destruct (global_sample_count s mod n_wait (config s) =? 0) eqn:Em.
  { intros H. injection H as <- <-. apply Z.eqb_eq in Em.
    split; [reflexivity|]. split; [exact Ew|]. split; auto. }
  apply Z.eqb_neq in Em.
  destruct (global_sample_count s >=? max_samples (config s)) eqn:Eg.
  { intros H. injection H as <- <-. rewrite Z.geb_leb, Z.leb_le in Eg.
    split; [reflexivity|]. split; [exact Ew|]. split; auto. }
  rewrite Z.geb_leb, Z.leb_gt in Eg.
  destruct (true_divide (global_sample_count s) (n_wait (config s)))
    as [e|x] eqn:Ed; [discriminate|].
  cbn [lift ret]. intros H. injection H as <- <-.
  split; [reflexivity|]. split; [exact Ew|].
  unfold Qgt_bool. rewrite negb_true_iff.
  split.
  - intros H. right. right. exists x. split; [reflexivity|].
    apply Qnot_le_lt. intros Hle. apply Qle_bool_iff in Hle. congruence.
  - intros [H|[H|(x' & Hx & Hlt)]]; [contradiction|lia|].
    injection Hx as <-.
    apply not_true_is_false. intros Hle. apply Qle_bool_iff in Hle.
    apply Qle_not_lt in Hle. contradiction.
Qed.

(** What the test raises: the two errors of the division. *)
Lemma update_due_raises (s : State W) (e : Exn) (s' : State W) :
  update_due s = (inl e, s') ->
  s' = s /\
  (e = ZeroDivisionError /\ n_wait (config s) = 0 \/
   exists msg, e = OverflowError msg).
Proof.
  unfold update_due, bind, gets, raise, ret. cbv beta iota.
  destruct (n_wait (config s) =? 0) eqn:Ew.
  { intros H. injection H as <- <-. apply Z.eqb_eq in Ew.
    split; [reflexivity|]. left. split; [reflexivity|exact Ew]. }
  destruct (global_sample_count s mod n_wait (config s) =? 0);
    [discriminate|].
  destruct (global_sample_count s >=? max_samples (config s)); [discriminate|].
  destruct (true_divide (global_sample_count s) (n_wait (config s)))
    as [e'|x] eqn:Ed; [|discriminate].
  cbn [lift raise]. intros H. injection H as <- <-.
  split; [reflexivity|].
  apply true_divide_raises in Ed. apply Z.eqb_neq in Ew.
  destruct Ed as [[_ Hz]|Ho]; [contradiction|right; exact Ho].
Qed.


Lemma feed_keeps_cadence_view (yr : list Label) (yp : list (list Label)) (j i : nat) :
  keeps (same cadence_view) (feed_one yr yp j i).
Proof. unfold feed_one. keeps_structure. Qed.




(** ** The context of an iteration *)

(** What [_train_and_test] has set up when the pre-training test is
    reached: the budget is at most [max_samples], and the queue is as the
    caller left it. *)
Lemma prologue_reaches_pretrain_test (s : State W) :
  (exists e s', prologue s = (inl e, s') /\ delay_queue s' = delay_queue s) \/
  exists s0,
    prologue s =
      bind (if pretrain_size (config s) >? 0 then pretrain else ret tt)
           (fun _ => bind (modify (set_update_count 0))
                          (fun _ => print "Evaluating...")) s0 /\
    config s0 = config s /\
    delay_queue s0 = delay_queue s /\
    actual_max_samples s0 <= max_samples (config s0).
Proof.
  unfold prologue, bind, call, print, modify, gets.
  destruct (ext timer (world s)) as [[e|t0] w0]; cbn.
  { left. eexists. eexists. split; reflexivity. }
  destruct (ext timer w0) as [[e|t1] w1]; cbn.
  { left. eexists. eexists. split; reflexivity. }
  destruct (ext stream_n_remaining_samples w1) as [[e|r] w2]; cbn.
  { left. eexists. eexists. split; reflexivity. }
  right. eexists. split; [reflexivity|]. cbn.
  split; [reflexivity|]. split; [reflexivity|].
  destruct ((r =? -1) || (r >? max_samples (config s))) eqn:E; [lia|].
  apply orb_false_elim in E. destruct E as [_ E].
  rewrite Z.gtb_ltb, Z.ltb_ge in E. exact E.
Qed.

Lemma pretrain_keeps_budget :
  keeps (same (fun s : State W => (config s, actual_max_samples s))) pretrain.
Proof.
  unfold pretrain, pretrain_one, _sort_delay_queue, print. keeps_structure.
Qed.

(** After the part before the loop, the budget is at most [max_samples]. *)
Lemma prologue_budget (s s' : State W) :
  prologue s = (inr tt, s') ->
  actual_max_samples s' <= max_samples (config s').
Proof.
  intros H.
  destruct (prologue_reaches_pretrain_test s)
    as [(e & s1 & He & _)|(s0 & Hp & Hc & _ & Hle)].
  { rewrite He in H. discriminate. }
  rewrite Hp in H. clear Hp. unfold bind in H.
  assert (Hk : (config (snd ((if pretrain_size (config s) >? 0
                              then pretrain else ret tt) s0)),
                actual_max_samples (snd ((if pretrain_size (config s) >? 0
                                          then pretrain else ret tt) s0)))
               = (config s0, actual_max_samples s0)).
  { destruct (pretrain_size (config s) >? 0).
    - apply pretrain_keeps_budget.
    - reflexivity. }
  destruct ((if pretrain_size (config s) >? 0 then pretrain else ret tt) s0)
    as [[e|u] s1]; [discriminate|].
  simpl in Hk. injection Hk as Hc1 Ha1.
  unfold modify, print in H. injection H as <-. simpl. rewrite Hc1, Ha1. exact Hle.
Qed.

(** At the point of an iteration where the accumulators are fed, the count
    is below the budget, and the budget is still at most [max_samples]. *)
Lemma running_iteration_context (s s1 s2 s3 : State W) (b : Batch) d :
  actual_max_samples s <= max_samples (config s) ->
  loop_guard s = (inr true, s1) ->
  pull_batch s1 = (inr b, s2) ->
  _get_delayed_samples s2 = (inr d, s3) ->
  global_sample_count s3 < actual_max_samples s3 /\
  actual_max_samples s3 <= max_samples (config s3).
Proof.
  intros Hle Hg Hp Hd.
  pose proof (loop_guard_spec s) as H1. rewrite Hg in H1. simpl in H1.
  destruct H1 as [H1 Hlt]. specialize (Hlt eq_refl).
  pose proof (pull_batch_keeps_counters s1) as H2. rewrite Hp in H2.
  pose proof (drain_keeps_counters s2) as H3. rewrite Hd in H3.
  unfold same in H2, H3. simpl in H2, H3.
  assert (H : counters s3 = counters s) by congruence.
  unfold counters in H. injection H as Hc Hgc Ha.
  rewrite Hc, Hgc, Ha. split; assumption.
Qed.

(** An iteration leaves the budget alone. *)
Lemma loop_body_keeps_budget (s : State W) :
  actual_max_samples s <= max_samples (config s) ->
  actual_max_samples (snd (loop_body s)) <= max_samples (config (snd (loop_body s))).
Proof.
  intros H. destruct (loop_body_count s) as (Hc & Ha & _). rewrite Hc, Ha. exact H.
Qed.


(** ** Exceptions in the loop *)

Lemma call_returns (c : Call) (s : State W) (v : reply c) :
  fst (ext c (world s)) = inr v ->
  call c s = (inr v, set_world (snd (ext c (world s)))
                               (set_trace (EvCall c :: trace s) s)).
Proof.
  unfold call. destruct (ext c (world s)) as [r w]. simpl. intros ->. reflexivity.
Qed.

(** Whatever is raised in the body of the loop is caught there: the loop
    prints it and stops, and returns normally. *)
Lemma loop_catches_every_exception (fuel : nat) (s s1 s2 : State W) (e : Exn) :
  loop_guard s = (inr true, s1) ->
  loop_body s1 = (inl e, s2) ->
  while_loop (S fuel) s = Some (inr tt, print_exn e s2).
Proof. intros Hg Hb. simpl. rewrite Hg, Hb. reflexivity. Qed.

Section BrokenModel.

Variable Xb : list Feat.
Variable i : nat.

Hypothesis timing_returns :
  forall j t w, fst (ext (running_time j t) w) = inr tt.
Hypothesis earlier_models_return_sequences :
  forall j w, (j < i)%nat -> exists l, fst (ext (model_predict j Xb) w) = inr (PredSeq l).
Hypothesis model_returns_no_sequence :
  forall w, fst (ext (model_predict i Xb) w) = inr PredNotIterable.







End BrokenModel.

(** ** Predict before train *)

Lemma grows_refl (D : option (list Row)) (s : State W) : grows D s s.
Proof. unfold grows. split; [reflexivity|]. split; [reflexivity|]. exists []. split; [reflexivity|constructor]. Qed.

Lemma grows_trans (D : option (list Row)) (s1 s2 s3 : State W) :
  grows D s1 s2 -> grows D s2 s3 -> grows D s1 s3.
Proof.
  intros (Hc1 & Hq1 & n1 & Ht1 & Ha1) (Hc2 & Hq2 & n2 & Ht2 & Ha2).
  split; [congruence|]. split; [congruence|].
  exists (n2 ++ n1). split.
  - rewrite Ht2, Ht1. apply List.app_assoc.
  - apply Forall_app. split; assumption.
Qed.

Lemma grows_none_some (rs : list Row) (s s' : State W) :
  grows None s s' -> grows (Some rs) s s'.
Proof.
  intros (Hc & Hq & new & Ht & Ha). split; [exact Hc|]. split; [exact Hq|].
  exists new. split; [exact Ht|].
  eapply List.Forall_impl; [|exact Ha].
  intros e He. destruct e as [c| |]; try exact I.
  destruct c; try exact I. destruct He.
Qed.

Lemma keeps_grows_call (D : option (list Row)) (c : Call) :
  allowed D (EvCall c) -> keeps (grows D) (call c).
Proof.
  intros Ha s. unfold call. destruct (ext c (world s)) as [r w]. simpl.
  split; [reflexivity|]. split; [reflexivity|].
  exists [EvCall c]. split; [reflexivity|]. constructor; [exact Ha|constructor].
Qed.

Lemma keeps_grows_modify (D : option (list Row)) (g : State W -> State W) :
  (forall s, config (g s) = config s) ->
  (forall s, delay_queue (g s) = delay_queue s) ->
  (forall s, trace (g s) = trace s) ->
  keeps (grows D) (modify g).
Proof.
  intros Hc Hq Ht s. simpl. split; [apply Hc|]. split; [apply Hq|].
  exists []. split; [apply Ht|constructor].
Qed.

Lemma keeps_grows_print (D : option (list Row)) (msg : string) :
  keeps (grows D) (print msg).
Proof.
  intro s. simpl. split; [reflexivity|]. split; [reflexivity|].
  exists [EvPrint msg]. split; [reflexivity|]. constructor; [exact I|constructor].
Qed.

Ltac grows_side := first [apply grows_refl | apply grows_trans].

Ltac grows_structure :=
  repeat (intros; first
    [ apply keeps_ret; grows_side
    | apply keeps_raise; grows_side
    | apply keeps_gets; grows_side
    | apply keeps_lift; grows_side
    | apply keeps_get_delay_queue; grows_side
    | apply keeps_get_current_timestamp; grows_side
    | apply keeps_bind; [grows_side|grows_side| |]
    | apply keeps_except; [grows_side|grows_side| |]
    | apply keeps_for_each; [grows_side|grows_side|]
    | apply keeps_collect; [grows_side|grows_side|]
    | apply keeps_grows_print
    | match goal with
      | |- keeps _ (call ?c) =>
          refine (keeps_grows_call _ c _); first [exact I | split; reflexivity]
      end
    | apply keeps_grows_modify; reflexivity
    | match goal with
      | |- keeps _ (if ?b then _ else _) => destruct b
      | |- keeps _ (match ?x with _ => _ end) => destruct x
      end ]).

Lemma pull_batch_grows : keeps (grows None) pull_batch.
Proof. unfold pull_batch. grows_structure. Qed.

Lemma metrics_grow (yr : list Label) (yp : list (list Label)) :
  keeps (grows None) (_update_metrics_delayed yr yp).
Proof.
  unfold _update_metrics_delayed, feed_accumulators, feed_one, update_due.
  grows_structure.
Qed.

Lemma classifiers_grow (rs : list Row) :
  keeps (grows (Some rs)) (_update_classifiers (map rX rs) (map y_real rs)).
Proof. unfold _update_classifiers, fit_one. grows_structure. Qed.

Lemma predict_one_grows (Xb : list Feat) (j : nat) :
  keeps (grows None) (predict_one Xb j).
Proof. unfold predict_one. grows_structure. Qed.

Lemma predict_samples_grow (Xo : option (list Feat)) :
  keeps (grows None) (_predict_samples Xo).
Proof. unfold _predict_samples, predict_one. grows_structure. Qed.

Lemma loop_guard_grows : keeps (grows None) loop_guard.
Proof. unfold loop_guard. grows_structure. Qed.

Lemma predicted_mono (n : nat) (tr new : list Event) (x : Feat) :
  predicted_by_all n tr x -> predicted_by_all n (new ++ tr) x.
Proof.
  intros H j Hj. destruct (H j Hj) as (Xb & Hin & Hx).
  exists Xb. split; [|exact Hx]. apply List.in_or_app. right. exact Hin.
Qed.

Lemma recorded_mono (n : nat) (tr new : list Event) (rs : list Row) :
  Forall (fun r => predicted_by_all n tr (rX r)) rs ->
  Forall (fun r => predicted_by_all n (new ++ tr) (rX r)) rs.
Proof.
  intros H. eapply List.Forall_impl; [|exact H].
  intros r Hr. apply predicted_mono. exact Hr.
Qed.

Lemma fits_justified_extend (n : nat) (base new new' : list Event) (rs : list Row) :
  fits_justified n base new ->
  Forall (allowed (Some rs)) new' ->
  Forall (fun r => predicted_by_all n (new ++ base) (rX r)) rs ->
  fits_justified n base (new' ++ new).
Proof.
  intros Hnew Hall Hrs. induction new' as [|e new' IH]; simpl; [exact Hnew|].
  apply List.Forall_cons_iff in Hall. destruct Hall as [He Hall].
  split; [|apply IH; exact Hall].
  destruct e as [c| |]; try exact I. destruct c; try exact I.
  simpl in He. destruct He as [-> ->]. exists rs.
  split; [reflexivity|]. split; [reflexivity|].
  rewrite <- List.app_assoc. apply recorded_mono. exact Hrs.
Qed.

Lemma no_leak_grows_some (cfg : Config) (base : list Event) (rs : list Row)
      (s s' : State W) :
  no_leak cfg base s ->
  Forall (fun r => predicted_by_all (n_models cfg) (trace s) (rX r)) rs ->
  grows (Some rs) s s' ->
  no_leak cfg base s'.
Proof.
  intros (Hcfg & (new & Ht & Hj) & Hq) Hrs (Hc & Hdq & new' & Ht' & Hall).
  split; [congruence|]. split.
  - exists (new' ++ new). split.
    + rewrite Ht', Ht. apply List.app_assoc.
    + apply fits_justified_extend with (rs := rs); try assumption.
      rewrite <- Ht. exact Hrs.
  - intros q Hq'. rewrite Hdq in Hq'. specialize (Hq q Hq').
    rewrite Hc, Ht'. apply recorded_mono. exact Hq.
Qed.

Lemma no_leak_grows_none (cfg : Config) (base : list Event) (s s' : State W) :
  no_leak cfg base s -> grows None s s' -> no_leak cfg base s'.
Proof.
  intros Hs Hg. apply no_leak_grows_some with (rs := []) (s := s).
  - exact Hs.
  - constructor.
  - apply grows_none_some. exact Hg.
Qed.

Lemma no_leak_set_queue (cfg : Config) (base : list Event) (s : State W)
      (q' : list Row) :
  no_leak cfg base s ->
  Forall (fun r => predicted_by_all (n_models cfg) (trace s) (rX r)) q' ->
  no_leak cfg base (set_delay_queue (Some q') s).
Proof.
  intros (Hcfg & Hnew & Hq) Hq'. split; [exact Hcfg|]. split; [exact Hnew|].
  intros q E. simpl in E. injection E as <-. simpl. rewrite Hcfg. exact Hq'.
Qed.

Lemma zip_rows_in (Xb : list Feat) :
  forall yr yp arr avail r,
    In r (zip_rows Xb yr yp arr avail) -> In (rX r) Xb.
Proof.
  induction Xb as [|x Xb IH]; intros yr yp arr avail r H; simpl in H.
  - destruct H.
  - destruct yr as [|y yr]; [destruct H|].
    destruct yp as [|p yp]; [destruct H|].
    destruct arr as [|a arr]; [destruct H|].
    destruct avail as [|v avail]; [destruct H|].
    destruct H as [<-|H]; [left; reflexivity|].
    right. eapply IH. exact H.
Qed.

Lemma predict_one_logs (Xb : list Feat) (j : nat) (s : State W) l s' :
  predict_one Xb j s = (inr l, s') ->
  In (EvCall (model_predict j Xb)) (trace s').
Proof.
  unfold predict_one, except_TypeError, bind, call, ret, raise, gets.
  destruct (ext (running_time j compute_testing_time_begin) (world s))
    as [[e|u] w]; simpl.
  { destruct e; discriminate. }
  destruct (ext (model_predict j Xb) w) as [[e|out] w1]; simpl.
  { destruct e; discriminate. }
  destruct out as [l'|]; simpl; [|discriminate].
  destruct (ext (running_time j compute_testing_time_end) w1) as [[e|u'] w2]; simpl.
  { destruct e; discriminate. }
  intros H. injection H as _ <-. simpl. right. left. reflexivity.
Qed.

Lemma collect_logs (Xb : list Feat) (l : list nat) :
  forall (s : State W) preds s',
    collect l (predict_one Xb) s = (inr preds, s') ->
    forall j, In j l -> In (EvCall (model_predict j Xb)) (trace s').
Proof.
  induction l as [|k l IH]; intros s preds s' H j Hj; [destruct Hj|].
  simpl in H. unfold bind in H.
  destruct (predict_one Xb k s) as [[e|b] s1] eqn:E1; [discriminate|].
  pose proof (keeps_collect (grows None) (grows_refl None) (grows_trans None)
                l (predict_one Xb) (predict_one_grows Xb) s1) as Hg.
  destruct (collect l (predict_one Xb) s1) as [[e|bs] s2] eqn:E2; [discriminate|].
  unfold ret in H. injection H as _ <-.
  destruct Hj as [<-|Hj].
  - apply predict_one_logs in E1. simpl in Hg.
    destruct Hg as (_ & _ & new & -> & _). apply List.in_or_app. right. exact E1.
  - eapply IH; [exact E2|exact Hj].
Qed.

Lemma predict_samples_logs (Xb : list Feat) (s : State W) yp s' :
  _predict_samples (Some Xb) s = (inr yp, s') ->
  forall j, (j < n_models (config s))%nat ->
            In (EvCall (model_predict j Xb)) (trace s').
Proof.
  unfold _predict_samples, bind, gets, modify, lift. simpl.
  destruct (collect (range (n_models (config s))) (predict_one Xb) s)
    as [[e|prediction] s1] eqn:E; [discriminate|].
  intros H j Hj.
  assert (Hin : In (EvCall (model_predict j Xb)) (trace s1)).
  { eapply collect_logs; [exact E|]. unfold range. apply List.in_seq. lia. }
  destruct (np_T prediction); [discriminate|].
  unfold ret in H. injection H as _ <-. exact Hin.
Qed.

Section NoLeak.

Hypothesis sort_contract : sorts_by_available_time sort_values.

Variable cfg : Config.
Variable base : list Event.

Lemma sort_in (l : list Row) (r : Row) : In r (sort_values l) -> In r l.
Proof using sort_contract.
  destruct (sort_contract l) as [Hp _]. apply Permutation_in. exact Hp.
Qed.

Lemma released_recorded (n : nat) (tr : list Event) (t : Time) (q : list Row) :
  Forall (fun r => predicted_by_all n tr (rX r)) q ->
  Forall (fun r => predicted_by_all n tr (rX r)) (released t q).
Proof.
  intros H. apply List.Forall_forall. intros r Hr.
  apply in_released in Hr. destruct Hr as [Hr _].
  rewrite List.Forall_forall in H. apply H. exact Hr.
Qed.

Lemma retained_recorded (n : nat) (tr : list Event) (t : Time) (q : list Row) :
  Forall (fun r => predicted_by_all n tr (rX r)) q ->
  Forall (fun r => predicted_by_all n tr (rX r)) (retained t q).
Proof.
  intros H. apply List.Forall_forall. intros r Hr.
  apply in_retained in Hr. destruct Hr as [Hr _].
  rewrite List.Forall_forall in H. apply H. exact Hr.
Qed.

(** The enqueue keeps the invariant when every model has predicted the
    batch. *)
Lemma enqueue_no_leak (Xo : option (list Feat)) (arr avail : list Time)
      (yr : list Label) (ypo : option (list (list Label))) (s : State W) :
  no_leak cfg base s ->
  (forall Xb, Xo = Some Xb ->
              forall j, (j < n_models cfg)%nat ->
                        In (EvCall (model_predict j Xb)) (trace s)) ->
  no_leak cfg base (snd (_update_delayed_queue Xo arr avail yr ypo s)).
Proof using sort_contract.
  intros Hs Hpred.
  destruct Xo as [Xb|]; [|exact Hs]. destruct ypo as [yp|]; [|exact Hs].
  destruct (delay_queue s) as [q|] eqn:Hq.
  - rewrite (enqueue_state _ _ _ _ _ _ _ Hq). simpl.
    apply no_leak_set_queue; [exact Hs|].
    apply List.Forall_forall. intros r Hr. apply sort_in in Hr.
    apply List.in_app_or in Hr. destruct Hr as [Hr|Hr].
    + destruct Hs as (Hcfg & _ & Hrec). specialize (Hrec q Hq).
      rewrite List.Forall_forall in Hrec. rewrite <- Hcfg. apply Hrec. exact Hr.
    + apply zip_rows_in in Hr. intros j Hj. exists Xb.
      split; [apply (Hpred Xb eq_refl j Hj)|exact Hr].
  - unfold _update_delayed_queue, bind, get_delay_queue. rewrite Hq. exact Hs.
Qed.

Lemma process_batch_no_leak (b : Batch) (s : State W) :
  no_leak cfg base s -> no_leak cfg base (snd (process_batch b s)).
Proof using sort_contract.
  intros Hs. unfold process_batch, bind.
  (* drain *)
  assert (Hdrain :
    match _get_delayed_samples s with
    | (inl _, s1) => no_leak cfg base s1
    | (inr (Xd, yd, _), s1) =>
        no_leak cfg base s1 /\
        exists rs, Xd = map rX rs /\ yd = map y_real rs /\
                   Forall (fun r => predicted_by_all (n_models cfg) (trace s1) (rX r)) rs
    end).
  { destruct (delay_queue s) as [q|] eqn:Hq.
    2:{ unfold _get_delayed_samples, bind, get_delay_queue. rewrite Hq. exact Hs. }
    destruct (current_timestamp s) as [t|] eqn:Ht.
    2:{ unfold _get_delayed_samples, bind, get_delay_queue, get_current_timestamp.
        rewrite Hq. simpl. rewrite Ht. exact Hs. }
    rewrite (drain_state s q t Hq Ht). unfold drained_columns.
    assert (Hrec : Forall (fun r => predicted_by_all (n_models cfg) (trace s) (rX r)) q).
    { destruct Hs as (Hcfg & _ & Hrec). rewrite <- Hcfg. apply Hrec. exact Hq. }
    assert (Hs1 : no_leak cfg base (set_delay_queue (Some (retained t q)) s)).
    { apply no_leak_set_queue; [exact Hs|]. apply retained_recorded. exact Hrec. }
    destruct (np_T (map y_pred (released t q))) as [e|ypd]; [exact Hs1|].
    split; [exact Hs1|]. exists (released t q).
    split; [reflexivity|]. split; [reflexivity|].
    apply released_recorded. exact Hrec. }
  destruct (_get_delayed_samples s) as [[e|[[Xd yd] ypd]] s1]; [exact Hdrain|].
  destruct Hdrain as (Hs1 & rs & -> & -> & Hrs). cbn beta iota.
  (* metrics *)
  pose proof (metrics_grow (map y_real rs) ypd s1) as H2.
  destruct (_update_metrics_delayed (map y_real rs) ypd s1) as [[e|u2] s2];
    simpl in H2; pose proof (no_leak_grows_none _ _ _ _ Hs1 H2) as Hs2;
    [exact Hs2|].
  assert (Hrs2 : Forall (fun r => predicted_by_all (n_models cfg) (trace s2) (rX r)) rs).
  { destruct H2 as (_ & _ & new & -> & _). apply recorded_mono. exact Hrs. }
  (* training *)
  pose proof (classifiers_grow rs s2) as H3.
  destruct (_update_classifiers (map rX rs) (map y_real rs) s2) as [[e|u3] s3];
    simpl in H3; pose proof (no_leak_grows_some _ _ _ _ _ Hs2 Hrs2 H3) as Hs3;
    [exact Hs3|].
  (* prediction *)
  pose proof (predict_samples_grow (bX b) s3) as H4.
  destruct (_predict_samples (bX b) s3) as [[e|ypo] s4] eqn:E4;
    simpl in H4; pose proof (no_leak_grows_none _ _ _ _ Hs3 H4) as Hs4;
    [exact Hs4|].
  (* enqueue *)
  assert (Hs5 : no_leak cfg base
                  (snd (_update_delayed_queue (bX b) (b_arrival_time b)
                          (b_available_time b) (b_y b) ypo s4))).
  { apply enqueue_no_leak; [exact Hs4|]. intros Xb HX j Hj.
    rewrite HX in E4. eapply predict_samples_logs; [exact E4|].
    destruct Hs3 as (Hc3 & _). rewrite Hc3. exact Hj. }
  destruct (_update_delayed_queue (bX b) (b_arrival_time b) (b_available_time b)
              (b_y b) ypo s4) as [[e|u5] s5]; simpl in Hs5; [exact Hs5|].
  (* clock *)
  assert (H6 : keeps (grows None)
                 (bind (call timer) (fun t => modify (set_end_time t))))
    by grows_structure.
  specialize (H6 s5). unfold bind in H6.
  apply (no_leak_grows_none _ _ _ _ Hs5 H6).
Qed.

Lemma loop_body_no_leak (s : State W) :
  no_leak cfg base s -> no_leak cfg base (snd (loop_body s)).
Proof using sort_contract.
  intros Hs. unfold loop_body, bind.
  pose proof (pull_batch_grows s) as H1.
  destruct (pull_batch s) as [[e|b] s1]; simpl in H1;
    pose proof (no_leak_grows_none _ _ _ _ Hs H1) as Hs1; [exact Hs1|].
  apply process_batch_no_leak. exact Hs1.
Qed.

Lemma print_exn_no_leak (e : Exn) (s : State W) :
  no_leak cfg base s -> no_leak cfg base (print_exn e s).
Proof.
  intros Hs. apply no_leak_grows_none with (s := s); [exact Hs|].
  split; [reflexivity|]. split; [reflexivity|].
  exists [EvPrintExn e]. split; [reflexivity|]. constructor; [exact I|constructor].
Qed.

Lemma while_loop_no_leak (fuel : nat) :
  forall (s : State W) r s',
    no_leak cfg base s ->
    while_loop fuel s = Some (r, s') ->
    no_leak cfg base s'.
Proof using sort_contract.
  induction fuel as [|fuel IH]; intros s r s' Hs H; simpl in H; [discriminate|].
  pose proof (loop_guard_grows s) as Hg.
  destruct (loop_guard s) as [[e|[|]] s1]; simpl in Hg;
    pose proof (no_leak_grows_none _ _ _ _ Hs Hg) as Hs1.
  - injection H as _ <-. exact Hs1.
  - pose proof (loop_body_no_leak s1 Hs1) as Hs2.
    destruct (loop_body s1) as [[e|u] s2]; simpl in Hs2.
    + injection H as _ <-. apply print_exn_no_leak. exact Hs2.
    + eapply IH; [exact Hs2|exact H].
  - injection H as _ <-. exact Hs1.
Qed.

End NoLeak.

(** ** The order of the phases in one iteration *)

Lemma logs_refl (P : Event -> Prop) (s : State W) : logs P s s.
Proof. exists []. split; [reflexivity|constructor]. Qed.

Lemma logs_trans (P : Event -> Prop) (s1 s2 s3 : State W) :
  logs P s1 s2 -> logs P s2 s3 -> logs P s1 s3.
Proof.
  intros (n1 & Ht1 & Ha1) (n2 & Ht2 & Ha2). exists (n2 ++ n1). split.
  - rewrite Ht2, Ht1. apply List.app_assoc.
  - apply Forall_app. split; assumption.
Qed.

Lemma keeps_logs_call (P : Event -> Prop) (c : Call) :
  P (EvCall c) -> keeps (logs P) (call c).
Proof.
  intros HP s. unfold call. destruct (ext c (world s)) as [r w]. simpl.
  exists [EvCall c]. split; [reflexivity|]. constructor; [exact HP|constructor].
Qed.

Lemma keeps_logs_modify (P : Event -> Prop) (g : State W -> State W) :
  (forall s, trace (g s) = trace s) -> keeps (logs P) (modify g).
Proof. intros Ht s. simpl. exists []. split; [apply Ht|constructor]. Qed.

Ltac logs_side := first [apply logs_refl | apply logs_trans].

Ltac logs_structure :=
  repeat (intros; first
    [ apply keeps_ret; logs_side
    | apply keeps_raise; logs_side
    | apply keeps_gets; logs_side
    | apply keeps_lift; logs_side
    | apply keeps_get_delay_queue; logs_side
    | apply keeps_get_current_timestamp; logs_side
    | apply keeps_bind; [logs_side|logs_side| |]
    | apply keeps_except; [logs_side|logs_side| |]
    | apply keeps_for_each; [logs_side|logs_side|]
    | apply keeps_collect; [logs_side|logs_side|]
    | match goal with
      | |- keeps _ (call ?c) =>
          refine (keeps_logs_call _ c _); first [exact I | split; reflexivity]
      end
    | apply keeps_logs_modify; reflexivity
    | match goal with
      | |- keeps _ (if ?b then _ else _) => destruct b
      | |- keeps _ (match ?x with _ => _ end) => destruct x
      end ]).

Lemma metrics_are_calm (yr : list Label) (yp : list (list Label)) :
  keeps (logs calm) (_update_metrics_delayed yr yp).
Proof.
  unfold _update_metrics_delayed, feed_accumulators, feed_one, update_due.
  logs_structure.
Qed.

Lemma classifiers_train_on (rs : list Row) :
  keeps (logs (training rs)) (_update_classifiers (map rX rs) (map y_real rs)).
Proof. unfold _update_classifiers, fit_one. logs_structure. Qed.

Lemma predict_samples_do_not_train (Xo : option (list Feat)) :
  keeps (logs predicting) (_predict_samples Xo).
Proof. unfold _predict_samples, predict_one. logs_structure. Qed.

Lemma enqueue_keeps_trace Xo arr avail yr ypo :
  keeps (same trace) (_update_delayed_queue Xo arr avail yr ypo).
Proof.
  unfold _update_delayed_queue, _sort_delay_queue.
  destruct Xo; [destruct ypo|]; keeps_structure.
Qed.

(** The events of one iteration, newest first: first events without a
    training call (prediction, enqueue, clock), then events without a
    prediction call whose training calls all carry the columns of the rows
    just released, then events with neither (the drain and the metrics). *)
Lemma process_batch_phases (b : Batch) (s : State W) (q : list Row) (t : Time) :
  delay_queue s = Some q ->
  current_timestamp s = Some t ->
  exists after fits before_,
    trace (snd (process_batch b s)) = after ++ fits ++ before_ ++ trace s /\
    Forall predicting after /\
    Forall (training (released t q)) fits /\
    Forall calm before_.
Proof.
  intros Hq Ht. unfold process_batch, bind.
  rewrite (drain_state s q t Hq Ht). unfold drained_columns.
  destruct (np_T (map y_pred (released t q))) as [e|ypd].
  { exists [], [], []. simpl. repeat split; constructor. }
  cbn beta iota. set (s1 := set_delay_queue (Some (retained t q)) s).
  assert (Ht1 : trace s1 = trace s) by reflexivity.
  pose proof (metrics_are_calm (map y_real (released t q)) ypd s1) as H2.
  destruct (_update_metrics_delayed (map y_real (released t q)) ypd s1)
    as [[e|u2] s2]; simpl in H2; destruct H2 as (m & Ht2 & Hm);
    rewrite Ht1 in Ht2.
  { exists [], [], m. simpl. repeat split; try constructor; assumption. }
  pose proof (classifiers_train_on (released t q) s2) as H3.
  destruct (_update_classifiers (map rX (released t q))
              (map y_real (released t q)) s2)
    as [[e|u3] s3]; simpl in H3; destruct H3 as (f & Ht3 & Hf);
    rewrite Ht2 in Ht3.
  { exists [], f, m. simpl. repeat split; try constructor; assumption. }
  pose proof (predict_samples_do_not_train (bX b) s3) as H4.
  destruct (_predict_samples (bX b) s3) as [[e|ypo] s4]; simpl in H4;
    destruct H4 as (p & Ht4 & Hp); rewrite Ht3 in Ht4.
  { exists p, f, m. simpl. repeat split; assumption. }
  pose proof (enqueue_keeps_trace (bX b) (b_arrival_time b) (b_available_time b)
                (b_y b) ypo s4) as H5.
  destruct (_update_delayed_queue (bX b) (b_arrival_time b) (b_available_time b)
              (b_y b) ypo s4) as [[e|u5] s5]; unfold same in H5; simpl in H5;
    rewrite Ht4 in H5.
  { exists p, f, m. simpl. repeat split; assumption. }
  unfold call, modify. destruct (ext timer (world s5)) as [[e|tm] w]; simpl;
    exists (EvCall timer :: p), f, m; rewrite H5;
    (split; [reflexivity|]); (split; [constructor; [exact I|exact Hp]|]);
    split; assumption.
Qed.

Lemma fits_justified_at (n : nat) (base : list Event) (later : list Event) :
  forall new e earlier,
    fits_justified n base new ->
    new = later ++ e :: earlier ->
    fit_justified n (earlier ++ base) e.
Proof.
  induction later as [|x later IH]; intros new e earlier H ->; simpl in H.
  - destruct H as [H _]. exact H.
  - destruct H as [_ H]. eapply IH; [exact H|reflexivity].
Qed.

(** C1.  Start the loop in a state whose queued rows have all been predicted
    by every model (after pre-training the queue is empty).  Then in every
    state the loop can end in, the queued rows have all been predicted by
    every model, and every [partial_fit] call the loop has made was given
    the [X] and [y_real] columns of rows for which, earlier in the trace, each
    of the models had been asked to predict a batch holding the row's
    features.  Within one iteration the training calls carry the columns of
    exactly the rows released from the queue at the iteration's watermark,
    and they all come before the iteration's prediction calls. *)
Theorem no_label_leakage :
  sorts_by_available_time sort_values ->
  (forall fuel (s : State W) r s',
      queue_recorded s ->
      while_loop fuel s = Some (r, s') ->
      queue_recorded s' /\
      exists new,
        trace s' = new ++ trace s /\
        forall later i Xo yd c earlier,
          new = later ++ EvCall (model_partial_fit i Xo yd c) :: earlier ->
          exists rs,
            Xo = Some (map rX rs) /\ yd = map y_real rs /\
            forall r j, In r rs -> (j < n_models (config s))%nat ->
                        exists Xb,
                          In (EvCall (model_predict j Xb)) (earlier ++ trace s) /\
                          In (rX r) Xb)
  /\ (forall (b : Batch) (s : State W) (q : list Row) (t : Time),
         delay_queue s = Some q ->
         current_timestamp s = Some t ->
         exists after fits before_,
           trace (snd (process_batch b s)) = after ++ fits ++ before_ ++ trace s /\
           Forall predicting after /\
           Forall (training (released t q)) fits /\
           Forall calm before_).
Proof.
  intros Hsort. split; [|apply process_batch_phases].
  intros fuel s r s' Hrec H.
  assert (H0 : no_leak (config s) (trace s) s).
  { split; [reflexivity|]. split; [|exact Hrec].
    exists []. split; [reflexivity|exact I]. }
  pose proof (while_loop_no_leak Hsort (config s) (trace s) fuel s r s' H0 H)
    as (Hc & (new & Ht & Hj) & Hq).
  split; [exact Hq|].
  exists new. split; [exact Ht|].
  intros later i Xo yd c earlier Hnew.
  pose proof (fits_justified_at _ _ later new _ earlier Hj Hnew) as Hfit.
  simpl in Hfit. destruct Hfit as (rs & HX & Hy & Hall).
  exists rs. split; [exact HX|]. split; [exact Hy|].
  intros rw j Hin Hlt. rewrite List.Forall_forall in Hall.
  exact (Hall rw Hin j Hlt).
Qed.

(** ** After an exception: the run still ends in order *)

Lemma epilogue_returns (s : State W) :
  (forall w, fst (ext flush_file_buffer w) = inr tt) ->
  (forall w, fst (ext evaluation_summary w) = inr tt) ->
  (forall w, fst (ext stream_restart w) = inr tt) ->
  exists s',
    epilogue s = (inr (model (config s)), s') /\
    trace s' =
      (if restart_stream (config s) then [EvCall stream_restart] else [])
        ++ (if tracks_summary_metric (metrics (config s))
            then EvCall evaluation_summary else EvPrint "Done")
        :: EvCall flush_file_buffer :: trace s.
Proof.
  intros Hflush Hsum Hrestart.
  unfold epilogue, bind, call, gets, print, modify, ret.
  pose proof (Hflush (world s)) as H1.
  destruct (ext flush_file_buffer (world s)) as [r1 w1]. simpl in H1. subst r1.
  cbn.
  destruct (tracks_summary_metric (metrics (config s))); cbn.
  - pose proof (Hsum w1) as H2.
    destruct (ext evaluation_summary w1) as [r2 w2]. simpl in H2. subst r2.
    cbn.
    destruct (restart_stream (config s)); cbn.
    + pose proof (Hrestart w2) as H3.
      destruct (ext stream_restart w2) as [r3 w3]. simpl in H3. subst r3.
      cbn. eexists. split; reflexivity.
    + cbn. eexists. split; reflexivity.
  - destruct (restart_stream (config s)); cbn.
    + pose proof (Hrestart w1) as H3.
      destruct (ext stream_restart w1) as [r3 w3]. simpl in H3. subst r3.
      cbn. eexists. split; reflexivity.
    + cbn. eexists. split; reflexivity.
Qed.

(** When the queue exists, the subscript of the flush is read as a tuple,
    [batch_size] is positive and the three closing calls return, an
    exception in the loop body is followed by the flush of the queue, the
    flush of the file buffer, the summary (or [Done]), the restart of the
    stream if configured, and the return of the models. *)
Lemma graceful_abort_when_queue_exists (fuel : nat) (s s1 s2 : State W)
      (e : Exn) (q : list Row) :
  np_list_index = ReadAsTuple ->
  loop_guard s = (inr true, s1) ->
  loop_body s1 = (inl e, s2) ->
  delay_queue s2 = Some q ->
  0 < batch_size (config s2) ->
  (forall w, fst (ext flush_file_buffer w) = inr tt) ->
  (forall w, fst (ext evaluation_summary w) = inr tt) ->
  (forall w, fst (ext stream_restart w) = inr tt) ->
  exists fuel' s3 s4,
    while_loop (S fuel) s = Some (inr tt, print_exn e s2) /\
    draining fuel' (print_exn e s2) = Some (inr tt, s3) /\
    trace s3 = EvPrintExn e :: trace s2 /\
    epilogue s3 = (inr (model (config s2)), s4) /\
    trace s4 =
      (if restart_stream (config s2) then [EvCall stream_restart] else [])
        ++ (if tracks_summary_metric (metrics (config s2))
            then EvCall evaluation_summary else EvPrint "Done")
        :: EvCall flush_file_buffer :: EvPrintExn e :: trace s2.
Proof.
  intros Hread Hg Hb Hq Hbs Hflush Hsum Hrestart.
  assert (Hq' : delay_queue (print_exn e s2) = Some q) by exact Hq.
  destruct (draining_returns (print_exn e s2) q Hread Hq' Hbs)
    as (fuel' & s3 & Hd).
  destruct (draining_frame _ _ _ _ _ Hq' Hd) as (Htr & Hs3 & _).
  assert (Hc3 : config s3 = config s2) by (rewrite Hs3; reflexivity).
  destruct (epilogue_returns s3 Hflush Hsum Hrestart) as (s4 & He & Ht4).
  rewrite Hc3 in He, Ht4. rewrite Htr in Ht4.
  exists fuel', s3, s4.
  split; [eapply loop_catches_every_exception; eassumption|].
  split; [exact Hd|]. split; [exact Htr|]. split; [exact He|exact Ht4].
Qed.

(** * Further properties of the code *)

(** ** The order of the delay queue *)

Lemma zip_rows_length (Xb : list Feat) :
  forall yr yp arr avail,
    length (zip_rows Xb yr yp arr avail) = zipped_length Xb yr yp arr avail.
Proof.
  unfold zipped_length.
  induction Xb as [|x Xb IH]; intros yr yp arr avail; [reflexivity|].
  destruct yr as [|y yr]; [reflexivity|].
  destruct yp as [|p yp]; [reflexivity|].
  destruct arr as [|a arr]; [simpl; lia|].
  destruct avail as [|v avail]; [simpl; lia|].
  simpl. rewrite IH. reflexivity.
Qed.

Lemma filter_sorted (p : Row -> bool) (q : list Row) :
  by_available_time q -> by_available_time (List.filter p q).
Proof.
  unfold by_available_time. induction q as [|r q IH]; intros H; simpl.
  - constructor.
  - apply StronglySorted_inv in H. destruct H as [Hq Hr].
    destruct (p r); [|apply IH; exact Hq].
    constructor; [apply IH; exact Hq|].
    apply List.Forall_forall. intros x Hx. apply List.filter_In in Hx.
    rewrite List.Forall_forall in Hr. apply Hr. apply Hx.
Qed.

Lemma all_later_released (t : Time) (q : list Row) :
  (forall r, In r q -> available_time r > t) ->
  released t q = [] /\ retained t q = q.
Proof.
  intros H. split; [apply released_nil; exact H|].
  unfold retained. induction q as [|r q IH]; [reflexivity|]. simpl.
  assert (Hr : (available_time r >? t) = true).
  { rewrite Z.gtb_ltb, Z.ltb_lt. specialize (H r (or_introl eq_refl)). lia. }
  rewrite Hr. f_equal. apply IH. intros x Hx. apply H. right. exact Hx.
Qed.

Lemma sorted_queue_splits (t : Time) (q : list Row) :
  by_available_time q -> released t q ++ retained t q = q.
Proof.
  unfold by_available_time. induction q as [|r q IH]; intros H; [reflexivity|].
  apply StronglySorted_inv in H. destruct H as [Hq Hr].
  destruct (Z_le_gt_dec (available_time r) t) as [Hle|Hgt].
  - unfold released, retained in *. simpl.
    assert (E1 : (available_time r <=? t) = true) by (apply Z.leb_le; exact Hle).
    assert (E2 : (available_time r >? t) = false)
      by (rewrite Z.gtb_ltb; apply Z.ltb_ge; exact Hle).
    rewrite E1, E2. simpl. f_equal. apply IH. exact Hq.
  - destruct (all_later_released t (r :: q)) as [E1 E2].
    + intros x [<-|Hx]; [exact Hgt|].
      rewrite List.Forall_forall in Hr. specialize (Hr x Hx). lia.
    + rewrite E1, E2. reflexivity.
Qed.

(** X3.  The enqueue, given a queue and the five columns of a batch, always
    returns; the new queue holds the old rows and one row for each position
    up to the shortest column (the rest of longer columns is dropped), it is
    in non-decreasing order of [available_time], and no other attribute has
    changed. *)
Theorem enqueue_sorts_queue :
  sorts_by_available_time sort_values ->
  forall (s : State W) (q : list Row) (Xb : list Feat) (arr avail : list Time)
         (yr : list Label) (yp : list (list Label)),
    delay_queue s = Some q ->
    exists q',
      _update_delayed_queue (Some Xb) arr avail yr (Some yp) s =
        (inr tt, set_delay_queue (Some q') s) /\
      Permutation q' (q ++ zip_rows Xb yr yp arr avail) /\
      by_available_time q' /\
      length q' = (length q + zipped_length Xb yr yp arr avail)%nat.
Proof.
  intros Hsort s q Xb arr avail yr yp Hq.
  exists (sort_values (q ++ zip_rows Xb yr yp arr avail)).
  destruct (Hsort (q ++ zip_rows Xb yr yp arr avail)) as [Hp Hs].
  split; [apply enqueue_state; exact Hq|]. split; [exact Hp|]. split; [exact Hs|].
  rewrite (Permutation_length Hp), List.length_app, zip_rows_length. reflexivity.
Qed.

(** X4.  From a queue in non-decreasing order of [available_time] the drain
    takes a front part: the queue is the released rows followed by the rows
    that stay, both parts are still in order, and what is handed back are the
    columns of that front part. *)
Theorem drain_takes_prefix (s : State W) (q : list Row) (t : Time) :
  delay_queue s = Some q ->
  current_timestamp s = Some t ->
  by_available_time q ->
  let k := length (released t q) in
  _get_delayed_samples s =
    (drained_columns (firstn k q), set_delay_queue (Some (skipn k q)) s) /\
  q = released t q ++ retained t q /\
  by_available_time (firstn k q) /\
  by_available_time (skipn k q).
Proof.
  intros Hq Ht Hs k.
  pose proof (sorted_queue_splits t q Hs) as Hsplit.
  assert (Hf : firstn k q = released t q).
  { subst k. rewrite <- Hsplit at 2. apply take_app_length. }
  assert (Hk : skipn k q = retained t q).
  { subst k. rewrite <- Hsplit at 2. apply drop_app_length. }
  rewrite Hf, Hk. split; [apply drain_state; assumption|].
  split; [symmetry; exact Hsplit|].
  split; apply filter_sorted; exact Hs.
Qed.

Lemma queue_sorted_same (s s' : State W) :
  queue_sorted s -> same delay_queue s s' -> queue_sorted s'.
Proof. intros Hs E q Hq. apply Hs. rewrite <- E. exact Hq. Qed.

Lemma queue_sorted_set (q' : list Row) (s : State W) :
  by_available_time q' -> queue_sorted (set_delay_queue (Some q') s).
Proof. intros H q E. simpl in E. injection E as <-. exact H. Qed.

Lemma pull_batch_keeps_queue : keeps (same delay_queue) pull_batch.
Proof. unfold pull_batch. keeps_structure. Qed.

Lemma metrics_keep_queue (yr : list Label) (yp : list (list Label)) :
  keeps (same delay_queue) (_update_metrics_delayed yr yp).
Proof.
  unfold _update_metrics_delayed, feed_accumulators, feed_one, update_due.
  keeps_structure.
Qed.

Lemma classifiers_keep_queue (Xd : list Feat) (yd : list Label) :
  keeps (same delay_queue) (_update_classifiers Xd yd).
Proof. unfold _update_classifiers, fit_one. keeps_structure. Qed.

Lemma predict_samples_keep_queue (Xo : option (list Feat)) :
  keeps (same delay_queue) (_predict_samples Xo).
Proof. unfold _predict_samples, predict_one. keeps_structure. Qed.

Lemma loop_guard_keeps_queue : keeps (same delay_queue) loop_guard.
Proof. unfold loop_guard. keeps_structure. Qed.

Lemma drain_queue_sorted (s : State W) :
  queue_sorted s -> queue_sorted (snd (_get_delayed_samples s)).
Proof.
  intros Hs.
  destruct (delay_queue s) as [q|] eqn:Hq.
  2:{ unfold _get_delayed_samples, bind, get_delay_queue. rewrite Hq. exact Hs. }
  destruct (current_timestamp s) as [t|] eqn:Ht.
  2:{ unfold _get_delayed_samples, bind, get_delay_queue, get_current_timestamp.
      rewrite Hq. simpl. rewrite Ht. exact Hs. }
  rewrite (drain_state s q t Hq Ht). simpl.
  apply queue_sorted_set. apply filter_sorted. apply Hs. exact Hq.
Qed.

Section SortedQueue.

Hypothesis sort_contract : sorts_by_available_time sort_values.

Lemma enqueue_queue_sorted Xo arr avail yr ypo (s : State W) :
  queue_sorted s ->
  queue_sorted (snd (_update_delayed_queue Xo arr avail yr ypo s)).
Proof using sort_contract.
  intros Hs.
  destruct Xo as [Xb|]; [|exact Hs]. destruct ypo as [yp|]; [|exact Hs].
  destruct (delay_queue s) as [q|] eqn:Hq.
  - rewrite (enqueue_state _ _ _ _ _ _ _ Hq). simpl.
    apply queue_sorted_set. apply sort_contract.
  - unfold _update_delayed_queue, bind, get_delay_queue. rewrite Hq. exact Hs.
Qed.

Lemma process_batch_queue_sorted (b : Batch) (s : State W) :
  queue_sorted s -> queue_sorted (snd (process_batch b s)).
Proof using sort_contract.
  intros Hs. unfold process_batch, bind.
  pose proof (drain_queue_sorted s Hs) as Hs1.
  destruct (_get_delayed_samples s) as [[e|[[Xd yd] ypd]] s1]; simpl in Hs1;
    [exact Hs1|].
  pose proof (metrics_keep_queue yd ypd s1) as H2.
  destruct (_update_metrics_delayed yd ypd s1) as [[e|u2] s2]; simpl in H2;
    pose proof (queue_sorted_same _ _ Hs1 H2) as Hs2; [exact Hs2|].
  pose proof (classifiers_keep_queue Xd yd s2) as H3.
  destruct (_update_classifiers Xd yd s2) as [[e|u3] s3]; simpl in H3;
    pose proof (queue_sorted_same _ _ Hs2 H3) as Hs3; [exact Hs3|].
  pose proof (predict_samples_keep_queue (bX b) s3) as H4.
  destruct (_predict_samples (bX b) s3) as [[e|ypo] s4]; simpl in H4;
    pose proof (queue_sorted_same _ _ Hs3 H4) as Hs4; [exact Hs4|].
  pose proof (enqueue_queue_sorted (bX b) (b_arrival_time b) (b_available_time b)
                (b_y b) ypo s4 Hs4) as Hs5.
  destruct (_update_delayed_queue (bX b) (b_arrival_time b) (b_available_time b)
              (b_y b) ypo s4) as [[e|u5] s5]; simpl in Hs5; [exact Hs5|].
  assert (H6 : keeps (same delay_queue)
                 (bind (call timer) (fun t => modify (set_end_time t))))
    by keeps_structure.
  specialize (H6 s5). unfold bind in H6.
  apply (queue_sorted_same _ _ Hs5 H6).
Qed.

Lemma loop_body_queue_sorted (s : State W) :
  queue_sorted s -> queue_sorted (snd (loop_body s)).
Proof using sort_contract.
  intros Hs. unfold loop_body, bind.
  pose proof (pull_batch_keeps_queue s) as H1.
  destruct (pull_batch s) as [[e|b] s1]; simpl in H1;
    pose proof (queue_sorted_same _ _ Hs H1) as Hs1; [exact Hs1|].
  apply process_batch_queue_sorted. exact Hs1.
Qed.

Lemma while_loop_queue_sorted (fuel : nat) :
  forall (s : State W) r s',
    queue_sorted s -> while_loop fuel s = Some (r, s') -> queue_sorted s'.
Proof using sort_contract.
  induction fuel as [|fuel IH]; intros s r s' Hs H; simpl in H; [discriminate|].
  pose proof (loop_guard_keeps_queue s) as Hg.
  destruct (loop_guard s) as [[e|[|]] s1]; simpl in Hg;
    pose proof (queue_sorted_same _ _ Hs Hg) as Hs1.
  - injection H as _ <-. exact Hs1.
  - pose proof (loop_body_queue_sorted s1 Hs1) as Hs2.
    destruct (loop_body s1) as [[e|u] s2]; simpl in Hs2.
    + injection H as _ <-. exact Hs2.
    + eapply IH; [exact Hs2|exact H].
  - injection H as _ <-. exact Hs1.
Qed.

End SortedQueue.

(** X5.  The delay queue is kept in non-decreasing order of
    [available_time]: the pre-training block leaves an empty queue, and an
    iteration of the loop, and so the loop as a whole, takes a state with a
    queue in order (or without a queue) to one with a queue in order,
    however the iteration ends. *)
Theorem queue_stays_sorted :
  sorts_by_available_time sort_values ->
  (forall (s s' : State W), pretrain s = (inr tt, s') -> queue_sorted s')
  /\ (forall (s : State W), queue_sorted s -> queue_sorted (snd (loop_body s)))
  /\ (forall fuel (s : State W) r s',
         queue_sorted s -> while_loop fuel s = Some (r, s') -> queue_sorted s').
Proof.
  intros Hsort. split; [|split].
  - intros s s' H.
    unfold pretrain, bind, print, modify, gets, call in H. simpl in H.
    destruct (ext (stream_next_sample (pretrain_size (config s))) (world s))
      as [[e|b] w]; simpl in H; [discriminate|].
    match type of H with
    | context [for_each ?l ?f ?st] => destruct (for_each l f st) as [[e|u] s2]
    end; simpl in H; [discriminate|].
    destruct (last_item (b_arrival_time b)) as [e|t]; simpl in H;
      [discriminate|].
    unfold _sort_delay_queue, bind, get_delay_queue, modify in H. simpl in H.
    injection H as <-. apply queue_sorted_set. apply Hsort.
  - apply loop_body_queue_sorted. exact Hsort.
  - intros fuel. apply while_loop_queue_sorted. exact Hsort.
Qed.

(** ** Termination *)

Lemma while_loop_more_fuel (fuel : nat) :
  forall fuel' (s : State W) out,
    while_loop fuel s = Some out -> (fuel <= fuel')%nat ->
    while_loop fuel' s = Some out.
Proof.
  induction fuel as [|fuel IH]; intros fuel' s out H Hle; simpl in H;
    [discriminate|].
  destruct fuel' as [|fuel']; [lia|]. simpl.
  destruct (loop_guard s) as [[e|[|]] s1]; try exact H.
  destruct (loop_body s1) as [[e|u] s2]; [exact H|].
  apply IH; [exact H|lia].
Qed.

Lemma drop_chunks_more_fuel (fuel : nat) :
  forall fuel' (s : State W) out,
    drop_chunks fuel s = Some out -> (fuel <= fuel')%nat ->
    drop_chunks fuel' s = Some out.
Proof.
  induction fuel as [|fuel IH]; intros fuel' s out H Hle; simpl in H;
    [discriminate|].
  destruct fuel' as [|fuel']; [lia|]. simpl.
  destruct (get_delay_queue s) as [[e|q] s1]; [exact H|].
  destruct ((Z.of_nat (length q) >? 0)
            && (Z.of_nat (length q) - batch_size (config s1) >? 0));
    [|exact H].
  destruct (drop_leading (batch_size (config s1)) q) as [e|q']; [exact H|].
  apply IH; [exact H|lia].
Qed.

Lemma draining_more_fuel (fuel fuel' : nat) (s : State W) out :
  draining fuel s = Some out -> (fuel <= fuel')%nat ->
  draining fuel' s = Some out.
Proof.
  unfold draining. intros H Hle.
  destruct (get_delay_queue s) as [[e|q] s1]; [exact H|].
  destruct (0 <? length q)%nat; [|exact H].
  destruct (_sort_delay_queue s1) as [[e|u] s2]; [exact H|].
  apply drop_chunks_more_fuel with (fuel := fuel); assumption.
Qed.

Lemma while_loop_ends (fuel : nat) :
  forall (s : State W),
    0 < batch_size (config s) ->
    (Z.to_nat (actual_max_samples s - global_sample_count s) < fuel)%nat ->
    exists out, while_loop fuel s = Some out.
Proof.
  induction fuel as [|fuel IH]; intros s Hbs Hf; [lia|]. simpl.
  pose proof (loop_guard_spec s) as Hg. simpl in Hg.
  destruct (loop_guard s) as [[e|[|]] s1]; simpl in Hg;
    destruct Hg as [Hc Hlt]; unfold counters in Hc; injection Hc as Hc Hg Ha;
    [eexists; reflexivity| |eexists; reflexivity].
  specialize (Hlt eq_refl).
  pose proof (loop_body_count s1) as Hb. simpl in Hb.
  destruct (loop_body s1) as [[e|u] s2]; simpl in Hb;
    destruct Hb as (Hc2 & Ha2 & Hg2 & Hok2); [eexists; reflexivity|].
  assert (Hu : u = tt) by (destruct u; reflexivity). subst u.
  specialize (Hok2 eq_refl).
  apply IH.
  - rewrite Hc2, Hc. exact Hbs.
  - rewrite Ha2, Hok2, Hc, Hg, Ha. lia.
Qed.

(** X6.  With a positive [batch_size] a run comes to an end, by returning or
    by raising: the loop makes at most
    [actual_max_samples - global_sample_count] iterations from the state in
    which it starts (every iteration that is not the last one counts
    [batch_size >= 1] samples), and the flush after it ends as well. *)
Theorem run_terminates (s : State W) :
  0 < batch_size (config s) ->
  (forall s1 fuel,
      prologue s = (inr tt, s1) ->
      (Z.to_nat (actual_max_samples s1 - global_sample_count s1) < fuel)%nat ->
      exists out, while_loop fuel s1 = Some out)
  /\ exists fuel out, _train_and_test fuel s = Some out.
Proof.
  intros Hbs.
  assert (Hcfg : config (snd (prologue s)) = config s)
    by apply (prologue_count s).
  split.
  - intros s1 fuel Hp Hf. rewrite Hp in Hcfg. simpl in Hcfg.
    apply while_loop_ends; [rewrite Hcfg; exact Hbs|exact Hf].
  - unfold _train_and_test.
    destruct (prologue s) as [[e|u] s1]; simpl in Hcfg;
      [exists 0%nat; eexists; reflexivity|].
    set (n := S (Z.to_nat (actual_max_samples s1 - global_sample_count s1))).
    destruct (while_loop_ends n s1) as [[r s2] Hw];
      [rewrite Hcfg; exact Hbs|subst n; lia|].
    destruct r as [e|u2].
    { exists n. rewrite Hw. eexists. reflexivity. }
    assert (Hc2 : config s2 = config s1) by apply (while_loop_count _ _ _ _ Hw).
    destruct (draining_ends s2) as (m & [r3 s3] & Hd);
      [rewrite Hc2, Hcfg; exact Hbs|].
    exists (Nat.max n m).
    rewrite (while_loop_more_fuel n (Nat.max n m) s1 _ Hw) by lia.
    rewrite (draining_more_fuel m (Nat.max n m) s2 _ Hd) by lia.
    destruct r3; eexists; reflexivity.
Qed.

(** ** What the flush leaves *)

Lemma sorted_app_le (l1 l2 : list Row) :
  by_available_time (l1 ++ l2) ->
  forall x y, In x l1 -> In y l2 -> available_time x <= available_time y.
Proof.
  unfold by_available_time. induction l1 as [|a l1 IH]; intros H x y Hx Hy;
    [destruct Hx|].
  simpl in H. apply StronglySorted_inv in H. destruct H as [Hs Ha].
  destruct Hx as [<-|Hx].
  - rewrite List.Forall_forall in Ha. apply Ha. apply List.in_or_app.
    right. exact Hy.
  - apply IH; assumption.
Qed.

Lemma drop_chunks_remainder (n : nat) :
  np_list_index = ReadAsTuple ->
  forall (s : State W) (q : list Row),
    delay_queue s = Some q ->
    (length q <= n)%nat ->
    q <> [] ->
    0 < batch_size (config s) ->
    exists k,
      drop_chunks (S n) s =
        Some (inr tt,
              set_delay_queue
                (Some (skipn (k * Z.to_nat (batch_size (config s))) q)) s) /\
      (k * Z.to_nat (batch_size (config s)) < length q)%nat /\
      (length q <= S k * Z.to_nat (batch_size (config s)))%nat.
Proof.
  intros Hread. induction n as [|n IH]; intros s q Hq Hn Hne Hbs.
  { destruct q; [congruence|simpl in Hn; lia]. }
  rewrite (drop_chunks_step (S n) s q Hq).
  destruct ((Z.of_nat (length q) >? 0)
            && (Z.of_nat (length q) - batch_size (config s) >? 0)) eqn:E.
  - unfold drop_leading. rewrite Hread.
    apply andb_prop in E. destruct E as [E1 E2].
    rewrite Z.gtb_ltb, Z.ltb_lt in E1, E2.
    set (b := Z.to_nat (batch_size (config s))).
    assert (Hb : (0 < b < length q)%nat) by (subst b; lia).
    destruct (IH (set_delay_queue (Some (skipn b q)) s) (skipn b q))
      as (k & Hk & Hlo & Hhi).
    + reflexivity.
    + rewrite List.length_skipn. lia.
    + intros E. apply (f_equal (@length Row)) in E.
      rewrite List.length_skipn in E. simpl in E. lia.
    + exact Hbs.
    + exists (S k). rewrite Hk. simpl config. fold b.
      rewrite List.length_skipn in Hlo, Hhi. simpl config in Hlo, Hhi.
      fold b in Hlo, Hhi.
      split; [|simpl; lia].
      rewrite List.skipn_skipn.
      replace (k * b + b)%nat with (S k * b)%nat by (simpl; lia).
      destruct s; reflexivity.
  - exists 0%nat.
    change (skipn (0 * Z.to_nat (batch_size (config s))) q) with q.
    rewrite (set_delay_queue_same s q Hq).
    split; [reflexivity|].
    apply andb_false_iff in E.
    assert (Hl : (0 < length q)%nat) by (destruct q; [congruence|simpl; lia]).
    rewrite !Z.gtb_ltb, !Z.ltb_ge in E. lia.
Qed.

(** X7.  The flush after the loop, started with a queue that is not empty
    and a positive [batch_size], re-sorts the queue and changes nothing else
    in the state.  When NumPy reads the subscript of its [drop] as a tuple,
    it then drops whole chunks of [batch_size] rows from the front and
    returns with between one and [batch_size] rows left: the rows with the
    latest [available_time], which are never evaluated.  When NumPy reads
    the subscript as an array, nothing is dropped: a queue of at most
    [batch_size] rows is left as sorted, and with a longer queue the first
    [drop] raises [KeyError]. *)
Theorem flush_leaves_last_rows (s : State W) (q : list Row) :
  sorts_by_available_time sort_values ->
  delay_queue s = Some q ->
  q <> [] ->
  0 < batch_size (config s) ->
  (np_list_index = ReadAsTuple ->
   exists fuel dropped rest,
     draining fuel s = Some (inr tt, set_delay_queue (Some rest) s) /\
     sort_values q = dropped ++ rest /\
     (exists k, length dropped = (k * Z.to_nat (batch_size (config s)))%nat) /\
     (1 <= length rest <= Z.to_nat (batch_size (config s)))%nat /\
     (forall x y, In x dropped -> In y rest ->
                  available_time x <= available_time y))
  /\ (np_list_index = ReadAsArray ->
      draining 1 s =
        Some (if Z.of_nat (length q) <=? batch_size (config s)
              then inr tt
              else inl (KeyError "not found in axis"),
              set_delay_queue (Some (sort_values q)) s)).
Proof.
  intros Hsort Hq Hne Hbs.
  destruct (Hsort q) as [Hperm Hsorted].
  assert (Hlen : length (sort_values q) = length q)
    by (apply Permutation_length; exact Hperm).
  assert (Hpos : (0 <? length q)%nat = true).
  { apply Nat.ltb_lt. destruct q; [congruence|simpl; lia]. }
  split.
  - intros Hread.
    assert (Hne' : sort_values q <> []).
    { intros E. rewrite E in Hlen. destruct q; [congruence|discriminate]. }
    destruct (drop_chunks_remainder (length (sort_values q)) Hread
                (set_delay_queue (Some (sort_values q)) s) (sort_values q))
      as (k & Hk & Hlo & Hhi); [reflexivity|lia|exact Hne'|exact Hbs|].
    simpl config in Hk, Hlo, Hhi.
    set (b := Z.to_nat (batch_size (config s))) in *.
    exists (S (length (sort_values q))), (firstn (k * b) (sort_values q)),
      (skipn (k * b) (sort_values q)).
    split.
    { unfold draining, get_delay_queue. rewrite Hq, Hpos.
      unfold _sort_delay_queue, bind, get_delay_queue, modify. rewrite Hq.
      rewrite Hk. destruct s; reflexivity. }
    split; [symmetry; apply List.firstn_skipn|].
    split; [exists k; rewrite List.length_firstn; lia|].
    split; [rewrite List.length_skipn; simpl in Hhi; lia|].
    apply sorted_app_le. rewrite List.firstn_skipn. exact Hsorted.
  - intros Hread.
    unfold draining, get_delay_queue. rewrite Hq, Hpos.
    unfold _sort_delay_queue, bind, get_delay_queue, modify. rewrite Hq.
    rewrite (drop_chunks_step 0 _ (sort_values q)) by reflexivity.
    simpl config. rewrite Hlen.
    assert (Hn : (Z.of_nat (length q) >? 0) = true).
    { rewrite Z.gtb_ltb. apply Z.ltb_lt. apply Nat.ltb_lt in Hpos. lia. }
    rewrite Hn. cbn [andb].
    unfold drop_leading. rewrite Hread.
    destruct (Z.of_nat (length q) <=? batch_size (config s)) eqn:E.
    + apply Z.leb_le in E.
      assert (E2 : (Z.of_nat (length q) - batch_size (config s) >? 0) = false).
      { rewrite Z.gtb_ltb. apply Z.ltb_ge. lia. }
      rewrite E2. reflexivity.
    + apply Z.leb_gt in E.
      assert (E2 : (Z.of_nat (length q) - batch_size (config s) >? 0) = true).
      { rewrite Z.gtb_ltb. apply Z.ltb_lt. lia. }
      rewrite E2. reflexivity.
Qed.

(** ** One iteration and the rows of the queue *)

Lemma released_retained_permutation (t : Time) (q : list Row) :
  Permutation (released t q ++ retained t q) q.
Proof.
  unfold released, retained. induction q as [|r q IH]; [constructor|]. simpl.
  rewrite Z.gtb_ltb, Z.ltb_antisym.
  destruct (available_time r <=? t); simpl.
  - constructor. exact IH.
  - apply Permutation_sym, Permutation_cons_app, Permutation_sym. exact IH.
Qed.

Lemma np_T_nil : np_T [] = inr [].
Proof. reflexivity. Qed.

(** X8.  An iteration that returns neither loses nor duplicates a row: the
    batch had features, the rows released at the watermark together with the
    new queue are the old queue and one row for each zipped position of the
    batch, whose predictions are the matrix that [_predict_samples] returned
    for the features of the batch. *)
Theorem iteration_conserves_rows (b : Batch) (s s' : State W)
        (q : list Row) (t : Time) :
  sorts_by_available_time sort_values ->
  delay_queue s = Some q ->
  current_timestamp s = Some t ->
  process_batch b s = (inr tt, s') ->
  exists Xb yp q' s3 s4,
    bX b = Some Xb /\
    _predict_samples (Some Xb) s3 = (inr (Some yp), s4) /\
    delay_queue s' = Some q' /\
    Permutation (released t q ++ q')
                (q ++ zip_rows Xb (b_y b) yp (b_arrival_time b)
                        (b_available_time b)).
Proof.
  intros Hsort Hq Ht H. unfold process_batch, bind in H.
  rewrite (drain_state s q t Hq Ht) in H. unfold drained_columns in H.
  destruct (np_T (map y_pred (released t q))) as [e|ypd]; [discriminate|].
  cbv beta iota in H.
  set (s1 := set_delay_queue (Some (retained t q)) s) in H.
  assert (Hq1 : delay_queue s1 = Some (retained t q)) by reflexivity.
  pose proof (metrics_keep_queue (map y_real (released t q)) ypd s1) as H2.
  destruct (_update_metrics_delayed (map y_real (released t q)) ypd s1)
    as [[e|u2] s2]; [discriminate|]. unfold same in H2. simpl in H2.
  pose proof (classifiers_keep_queue (map rX (released t q))
                (map y_real (released t q)) s2) as H3.
  destruct (_update_classifiers (map rX (released t q))
              (map y_real (released t q)) s2) as [[e|u3] s3];
    [discriminate|]. unfold same in H3. simpl in H3.
  pose proof (predict_samples_keep_queue (bX b) s3) as H4.
  destruct (_predict_samples (bX b) s3) as [[e|ypo] s4] eqn:E4;
    [discriminate|]. unfold same in H4. simpl in H4.
  assert (Hq4 : delay_queue s4 = Some (retained t q)) by congruence.
  destruct (bX b) as [Xb|] eqn:EX; [|discriminate].
  destruct ypo as [yp|]; [|discriminate].
  rewrite (enqueue_state s4 (retained t q) Xb (b_y b) yp (b_arrival_time b)
             (b_available_time b) Hq4) in H.
  unfold call, modify in H.
  destruct (ext timer (world _)) as [[e|tm] w] in H; [discriminate|].
  injection H as <-.
  exists Xb, yp,
    (sort_values (retained t q ++ zip_rows Xb (b_y b) yp (b_arrival_time b)
                                     (b_available_time b))), s3, s4.
  split; [reflexivity|]. split; [exact E4|]. split; [reflexivity|].
  destruct (Hsort (retained t q ++ zip_rows Xb (b_y b) yp (b_arrival_time b)
                                      (b_available_time b))) as [Hp _].
  rewrite Hp, List.app_assoc.
  apply Permutation_app_tail. apply released_retained_permutation.
Qed.

(** X9.  An iteration in which no queued row is due at the watermark (the
    first one after pre-training, with its empty queue, is one) trains no
    model and feeds no accumulator: it is the prediction of the batch, the
    enqueue and the reading of the timer, from the same state. *)
Theorem idle_iteration_only_predicts (b : Batch) (s : State W)
        (q : list Row) (t : Time) :
  delay_queue s = Some q ->
  current_timestamp s = Some t ->
  (forall r, In r q -> available_time r > t) ->
  process_batch b s =
    (let* yp := _predict_samples (bX b) in
     let* _ := _update_delayed_queue (bX b) (b_arrival_time b)
                                     (b_available_time b) (b_y b) yp in
     let* tm := call timer in
     modify (set_end_time tm)) s.
Proof.
  intros Hq Ht Hlater.
  destruct (all_later_released t q Hlater) as [Hrel Hret].
  unfold process_batch. unfold bind at 1.
  rewrite (drain_state s q t Hq Ht), Hrel, Hret. unfold drained_columns.
  simpl map. rewrite np_T_nil. cbv beta iota.
  rewrite (set_delay_queue_same s q Hq).
  reflexivity.
Qed.

(** ** The calls of a round *)

Lemma for_each_round {A : Type} (body : A -> M unit) (ev : A -> list Event)
      (I : State W -> Prop) (P : A -> Prop) :
  (forall i s s', I s -> body i s = (inr tt, s') ->
                  trace s' = ev i ++ trace s /\ I s' /\ P i) ->
  forall l s s',
    I s -> for_each l body s = (inr tt, s') ->
    trace s' = flat_map ev (rev l) ++ trace s /\ I s' /\ Forall P l.
Proof.
  intros Hbody. induction l as [|i l IH]; intros s s' HI H; simpl in H.
  - injection H as <-. split; [reflexivity|]. split; [exact HI|constructor].
  - unfold bind in H. destruct (body i s) as [[e|u] s1] eqn:E; [discriminate|].
    assert (Hu : u = tt) by (destruct u; reflexivity). subst u.
    destruct (Hbody i s s1 HI E) as (Ht1 & HI1 & HP).
    destruct (IH s1 s' HI1 H) as (Ht & HI' & HPs).
    split; [|split; [exact HI'|constructor; assumption]].
    simpl. rewrite List.flat_map_app. simpl. rewrite List.app_nil_r.
    rewrite <- List.app_assoc, <- Ht1. exact Ht.
Qed.

Lemma collect_round {A B : Type} (f : A -> M B) (ev : A -> list Event)
      (I : State W -> Prop) (P : A -> B -> Prop) :
  (forall i s b s', I s -> f i s = (inr b, s') ->
                    trace s' = ev i ++ trace s /\ I s' /\ P i b) ->
  forall l s bs s',
    I s -> collect l f s = (inr bs, s') ->
    trace s' = flat_map ev (rev l) ++ trace s /\ I s' /\ Forall2 P l bs.
Proof.
  intros Hf. induction l as [|i l IH]; intros s bs s' HI H; simpl in H.
  - injection H as <- <-. split; [reflexivity|]. split; [exact HI|constructor].
  - unfold bind in H. destruct (f i s) as [[e|b] s1] eqn:E; [discriminate|].
    destruct (collect l f s1) as [[e|bs1] s2] eqn:E2; [discriminate|].
    injection H as <- <-.
    destruct (Hf i s b s1 HI E) as (Ht1 & HI1 & HP).
    destruct (IH s1 bs1 s2 HI1 E2) as (Ht & HI' & HPs).
    split; [|split; [exact HI'|constructor; assumption]].
    simpl. rewrite List.flat_map_app. simpl. rewrite List.app_nil_r.
    rewrite <- List.app_assoc, <- Ht1. exact Ht.
Qed.

Lemma call_inv (c : Call) (s : State W) (v : reply c) (s' : State W) :
  call c s = (inr v, s') ->
  trace s' = EvCall c :: trace s /\ attributes s' = attributes s /\
  ext c (world s) = (inr v, world s').
Proof.
  unfold call. destruct (ext c (world s)) as [r w]. intros H.
  injection H as -> <-. repeat split.
Qed.

Lemma fit_one_round (Xd : list Feat) (yd : list Label) (c : Classes) (i : nat)
      (s s' : State W) :
  fit_one Xd yd c i s = (inr tt, s') ->
  trace s' = fit_calls (batch_size (config s)) (Some Xd) yd c i ++ trace s /\
  attributes s' = attributes s.
Proof.
  unfold fit_one, bind, gets. intros H.
  destruct (call (running_time i compute_training_time_begin) s)
    as [[e|u1] s1] eqn:E1; [discriminate|].
  apply call_inv in E1. destruct E1 as (T1 & A1 & _).
  destruct (call (model_partial_fit i (Some Xd) yd c) s1)
    as [[e|u2] s2] eqn:E2; [discriminate|].
  apply call_inv in E2. destruct E2 as (T2 & A2 & _).
  destruct (call (running_time i compute_training_time_end) s2)
    as [[e|u3] s3] eqn:E3; [discriminate|].
  apply call_inv in E3. destruct E3 as (T3 & A3 & _).
  apply (call_inv (running_time i (update_time_measurements
                                     (batch_size (config s3)))) s3 tt s') in H.
  destruct H as (T4 & A4 & _).
  assert (Hc : config s3 = config s).
  { assert (A : attributes s3 = attributes s) by congruence.
    unfold attributes in A. congruence. }
  split; [|congruence].
  rewrite T4, T3, T2, T1, Hc. reflexivity.
Qed.

(** X10.  A training round that returns has, for a drained batch that is not
    empty, asked every model exactly once and in model order to learn the
    whole drained batch, between the two marks of its training time and
    followed by the report of [batch_size] samples; the classes are passed in
    the first round of a task that is not a regression, and only then; the
    round leaves [first_run] false and no other attribute changed.  For an
    empty drained batch the round does nothing at all. *)
Theorem training_round (Xd : list Feat) (yd : list Label) (s s' : State W) :
  _update_classifiers Xd yd s = (inr tt, s') ->
  (Xd = [] -> s' = s) /\
  (Xd <> [] ->
   trace s' =
     rounds (n_models (config s))
            (fit_calls (batch_size (config s)) (Some Xd) yd (classes_passed s))
       ++ trace s /\
   attributes s' = attributes (set_first_run false s)).
Proof.
  intros H. split.
  { intros ->. simpl in H. injection H as <-. reflexivity. }
  intros Hne. unfold _update_classifiers in H.
  assert (Hlen : (0 <? length Xd)%nat = true).
  { apply Nat.ltb_lt. destruct Xd; [congruence|simpl; lia]. }
  rewrite Hlen in H. unfold bind at 1 2, gets in H.
  unfold classes_passed, rounds.
  set (I := fun s1 : State W => attributes s1 = attributes s).
  destruct (first_run s) eqn:Hfr.
  - unfold bind in H.
    match type of H with
    | context [for_each ?l ?f s] =>
        destruct (for_each l f s) as [[e|u] s1] eqn:E
    end; [discriminate|].
    assert (Hu : u = tt) by (destruct u; reflexivity). subst u.
    unfold modify in H. injection H as <-.
    apply (for_each_round _
             (fit_calls (batch_size (config s)) (Some Xd) yd
                (if true && negb (is_regression (_task_type (config s)))
                 then TargetValues else NoClasses))
             I (fun _ => True)) in E.
    + destruct E as (Ht & HI & _). split; [exact Ht|].
      unfold I, attributes in HI. unfold attributes. simpl. congruence.
    + intros i s2 s3 HI2 Hb. unfold bind, gets in Hb.
      assert (Hc : config s2 = config s)
        by (unfold I, attributes in HI2; congruence).
      rewrite Hc in Hb. simpl andb.
      destruct (negb (is_regression (_task_type (config s))));
        apply fit_one_round in Hb; destruct Hb as [Hb1 Hb2];
        rewrite Hc in Hb1; (split; [exact Hb1|]);
        (split; [unfold I; congruence|exact Logic.I]).
    + reflexivity.
  - apply (for_each_round _
             (fit_calls (batch_size (config s)) (Some Xd) yd NoClasses)
             I (fun _ => True)) in H.
    + destruct H as (Ht & HI & _). split; [exact Ht|].
      unfold I, attributes in HI. unfold attributes. simpl. congruence.
    + intros i s2 s3 HI2 Hb.
      assert (Hc : config s2 = config s)
        by (unfold I, attributes in HI2; congruence).
      apply fit_one_round in Hb. destruct Hb as [Hb1 Hb2].
      rewrite Hc in Hb1. split; [exact Hb1|].
      split; [unfold I; congruence|exact Logic.I].
    + reflexivity.
Qed.

Lemma item_inv {A : Type} (l : list A) (i : nat) (x d : A) :
  item l i = inr x -> nth i l d = x /\ (i < length l)%nat.
Proof.
  unfold item. destruct (nth_error l i) as [y|] eqn:E; [|discriminate].
  intros H. injection H as <-. split; [apply List.nth_error_nth; exact E|].
  apply List.nth_error_Some. congruence.
Qed.

Lemma feed_one_round (yr : list Label) (yp : list (list Label)) (j i : nat)
      (s s' : State W) :
  feed_one yr yp j i s = (inr tt, s') ->
  trace s' = feed_calls j (nth i yr 0) (nth i (nth j yp []) 0) ++ trace s /\
  attributes s' = attributes s /\
  (i < length yr)%nat /\ (j < length yp)%nat /\
  (i < length (nth j yp []))%nat.
Proof.
  unfold feed_one, bind, lift, raise, ret. intros H.
  destruct (item yr i) as [e|y] eqn:Ey; [discriminate|].
  destruct (item yp j) as [e|row] eqn:Er; [discriminate|].
  destruct (item row i) as [e|p] eqn:Ep; [discriminate|].
  apply (item_inv _ _ _ 0) in Ey. destruct Ey as [Ey Ly].
  apply (item_inv _ _ _ []) in Er. destruct Er as [Er Lr].
  apply (item_inv _ _ _ 0) in Ep. destruct Ep as [Ep Lp].
  destruct (call (add_result MeanEval j y p) s) as [[e|u1] s1] eqn:E1;
    [discriminate|].
  apply call_inv in E1. destruct E1 as (T1 & A1 & _).
  apply (call_inv (add_result CurrentEval j y p) s1 tt s') in H.
  destruct H as (T2 & A2 & _).
  subst row. subst y. subst p.
  split; [rewrite T2, T1; reflexivity|]. split; [congruence|].
  repeat split; assumption.
Qed.

Lemma last_of_range (P : nat -> Prop) (m : nat) :
  Forall P (range m) -> (0 < m)%nat -> P (m - 1)%nat.
Proof.
  intros H Hm. rewrite List.Forall_forall in H. apply H.
  unfold range. apply List.in_seq. lia.
Qed.

(** X11.  A metrics phase that returns has, for a drained prediction matrix
    that is not empty, fed the two accumulators of every model with every
    drained sample exactly once (model by model, sample by sample, the mean
    accumulator first), then reported the progress, and then updated the
    metrics at most once, counting that update.  It can only return if the
    matrix has a row for every model and every such row and the column of
    labels are at least as long as the first row; with an empty matrix it
    does nothing at all. *)
Theorem metrics_round (yr : list Label) (yp : list (list Label))
        (s s' : State W) :
  _update_metrics_delayed yr yp s = (inr tt, s') ->
  let n := n_models (config s) in
  let m := length (nth 0 yp []) in
  (yp = [] -> s' = s) /\
  (yp <> [] ->
   (exists upd,
       trace s' =
         upd ++ EvCall (check_progress (actual_max_samples s))
             :: rounds n (fun j =>
                  flat_map (fun i => feed_calls j (nth i yr 0)
                                                (nth i (nth j yp []) 0))
                           (rev (range m)))
             ++ trace s /\
       (upd = [] /\ update_count s' = update_count s \/
        upd = [EvCall update_metrics] /\
        update_count s' = update_count s + 1)) /\
   attributes s' = attributes (set_update_count (update_count s') s) /\
   ((0 < n)%nat -> (0 < m)%nat ->
    (n <= length yp)%nat /\ (m <= length yr)%nat /\
    forall j, (j < n)%nat -> (m <= length (nth j yp []))%nat)).
Proof.
  intros H n m. split.
  { intros ->. simpl in H. injection H as <-. reflexivity. }
  intros Hne. unfold _update_metrics_delayed in H.
  assert (Hlen : (0 <? length yp)%nat = true).
  { apply Nat.ltb_lt. destruct yp; [congruence|simpl; lia]. }
  rewrite Hlen in H. unfold bind at 1 in H.
  destruct (feed_accumulators yr yp s) as [[e|u] s1] eqn:E; [discriminate|].
  assert (Hu : u = tt) by (destruct u; reflexivity). subst u.
  (* the two loops *)
  unfold feed_accumulators, bind at 1, gets in E.
  set (I := fun s1 : State W => attributes s1 = attributes s).
  apply (for_each_round _
           (fun j => flat_map (fun i => feed_calls j (nth i yr 0)
                                                   (nth i (nth j yp []) 0))
                              (rev (range m)))
           I
           (fun j => (0 < m)%nat ->
                     (m <= length yr)%nat /\ (j < length yp)%nat /\
                     (m <= length (nth j yp []))%nat)) in E.
  2:{ intros j s2 s3 HI2 Hb. unfold bind in Hb.
      destruct (item yp 0) as [e|row0] eqn:E0; [discriminate|].
      cbn [lift ret] in Hb.
      apply (item_inv _ _ _ []) in E0. destruct E0 as [E0 _].
      rewrite <- E0 in Hb. fold m in Hb.
      apply (for_each_round _
               (fun i => feed_calls j (nth i yr 0) (nth i (nth j yp []) 0))
               (fun s4 => attributes s4 = attributes s2)
               (fun i => (i < length yr)%nat /\ (j < length yp)%nat /\
                         (i < length (nth j yp []))%nat)) in Hb.
      - destruct Hb as (Ht & HA & HP). split; [exact Ht|].
        split; [unfold I in *; congruence|].
        intros Hm. apply last_of_range in HP; [|exact Hm]. lia.
      - intros i s4 s5 HI4 Hf. apply feed_one_round in Hf.
        destruct Hf as (Ht & HA & HP). split; [exact Ht|].
        split; [congruence|exact HP].
      - reflexivity. }
  2:{ reflexivity. }
  destruct E as (Ht1 & HI1 & HP).
  assert (Hshape : (0 < n)%nat -> (0 < m)%nat ->
                   (n <= length yp)%nat /\ (m <= length yr)%nat /\
                   forall j, (j < n)%nat -> (m <= length (nth j yp []))%nat).
  { intros Hn Hm. rewrite List.Forall_forall in HP.
    assert (Hin : forall j, (j < n)%nat -> In j (range n))
      by (intros j Hj; unfold range; apply List.in_seq; lia).
    assert (Hlast : (n - 1 < n)%nat) by lia.
    destruct (HP (n - 1)%nat (Hin _ Hlast) Hm) as (Hyr & Hj & _).
    split; [lia|]. split; [exact Hyr|].
    intros j Hj'. apply (HP j (Hin j Hj') Hm). }
  (* progress and update *)
  unfold I, attributes in HI1.
  unfold bind at 1, gets in H. unfold bind at 1 in H.
  destruct (call (check_progress (actual_max_samples s1)) s1)
    as [[e|u] s2] eqn:E2; [discriminate|].
  apply (call_inv (check_progress (actual_max_samples s1)) s1 u s2) in E2.
  destruct E2 as (T2 & A2 & _). unfold attributes in A2.
  assert (Ha : actual_max_samples s1 = actual_max_samples s) by congruence.
  rewrite Ha in T2.
  unfold bind at 1 in H.
  pose proof (update_due_spec s2) as Hdue.
  destruct (update_due s2) as [[e|due] s3] eqn:E3; [discriminate|].
  specialize (Hdue due s3 eq_refl). destruct Hdue as [Hs3 _]. subst s3.
  destruct due.
  - unfold bind in H.
    destruct (call update_metrics s2) as [[e|u'] s4] eqn:E4; [discriminate|].
    apply (call_inv update_metrics s2 u' s4) in E4.
    destruct E4 as (T4 & A4 & _). unfold attributes in A4.
    unfold modify in H. injection H as <-.
    split; [|split; [|exact Hshape]].
    + exists [EvCall update_metrics]. simpl. split.
      * rewrite T4, T2, Ht1. reflexivity.
      * right. split; [reflexivity|]. f_equal; congruence.
    + unfold attributes. simpl. congruence.
  - injection H as <-.
    split; [|split; [|exact Hshape]].
    + exists []. simpl. split.
      * rewrite T2, Ht1. reflexivity.
      * left. split; [reflexivity|]. congruence.
    + unfold attributes. simpl. congruence.
Qed.

Lemma predict_one_round (Xb : list Feat) (i : nat) (s : State W)
      (l : list Label) (s' : State W) :
  predict_one Xb i s = (inr l, s') ->
  trace s' = predict_calls Xb i ++ trace s /\
  attributes s' = attributes s /\
  exists w w', ext (model_predict i Xb) w = (inr (PredSeq l), w').
Proof.
  unfold predict_one, except_TypeError, bind, call, ret, raise, gets.
  destruct (ext (running_time i compute_testing_time_begin) (world s))
    as [[e|u] w]; simpl.
  { destruct e; discriminate. }
  destruct (ext (model_predict i Xb) w) as [[e|out] w1] eqn:E; simpl.
  { destruct e; discriminate. }
  destruct out as [l'|]; simpl; [|discriminate].
  destruct (ext (running_time i compute_testing_time_end) w1) as [[e|u'] w2];
    simpl.
  { destruct e; discriminate. }
  intros H. injection H as <- <-. simpl.
  split; [reflexivity|]. split; [reflexivity|]. exists w, w1. exact E.
Qed.

Lemma columns_shape (preds : list (list Label)) (k : nat) :
  preds <> [] ->
  Forall (fun l => length l = k) preds ->
  rectangular preds = true /\
  length (columns preds) = k /\
  Forall (fun row => length row = length preds) (columns preds) /\
  forall a i, (a < k)%nat -> (i < length preds)%nat ->
              nth i (nth a (columns preds) []) 0 = nth a (nth i preds []) 0.
Proof.
  intros Hne Hall. destruct preds as [|r0 rest]; [congruence|].
  assert (H0 : length r0 = k) by (inversion Hall; assumption).
  split; [|split; [|split]].
  - simpl. apply forallb_forall. intros r Hr. apply Nat.eqb_eq.
    rewrite List.Forall_forall in Hall. rewrite H0. apply Hall. right. exact Hr.
  - unfold columns. rewrite List.length_map, List.length_seq. exact H0.
  - unfold columns. apply List.Forall_forall. intros row Hrow.
    apply List.in_map_iff in Hrow. destruct Hrow as (j & <- & _).
    apply List.length_map.
  - intros a i Ha Hi. unfold columns. rewrite H0.
    set (f := fun j => map (fun r : list Label => nth j r 0) (r0 :: rest)).
    rewrite (List.nth_indep _ [] (f 0%nat))
      by (rewrite List.length_map, List.length_seq; exact Ha).
    rewrite (List.map_nth f), List.seq_nth by exact Ha. simpl Nat.add.
    unfold f.
    rewrite (List.nth_indep _ 0 ((fun r : list Label => nth a r 0) []))
      by (rewrite List.length_map; exact Hi).
    apply (List.map_nth (fun r : list Label => nth a r 0)).
Qed.

(** X12.  A prediction round that returns has asked every model exactly once
    and in model order for its labels of the whole batch, between the two
    marks of its testing time, and nothing else; it has counted
    [batch_size] samples, whatever the length of the batch, and changed no
    other attribute.  What it hands back is the transposition of the
    sequences the models returned: when each of them has one label per
    sample, a matrix with one row per sample and one entry per model, the
    entry of sample [k] and model [i] being the label of model [i] for
    sample [k]. *)
Theorem prediction_round (Xb : list Feat) (yp : list (list Label))
        (s s' : State W) :
  _predict_samples (Some Xb) s = (inr (Some yp), s') ->
  let n := n_models (config s) in
  exists preds,
    Forall2 (fun i l => exists w w',
                 ext (model_predict i Xb) w = (inr (PredSeq l), w'))
            (range n) preds /\
    np_T preds = inr yp /\
    trace s' = rounds n (predict_calls Xb) ++ trace s /\
    attributes s' =
      attributes (set_global_sample_count
                    (global_sample_count s + batch_size (config s)) s) /\
    (Forall (fun l => length l = length Xb) preds -> (0 < n)%nat ->
     length yp = length Xb /\
     Forall (fun row => length row = n) yp /\
     forall k i, (k < length Xb)%nat -> (i < n)%nat ->
                 nth i (nth k yp []) 0 = nth k (nth i preds []) 0).
Proof.
  intros H n. unfold _predict_samples, bind at 1, gets in H.
  unfold bind at 1 in H.
  destruct (collect (range (n_models (config s))) (predict_one Xb) s)
    as [[e|preds] s1] eqn:E; [discriminate|].
  apply (collect_round _ (predict_calls Xb)
           (fun s1 => attributes s1 = attributes s)
           (fun i l => exists w w',
                ext (model_predict i Xb) w = (inr (PredSeq l), w'))) in E.
  2:{ intros i s2 l s3 HI2 Hp. apply predict_one_round in Hp.
      destruct Hp as (Ht & HA & Hw). split; [exact Ht|].
      split; [congruence|exact Hw]. }
  2:{ reflexivity. }
  destruct E as (Ht & HA & HP).
  unfold bind, modify, lift in H.
  destruct (np_T preds) as [e|yp'] eqn:ET; [discriminate|].
  unfold ret in H. injection H as <- <-.
  exists preds. split; [exact HP|]. split; [exact ET|].
  split; [exact Ht|]. split.
  { unfold attributes in *. simpl. congruence. }
  intros Hall Hn.
  assert (Hlen : length preds = n).
  { apply Forall2_length in HP. rewrite <- HP. unfold range.
    apply List.length_seq. }
  assert (Hne : preds <> []).
  { intros ->. simpl in Hlen. lia. }
  destruct (columns_shape preds (length Xb) Hne Hall) as (Hr & Hl & Hrow & Hent).
  unfold np_T in ET. rewrite Hr in ET. injection ET as <-.
  split; [exact Hl|]. split; [rewrite <- Hlen; exact Hrow|].
  intros k i Hk Hi. apply Hent; [exact Hk|lia].
Qed.

Lemma pretrain_one_round (b : Batch) (i : nat) (s s' : State W) :
  pretrain_one b i s = (inr tt, s') ->
  trace s' = fit_calls (pretrain_size (config s)) (bX b) (b_y b)
                       (pretrain_classes (_task_type (config s))) i
               ++ trace s /\
  attributes s' = attributes s.
Proof.
  unfold pretrain_one, bind at 1, gets. intros H.
  change (match _task_type (config s) with
          | CLASSIFICATION => TargetValues
          | MULTI_TARGET_CLASSIFICATION => UniqueTargetValues
          | _ => NoClasses
          end) with (pretrain_classes (_task_type (config s))) in H.
  set (c := pretrain_classes (_task_type (config s))) in *.
  unfold bind in H.
  destruct (call (running_time i compute_training_time_begin) s)
    as [[e|u1] s1] eqn:E1; [discriminate|].
  apply call_inv in E1. destruct E1 as (T1 & A1 & _).
  destruct (call (model_partial_fit i (bX b) (b_y b) c) s1)
    as [[e|u2] s2] eqn:E2; [discriminate|].
  apply call_inv in E2. destruct E2 as (T2 & A2 & _).
  destruct (call (running_time i compute_training_time_end) s2)
    as [[e|u3] s3] eqn:E3; [discriminate|].
  apply call_inv in E3. destruct E3 as (T3 & A3 & _).
  apply (call_inv (running_time i (update_time_measurements
                                     (pretrain_size (config s3)))) s3 tt s') in H.
  destruct H as (T4 & A4 & _).
  assert (Hc : config s3 = config s).
  { assert (A : attributes s3 = attributes s) by congruence.
    unfold attributes in A. congruence. }
  split; [|congruence].
  rewrite T4, T3, T2, T1, Hc. reflexivity.
Qed.

(** X13.  A pre-training block that returns has pulled one batch of
    [pretrain_size] samples and asked every model exactly once and in model
    order to learn it, with the classes that the task type asks for; it has
    made no prediction and fed no accumulator, so these samples are never
    tested.  It has counted [pretrain_size] samples, cleared [first_run], set
    the watermark to the value that the arrival times of the batch end with
    and created the queue, and changed no other attribute. *)
Theorem pretraining_round (s s' : State W) :
  pretrain s = (inr tt, s') ->
  exists b w earlier t,
    ext (stream_next_sample (pretrain_size (config s))) (world s) = (inr b, w) /\
    b_arrival_time b = earlier ++ [t] /\
    trace s' =
      rounds (n_models (config s))
             (fit_calls (pretrain_size (config s)) (bX b) (b_y b)
                        (pretrain_classes (_task_type (config s))))
        ++ EvCall (stream_next_sample (pretrain_size (config s)))
        :: EvPrint "Pre-training on {} sample(s)."
        :: trace s /\
    attributes s' =
      attributes
        (set_delay_queue (Some (sort_values []))
           (set_current_timestamp (Some t)
              (set_first_run false
                 (set_global_sample_count
                    (global_sample_count s + pretrain_size (config s)) s)))).
Proof.
  intros H. unfold pretrain, bind at 1, print, modify in H.
  unfold bind at 1, gets in H. unfold bind at 1 in H.
  set (s0 := set_trace (EvPrint "Pre-training on {} sample(s)." :: trace s) s)
    in H.
  destruct (call (stream_next_sample (pretrain_size (config s0))) s0)
    as [[e|b] s1] eqn:E1; [discriminate|].
  apply call_inv in E1. destruct E1 as (T1 & A1 & W1).
  unfold bind at 1, gets in H. unfold bind at 1 in H.
  match type of H with
  | context [for_each ?l ?f s1] =>
      destruct (for_each l f s1) as [[e|u] s2] eqn:E2
  end; [discriminate|].
  assert (Hu : u = tt) by (destruct u; reflexivity). subst u.
  assert (Hc1 : config s1 = config s).
  { unfold attributes in A1. simpl in A1. congruence. }
  apply (for_each_round _
           (fit_calls (pretrain_size (config s)) (bX b) (b_y b)
                      (pretrain_classes (_task_type (config s))))
           (fun s2 => attributes s2 = attributes s)
           (fun _ => True)) in E2.
  2:{ intros i s3 s4 HI3 Hb. apply pretrain_one_round in Hb.
      destruct Hb as [Hb1 Hb2].
      assert (Hc : config s3 = config s)
        by (unfold attributes in HI3; congruence).
      rewrite Hc in Hb1. split; [exact Hb1|].
      split; [congruence|exact I]. }
  2:{ rewrite A1. reflexivity. }
  destruct E2 as (T2 & A2 & _).
  unfold bind, modify, lift in H.
  destruct (last_item (b_arrival_time b)) as [e|t] eqn:Et; [discriminate|].
  unfold ret, _sort_delay_queue, bind, get_delay_queue, modify in H.
  simpl in H. injection H as <-.
  destruct (last_item_inv _ _ Et) as [earlier Hearlier].
  exists b, (world s1), earlier, t.
  split; [exact W1|]. split; [exact Hearlier|]. split.
  - simpl. rewrite T2, T1, Hc1. reflexivity.
  - unfold attributes in *. simpl. congruence.
Qed.

(** ** The condition of the loop *)

Lemma loop_guard_inv (s : State W) :
  exists r w,
    ext stream_has_more_samples (world s) = (r, w) /\
    snd (loop_guard s) =
      set_world w (set_trace (EvCall stream_has_more_samples :: trace s) s) /\
    match r with
    | inl e => fst (loop_guard s) = inl e
    | inr more =>
        fst (loop_guard s) =
          inr ((global_sample_count s <? actual_max_samples s)
               && match max_time (config s) with
                  | None => true
                  | Some m => Qgt_bool m (_end_time s - _start_time s)%Q
                  end
               && more)
    end.
Proof.
  unfold loop_guard, bind, gets, call, ret. simpl.
  destruct (ext stream_has_more_samples (world s)) as [[e|more] w];
    eexists; eexists; (split; [reflexivity|]); split; reflexivity.
Qed.

(** X14.  The loop stops without pulling a batch as soon as the budget of
    samples is used up, the time is up or the stream reports no more
    samples.  The three tests are joined by [&]: the stream is asked even
    when the budget or the time has already decided, and that question is
    all that has happened when the loop is left. *)
Theorem loop_stops_without_pulling (fuel : nat) (s : State W) (more : bool)
        (w : W) :
  ext stream_has_more_samples (world s) = (inr more, w) ->
  (actual_max_samples s <= global_sample_count s \/
   more = false \/
   exists m, max_time (config s) = Some m /\
             (m <= _end_time s - _start_time s)%Q) ->
  while_loop (S fuel) s =
    Some (inr tt,
          set_world w
            (set_trace (EvCall stream_has_more_samples :: trace s) s)).
Proof.
  intros He Hstop. simpl.
  destruct (loop_guard_inv s) as (r & w' & He' & Hs & Hr).
  rewrite He in He'. injection He' as <- <-.
  destruct (loop_guard s) as [r1 s1]. simpl in Hs, Hr. subst r1 s1.
  assert (Hfalse : (global_sample_count s <? actual_max_samples s)
                   && match max_time (config s) with
                      | None => true
                      | Some m => Qgt_bool m (_end_time s - _start_time s)%Q
                      end
                   && more = false).
  { destruct Hstop as [Hb|[Hm|(m & Hm & Ht)]].
    - assert (E : (global_sample_count s <? actual_max_samples s) = false)
        by (apply Z.ltb_ge; exact Hb).
      rewrite E. reflexivity.
    - rewrite Hm. apply andb_false_r.
    - rewrite Hm. unfold Qgt_bool.
      apply Qle_bool_iff in Ht. rewrite Ht. simpl.
      rewrite andb_false_r. reflexivity. }
  rewrite Hfalse. reflexivity.
Qed.

Lemma while_loop_raise_inv (fuel : nat) :
  forall (s : State W) e s',
    while_loop fuel s = Some (inl e, s') ->
    exists s0,
      ext stream_has_more_samples (world s0) = (inl e, world s') /\
      s' = set_world (world s')
             (set_trace (EvCall stream_has_more_samples :: trace s0) s0).
Proof.
  induction fuel as [|fuel IH]; intros s e s' H; simpl in H; [discriminate|].
  destruct (loop_guard_inv s) as (r & w & He & Hs & Hr).
  destruct (loop_guard s) as [r1 s1]. simpl in Hs, Hr.
  destruct r as [e1|more].
  - subst r1. injection H as <- <-. exists s. rewrite Hs. simpl.
    split; [exact He|reflexivity].
  - subst r1.
    destruct ((global_sample_count s <? actual_max_samples s)
              && match max_time (config s) with
                 | None => true
                 | Some m => Qgt_bool m (_end_time s - _start_time s)%Q
                 end
              && more); [|discriminate].
    destruct (loop_body s1) as [[e2|u] s2]; [discriminate|].
    apply IH in H. exact H.
Qed.

(** X15.  The condition of the loop is evaluated outside the [try]: an
    exception that [has_more_samples] raises there ends
    [_train_and_test] with that exception, without flush, summary, restart or
    returned models; and no other exception ever leaves the loop. *)
Theorem only_the_loop_condition_raises :
  (forall fuel (s s1 : State W) (e : Exn) (w : W),
      prologue s = (inr tt, s1) ->
      ext stream_has_more_samples (world s1) = (inl e, w) ->
      _train_and_test (S fuel) s =
        Some (inl e,
              set_world w
                (set_trace (EvCall stream_has_more_samples :: trace s1) s1)))
  /\ (forall fuel (s : State W) (e : Exn) (s' : State W),
         while_loop fuel s = Some (inl e, s') ->
         exists s0,
           ext stream_has_more_samples (world s0) = (inl e, world s') /\
           s' = set_world (world s')
                  (set_trace (EvCall stream_has_more_samples :: trace s0) s0)).
Proof.
  split.
  - intros fuel s s1 e w Hp He. unfold _train_and_test. rewrite Hp.
    cbn [while_loop].
    destruct (loop_guard_inv s1) as (r & w' & He' & Hs & Hr).
    rewrite He in He'. injection He' as <- <-.
    destruct (loop_guard s1) as [r1 s2]. simpl in Hs, Hr. subst r1 s2.
    reflexivity.
  - intros fuel. apply while_loop_raise_inv.
Qed.

(** X16.  A batch without arrival times, an empty batch for instance, ends
    the loop: reading the last arrival time raises [IndexError] inside the
    [try], the handler prints it and breaks.  The batch has been taken from
    the stream, but no model has been asked to predict it, and watermark,
    queue and sample count are as they were. *)
Theorem batch_without_arrival_times_ends_loop (fuel : nat) (s s1 : State W)
        (b : Batch) (w : W) :
  loop_guard s = (inr true, s1) ->
  ext (stream_next_sample (batch_size (config s1))) (world s1) = (inr b, w) ->
  b_arrival_time b = [] ->
  while_loop (S fuel) s =
    Some (inr tt,
          print_exn (IndexError "list index out of range")
            (set_world w
               (set_trace
                  (EvCall (stream_next_sample (batch_size (config s1)))
                     :: trace s1) s1))).
Proof.
  intros Hg He Hb. simpl. rewrite Hg.
  unfold loop_body, pull_batch, bind, gets, call. rewrite He.
  simpl. rewrite Hb. reflexivity.
Qed.

(** ** The shape of the queued predictions *)

Lemma zip_rows_pred_in (Xb : list Feat) :
  forall yr yp arr avail r,
    In r (zip_rows Xb yr yp arr avail) -> In (y_pred r) yp.
Proof.
  induction Xb as [|x Xb IH]; intros yr yp arr avail r H; simpl in H.
  - destruct H.
  - destruct yr as [|y yr]; [destruct H|].
    destruct yp as [|p yp]; [destruct H|].
    destruct arr as [|a arr]; [destruct H|].
    destruct avail as [|v avail]; [destruct H|].
    destruct H as [<-|H]; [left; reflexivity|].
    right. eapply IH. exact H.
Qed.

Lemma predict_samples_rows (Xb : list Feat) (yp : list (list Label))
      (s s' : State W) :
  models_answer_per_sample ->
  _predict_samples (Some Xb) s = (inr (Some yp), s') ->
  Forall (fun row => length row = n_models (config s)) yp.
Proof.
  intros Hmodels H. unfold _predict_samples, bind at 1, gets in H.
  unfold bind at 1 in H.
  destruct (collect (range (n_models (config s))) (predict_one Xb) s)
    as [[e|preds] s1] eqn:E; [discriminate|].
  apply (collect_round _ (predict_calls Xb) (fun _ => True)
           (fun i l => length l = length Xb)) in E.
  2:{ intros i s2 l s3 _ Hp. apply predict_one_round in Hp.
      destruct Hp as (Ht & _ & w & w' & Hw). split; [exact Ht|].
      split; [exact I|]. exact (Hmodels i Xb w l w' Hw). }
  2:{ exact I. }
  destruct E as (_ & _ & HP).
  unfold bind, modify, lift in H.
  destruct (np_T preds) as [e|yp'] eqn:ET; [discriminate|].
  unfold ret in H. injection H as <- _.
  assert (Hlen : length preds = n_models (config s)).
  { apply Forall2_length in HP. rewrite <- HP. unfold range.
    apply List.length_seq. }
  assert (Hall : Forall (fun l => length l = length Xb) preds).
  { clear -HP. induction HP; constructor; assumption. }
  destruct preds as [|p0 preds'].
  { simpl in ET. injection ET as <-. constructor. }
  destruct (columns_shape (p0 :: preds') (length Xb)) as (Hr & _ & Hrow & _);
    [discriminate|exact Hall|].
  unfold np_T in ET. rewrite Hr in ET. injection ET as <-.
  rewrite <- Hlen. exact Hrow.
Qed.

Lemma rows_complete_same (s s' : State W) :
  rows_complete s -> same config_and_queue s s' -> rows_complete s'.
Proof.
  unfold same, config_and_queue. intros Hs E q Hq.
  injection E as Hc Hd. rewrite Hc. apply Hs. rewrite <- Hd. exact Hq.
Qed.

Lemma pull_batch_keeps_rows : keeps (same config_and_queue) pull_batch.
Proof. unfold pull_batch. keeps_structure. Qed.

Lemma metrics_keep_rows (yr : list Label) (yp : list (list Label)) :
  keeps (same config_and_queue) (_update_metrics_delayed yr yp).
Proof.
  unfold _update_metrics_delayed, feed_accumulators, feed_one, update_due.
  keeps_structure.
Qed.

Lemma classifiers_keep_rows (Xd : list Feat) (yd : list Label) :
  keeps (same config_and_queue) (_update_classifiers Xd yd).
Proof. unfold _update_classifiers, fit_one. keeps_structure. Qed.

Lemma predict_samples_keep_rows (Xo : option (list Feat)) :
  keeps (same config_and_queue) (_predict_samples Xo).
Proof. unfold _predict_samples, predict_one. keeps_structure. Qed.

Lemma loop_guard_keeps_rows : keeps (same config_and_queue) loop_guard.
Proof. unfold loop_guard. keeps_structure. Qed.

Lemma drain_rows_complete (s : State W) :
  rows_complete s -> rows_complete (snd (_get_delayed_samples s)).
Proof.
  intros Hs.
  destruct (delay_queue s) as [q|] eqn:Hq.
  2:{ unfold _get_delayed_samples, bind, get_delay_queue. rewrite Hq. exact Hs. }
  destruct (current_timestamp s) as [t|] eqn:Ht.
  2:{ unfold _get_delayed_samples, bind, get_delay_queue, get_current_timestamp.
      rewrite Hq. simpl. rewrite Ht. exact Hs. }
  rewrite (drain_state s q t Hq Ht). simpl.
  intros q' E. simpl in E. injection E as <-. simpl.
  specialize (Hs q Hq). rewrite List.Forall_forall in *.
  intros r Hr. apply Hs. apply List.filter_In in Hr. apply Hr.
Qed.

Section CompleteRows.

Hypothesis sort_contract : sorts_by_available_time sort_values.
Hypothesis models_contract : models_answer_per_sample.

Lemma process_batch_rows_complete (b : Batch) (s : State W) :
  rows_complete s -> rows_complete (snd (process_batch b s)).
Proof using sort_contract models_contract.
  intros Hs. unfold process_batch, bind.
  pose proof (drain_rows_complete s Hs) as Hs1.
  destruct (_get_delayed_samples s) as [[e|[[Xd yd] ypd]] s1]; simpl in Hs1;
    [exact Hs1|].
  pose proof (metrics_keep_rows yd ypd s1) as H2.
  destruct (_update_metrics_delayed yd ypd s1) as [[e|u2] s2]; simpl in H2;
    pose proof (rows_complete_same _ _ Hs1 H2) as Hs2; [exact Hs2|].
  pose proof (classifiers_keep_rows Xd yd s2) as H3.
  destruct (_update_classifiers Xd yd s2) as [[e|u3] s3]; simpl in H3;
    pose proof (rows_complete_same _ _ Hs2 H3) as Hs3; [exact Hs3|].
  pose proof (predict_samples_keep_rows (bX b) s3) as H4.
  destruct (_predict_samples (bX b) s3) as [[e|ypo] s4] eqn:E4; simpl in H4;
    pose proof (rows_complete_same _ _ Hs3 H4) as Hs4; [exact Hs4|].
  assert (Hs5 : rows_complete
                  (snd (_update_delayed_queue (bX b) (b_arrival_time b)
                          (b_available_time b) (b_y b) ypo s4))).
  { destruct (bX b) as [Xb|] eqn:EX; [|exact Hs4].
    destruct ypo as [yp|]; [|exact Hs4].
    destruct (delay_queue s4) as [q4|] eqn:Hq4.
    2:{ unfold _update_delayed_queue, bind, get_delay_queue. rewrite Hq4.
        exact Hs4. }
    rewrite (enqueue_state _ _ _ _ _ _ _ Hq4). simpl.
    intros q' E. simpl in E. injection E as <-. simpl.
    destruct (sort_contract (q4 ++ zip_rows Xb (b_y b) yp (b_arrival_time b)
                                     (b_available_time b))) as [Hp _].
    apply (Permutation_Forall (Permutation_sym Hp)).
    apply List.Forall_app. split; [apply Hs4; exact Hq4|].
    apply predict_samples_rows in E4; [|exact models_contract].
    unfold same, config_and_queue in H4. injection H4 as Hc4 _.
    rewrite Hc4. rewrite List.Forall_forall in *.
    intros r Hr. apply E4. eapply zip_rows_pred_in. exact Hr. }
  destruct (_update_delayed_queue (bX b) (b_arrival_time b) (b_available_time b)
              (b_y b) ypo s4) as [[e|u5] s5]; simpl in Hs5; [exact Hs5|].
  assert (H6 : keeps (same config_and_queue)
                 (bind (call timer) (fun t => modify (set_end_time t))))
    by keeps_structure.
  specialize (H6 s5). unfold bind in H6.
  apply (rows_complete_same _ _ Hs5 H6).
Qed.

Lemma loop_body_rows_complete (s : State W) :
  rows_complete s -> rows_complete (snd (loop_body s)).
Proof using sort_contract models_contract.
  intros Hs. unfold loop_body, bind.
  pose proof (pull_batch_keeps_rows s) as H1.
  destruct (pull_batch s) as [[e|b] s1]; simpl in H1;
    pose proof (rows_complete_same _ _ Hs H1) as Hs1; [exact Hs1|].
  apply process_batch_rows_complete. exact Hs1.
Qed.

Lemma while_loop_rows_complete (fuel : nat) :
  forall (s : State W) r s',
    rows_complete s -> while_loop fuel s = Some (r, s') -> rows_complete s'.
Proof using sort_contract models_contract.
  induction fuel as [|fuel IH]; intros s r s' Hs H; simpl in H; [discriminate|].
  pose proof (loop_guard_keeps_rows s) as Hg.
  destruct (loop_guard s) as [[e|[|]] s1]; simpl in Hg;
    pose proof (rows_complete_same _ _ Hs Hg) as Hs1.
  - injection H as _ <-. exact Hs1.
  - pose proof (loop_body_rows_complete s1 Hs1) as Hs2.
    destruct (loop_body s1) as [[e|u] s2]; simpl in Hs2.
    + injection H as _ <-. exact Hs2.
    + eapply IH; [exact Hs2|exact H].
  - injection H as _ <-. exact Hs1.
Qed.

End CompleteRows.

(** X17.  When every model answers a batch with one label for each of its
    samples, every row of the delay queue carries one prediction for each
    model: the pre-training block leaves such a queue (an empty one), and an
    iteration of the loop, and so the loop as a whole, keeps the queue so,
    however the iteration ends. *)
Theorem queued_rows_stay_complete :
  sorts_by_available_time sort_values ->
  models_answer_per_sample ->
  (forall (s s' : State W), pretrain s = (inr tt, s') -> rows_complete s')
  /\ (forall (s : State W), rows_complete s -> rows_complete (snd (loop_body s)))
  /\ (forall fuel (s : State W) r s',
         rows_complete s -> while_loop fuel s = Some (r, s') ->
         rows_complete s').
Proof.
  intros Hsort Hmodels. split; [|split].
  - intros s s' H.
    unfold pretrain, bind, print, modify, gets, call in H. simpl in H.
    destruct (ext (stream_next_sample (pretrain_size (config s))) (world s))
      as [[e|b] w]; simpl in H; [discriminate|].
    match type of H with
    | context [for_each ?l ?f ?st] => destruct (for_each l f st) as [[e|u] s2]
    end; simpl in H; [discriminate|].
    destruct (last_item (b_arrival_time b)) as [e|t]; simpl in H;
      [discriminate|].
    unfold _sort_delay_queue, bind, get_delay_queue, modify in H. simpl in H.
    injection H as <-. intros q E. simpl in E. injection E as <-.
    rewrite (sort_nil Hsort). constructor.
  - apply loop_body_rows_complete; assumption.
  - intros fuel. apply while_loop_rows_complete; assumption.
Qed.

(** ** The metrics phase on complete rows *)

Lemma for_each_raises {A : Type} (body : A -> M unit) (I : State W -> Prop)
      (Q : Exn -> Prop) (D : A -> Prop) :
  (forall i s, D i -> I s ->
               match fst (body i s) with
               | inl e => Q e
               | inr _ => I (snd (body i s))
               end) ->
  forall l s, Forall D l -> I s ->
              match fst (for_each l body s) with
              | inl e => Q e
              | inr _ => I (snd (for_each l body s))
              end.
Proof.
  intros Hbody. induction l as [|i l IH]; intros s HD HI; simpl.
  - exact HI.
  - inversion HD as [|? ? Hi Hl]; subst.
    specialize (Hbody i s Hi HI). unfold bind.
    destruct (body i s) as [[e|u] s1]; simpl in Hbody; [exact Hbody|].
    apply IH; assumption.
Qed.

Lemma item_defined {A : Type} (l : list A) (i : nat) (d : A) :
  (i < length l)%nat -> item l i = inr (nth i l d).
Proof.
  intros H. unfold item.
  destruct (nth_error l i) as [x|] eqn:E.
  - rewrite (List.nth_error_nth _ _ d E). reflexivity.
  - apply List.nth_error_None in E. lia.
Qed.

Section ReturningAccumulators.

Hypothesis add_result_returns :
  forall a j y p w, fst (ext (add_result a j y p) w) = inr tt.
Hypothesis check_progress_returns :
  forall n w, fst (ext (check_progress n) w) = inr tt.
Hypothesis update_metrics_returns :
  forall w, fst (ext update_metrics w) = inr tt.

Lemma feed_one_returns (cfg : Config) (yr : list Label) (yp : list (list Label))
      (j i : nat) (s : State W) :
  (i < length yr)%nat -> (j < length yp)%nat ->
  (i < length (nth j yp []))%nat ->
  config s = cfg ->
  match fst (feed_one yr yp j i s) with
  | inl e => False
  | inr _ => config (snd (feed_one yr yp j i s)) = cfg
  end.
Proof using add_result_returns.
  intros Hi Hj Hij Hc. unfold feed_one, bind.
  rewrite (item_defined yr i 0 Hi). cbn [lift ret].
  rewrite (item_defined yp j [] Hj). cbn [lift ret].
  rewrite (item_defined (nth j yp []) i 0 Hij). cbn [lift ret].
  rewrite (call_returns (add_result MeanEval j (nth i yr 0)
                           (nth i (nth j yp []) 0)) s tt)
    by apply add_result_returns.
  rewrite (call_returns (add_result CurrentEval j (nth i yr 0)
                           (nth i (nth j yp []) 0)) _ tt)
    by apply add_result_returns.
  simpl. exact Hc.
Qed.

Lemma metrics_outcome (yr : list Label) (yp : list (list Label)) (s : State W) :
  (forall j, (j < n_models (config s))%nat ->
             (j < length yp)%nat /\
             (length (nth 0 yp []) <= length (nth j yp []))%nat) ->
  (length (nth 0 yp []) <= length yr)%nat ->
  match fst (_update_metrics_delayed yr yp s) with
  | inr _ => True
  | inl e => e = ZeroDivisionError /\ n_wait (config s) = 0 \/
             exists msg, e = OverflowError msg
  end.
Proof using add_result_returns check_progress_returns update_metrics_returns.
  intros Hrows Hyr. unfold _update_metrics_delayed.
  destruct (0 <? length yp)%nat eqn:Hlen; [|exact I].
  apply Nat.ltb_lt in Hlen.
  assert (Hfeed : match fst (feed_accumulators yr yp s) with
                  | inl e => False
                  | inr _ => config (snd (feed_accumulators yr yp s)) = config s
                  end).
  { unfold feed_accumulators, bind at 1, gets.
    apply (for_each_raises _ (fun s1 => config s1 = config s) (fun _ => False)
             (fun j => (j < n_models (config s))%nat)).
    - intros j s1 Hj Hc1. unfold bind.
      rewrite (item_defined yp 0 [] Hlen). cbn [lift ret].
      apply (for_each_raises _ (fun s2 => config s2 = config s)
               (fun _ => False)
               (fun i => (i < length (nth 0 yp []))%nat)).
      + intros i s3 Hi Hc3. destruct (Hrows j Hj) as [Hj1 Hj2].
        apply feed_one_returns; [lia|exact Hj1|lia|exact Hc3].
      + apply List.Forall_forall. intros i Hi. unfold range in Hi.
        apply List.in_seq in Hi. lia.
      + exact Hc1.
    - apply List.Forall_forall. intros j Hj. unfold range in Hj.
      apply List.in_seq in Hj. lia.
    - reflexivity. }
  unfold bind at 1.
  destruct (feed_accumulators yr yp s) as [[e1|u] s1]; simpl in Hfeed;
    [contradiction|].
  unfold bind at 1, gets. unfold bind at 1.
  rewrite (call_returns (check_progress (actual_max_samples s1)) s1 tt)
    by apply check_progress_returns.
  set (s2 := set_world _ _).
  assert (Hc2 : config s2 = config s) by exact Hfeed.
  unfold bind at 1.
  destruct (update_due s2) as [[e3|due] s3] eqn:Ed.
  { apply update_due_raises in Ed. destruct Ed as [_ Hd]. simpl.
    rewrite <- Hc2. exact Hd. }
  destruct due; [|exact I].
  unfold bind.
  rewrite (call_returns update_metrics s3 tt) by apply update_metrics_returns.
  exact I.
Qed.

End ReturningAccumulators.

(** X18.  When every queued row carries one prediction for each model, the
    drain never meets a ragged matrix: it returns, and the matrix it hands
    back is empty or has one row for each model, each as long as the column
    of released labels.  If the accumulators and the two helpers return
    whenever they are called, the metrics phase that follows never fails on
    an index: it returns, unless the division of its cadence test raises
    ([ZeroDivisionError] for [n_wait = 0], [OverflowError] for a quotient
    beyond the floats). *)
Theorem complete_rows_feed_without_index_error (s : State W) (q : list Row)
        (t : Time) :
  delay_queue s = Some q ->
  current_timestamp s = Some t ->
  rows_complete s ->
  (forall a j y p w, fst (ext (add_result a j y p) w) = inr tt) ->
  (forall n w, fst (ext (check_progress n) w) = inr tt) ->
  (forall w, fst (ext update_metrics w) = inr tt) ->
  exists ypd,
    _get_delayed_samples s =
      (inr (map rX (released t q), map y_real (released t q), ypd),
       set_delay_queue (Some (retained t q)) s) /\
    (ypd = [] \/
     length ypd = n_models (config s) /\
     Forall (fun row => length row = length (released t q)) ypd) /\
    match fst (_update_metrics_delayed (map y_real (released t q)) ypd
                 (set_delay_queue (Some (retained t q)) s)) with
    | inr _ => True
    | inl e => e = ZeroDivisionError /\ n_wait (config s) = 0 \/
               exists msg, e = OverflowError msg
    end.
Proof.
  intros Hq Ht Hrows Hadd Hprog Hupd.
  rewrite (drain_state s q t Hq Ht). unfold drained_columns.
  assert (Hall : Forall (fun l => length l = n_models (config s))
                        (map y_pred (released t q))).
  { specialize (Hrows q Hq). apply List.Forall_forall. intros l Hl.
    apply List.in_map_iff in Hl. destruct Hl as (r & <- & Hr).
    rewrite List.Forall_forall in Hrows. apply Hrows.
    apply List.filter_In in Hr. apply Hr. }
  destruct (released t q) as [|r0 rs] eqn:Hrel.
  { exists []. split; [reflexivity|]. split; [left; reflexivity|].
    exact I. }
  rewrite <- Hrel in *.
  assert (Hne : map y_pred (released t q) <> [])
    by (rewrite Hrel; discriminate).
  destruct (columns_shape _ _ Hne Hall) as (Hr & Hl & Hrow & _).
  unfold np_T. rewrite Hr.
  exists (columns (map y_pred (released t q))).
  rewrite List.length_map in Hrow.
  split; [reflexivity|]. split; [right; split; assumption|].
  pose proof (metrics_outcome Hadd Hprog Hupd (map y_real (released t q))
                (columns (map y_pred (released t q)))
                (set_delay_queue (Some (retained t q)) s)) as Hm.
  simpl config in Hm. apply Hm.
  - intros j Hj.
    assert (Hlen : forall k, (k < n_models (config s))%nat ->
              length (nth k (columns (map y_pred (released t q))) []) =
              length (released t q)).
    { intros k Hk. rewrite List.Forall_forall in Hrow. apply Hrow.
      apply List.nth_In. lia. }
    split; [lia|]. rewrite (Hlen j Hj), (Hlen 0%nat); lia.
  - rewrite List.length_map.
    destruct (columns (map y_pred (released t q))) as [|c0 cs] eqn:Ec;
      [simpl; lia|].
    simpl. inversion Hrow; subst. lia.
Qed.

(** ** A run with pre-training returns the models *)

Lemma queue_exists_same (s s' : State W) :
  queue_exists s -> same delay_queue s s' -> queue_exists s'.
Proof. unfold queue_exists, same. intros H E. rewrite E. exact H. Qed.

Lemma drain_queue_exists (s : State W) :
  queue_exists s -> queue_exists (snd (_get_delayed_samples s)).
Proof.
  intros Hs.
  destruct (delay_queue s) as [q|] eqn:Hq.
  2:{ unfold _get_delayed_samples, bind, get_delay_queue. rewrite Hq. exact Hs. }
  destruct (current_timestamp s) as [t|] eqn:Ht.
  2:{ unfold _get_delayed_samples, bind, get_delay_queue, get_current_timestamp.
      rewrite Hq. simpl. rewrite Ht. exact Hs. }
  rewrite (drain_state s q t Hq Ht). discriminate.
Qed.

Lemma enqueue_queue_exists Xo arr avail yr ypo (s : State W) :
  queue_exists s ->
  queue_exists (snd (_update_delayed_queue Xo arr avail yr ypo s)).
Proof.
  intros Hs.
  destruct Xo as [Xb|]; [|exact Hs]. destruct ypo as [yp|]; [|exact Hs].
  destruct (delay_queue s) as [q|] eqn:Hq.
  - rewrite (enqueue_state _ _ _ _ _ _ _ Hq). discriminate.
  - unfold _update_delayed_queue, bind, get_delay_queue. rewrite Hq. exact Hs.
Qed.

Lemma process_batch_queue_exists (b : Batch) (s : State W) :
  queue_exists s -> queue_exists (snd (process_batch b s)).
Proof.
  intros Hs. unfold process_batch, bind.
  pose proof (drain_queue_exists s Hs) as Hs1.
  destruct (_get_delayed_samples s) as [[e|[[Xd yd] ypd]] s1]; simpl in Hs1;
    [exact Hs1|].
  pose proof (metrics_keep_queue yd ypd s1) as H2.
  destruct (_update_metrics_delayed yd ypd s1) as [[e|u2] s2]; simpl in H2;
    pose proof (queue_exists_same _ _ Hs1 H2) as Hs2; [exact Hs2|].
  pose proof (classifiers_keep_queue Xd yd s2) as H3.
  destruct (_update_classifiers Xd yd s2) as [[e|u3] s3]; simpl in H3;
    pose proof (queue_exists_same _ _ Hs2 H3) as Hs3; [exact Hs3|].
  pose proof (predict_samples_keep_queue (bX b) s3) as H4.
  destruct (_predict_samples (bX b) s3) as [[e|ypo] s4]; simpl in H4;
    pose proof (queue_exists_same _ _ Hs3 H4) as Hs4; [exact Hs4|].
  pose proof (enqueue_queue_exists (bX b) (b_arrival_time b)
                (b_available_time b) (b_y b) ypo s4 Hs4) as Hs5.
  destruct (_update_delayed_queue (bX b) (b_arrival_time b) (b_available_time b)
              (b_y b) ypo s4) as [[e|u5] s5]; simpl in Hs5; [exact Hs5|].
  assert (H6 : keeps (same delay_queue)
                 (bind (call timer) (fun t => modify (set_end_time t))))
    by keeps_structure.
  specialize (H6 s5). unfold bind in H6.
  apply (queue_exists_same _ _ Hs5 H6).
Qed.

Lemma while_loop_queue_exists (fuel : nat) :
  forall (s : State W) r s',
    queue_exists s -> while_loop fuel s = Some (r, s') -> queue_exists s'.
Proof.
  induction fuel as [|fuel IH]; intros s r s' Hs H; simpl in H; [discriminate|].
  pose proof (loop_guard_keeps_queue s) as Hg.
  destruct (loop_guard s) as [[e|[|]] s1]; simpl in Hg;
    pose proof (queue_exists_same _ _ Hs Hg) as Hs1.
  - injection H as _ <-. exact Hs1.
  - assert (Hs2 : queue_exists (snd (loop_body s1))).
    { unfold loop_body, bind.
      pose proof (pull_batch_keeps_queue s1) as H1.
      destruct (pull_batch s1) as [[e|b] s1']; simpl in H1;
        pose proof (queue_exists_same _ _ Hs1 H1) as Hs1'; [exact Hs1'|].
      apply process_batch_queue_exists. exact Hs1'. }
    destruct (loop_body s1) as [[e|u] s2]; simpl in Hs2.
    + injection H as _ <-. exact Hs2.
    + eapply IH; [exact Hs2|exact H].
  - injection H as _ <-. exact Hs1.
Qed.

Lemma prologue_creates_queue (s s1 : State W) :
  prologue s = (inr tt, s1) ->
  0 < pretrain_size (config s) ->
  queue_exists s1.
Proof.
  intros H Hp.
  destruct (prologue_reaches_pretrain_test s)
    as [(e & s' & He & _)|(s0 & Hpr & Hc & _ & _)].
  { rewrite He in H. discriminate. }
  rewrite Hpr in H. clear Hpr.
  assert (Hgt : (pretrain_size (config s) >? 0) = true)
    by (rewrite Z.gtb_ltb; apply Z.ltb_lt; exact Hp).
  rewrite Hgt in H. unfold bind at 1 in H.
  destruct (pretrain s0) as [[e|u] s2] eqn:E; [discriminate|].
  unfold bind, modify, print in H. injection H as <-.
  unfold queue_exists. simpl.
  unfold pretrain, bind, print, modify, gets, call in E. simpl in E.
  destruct (ext (stream_next_sample (pretrain_size (config s0))) (world s0))
    as [[e|b] w]; simpl in E; [discriminate|].
  match type of E with
  | context [for_each ?l ?f ?st] => destruct (for_each l f st) as [[e|u'] s3]
  end; simpl in E; [discriminate|].
  destruct (last_item (b_arrival_time b)) as [e|t]; simpl in E;
    [discriminate|].
  unfold _sort_delay_queue, bind, get_delay_queue, modify in E. simpl in E.
  injection E as _ <-. discriminate.
Qed.

(** X19.  With pre-training, and a NumPy that reads the subscript of the
    flush as a tuple, a run ends by returning the models, whatever happens
    in the iterations of the loop: if the part before the loop went through
    with a positive [pretrain_size], [batch_size] is positive, the stream
    answers [has_more_samples] without raising and the three closing calls
    return, then [_train_and_test] returns [self.model]. *)
Theorem run_with_pretraining_returns_models (s s1 : State W) :
  np_list_index = ReadAsTuple ->
  prologue s = (inr tt, s1) ->
  0 < pretrain_size (config s) ->
  0 < batch_size (config s) ->
  (forall w, exists more w', ext stream_has_more_samples w = (inr more, w')) ->
  (forall w, fst (ext flush_file_buffer w) = inr tt) ->
  (forall w, fst (ext evaluation_summary w) = inr tt) ->
  (forall w, fst (ext stream_restart w) = inr tt) ->
  exists fuel s', _train_and_test fuel s = Some (inr (model (config s)), s').
Proof.
  intros Hread Hp Hpre Hbs Hmore Hflush Hsum Hrestart.
  assert (Hc1 : config s1 = config s).
  { pose proof (prologue_count s) as Hk. rewrite Hp in Hk. apply Hk. }
  assert (Hq1 : queue_exists s1) by (eapply prologue_creates_queue; eassumption).
  set (n := S (Z.to_nat (actual_max_samples s1 - global_sample_count s1))).
  destruct (while_loop_ends n s1) as [[r s2] Hw];
    [rewrite Hc1; exact Hbs|subst n; lia|].
  assert (Hr : r = inr tt).
  { destruct r as [e|[]]; [|reflexivity].
    destruct (while_loop_raise_inv _ _ _ _ Hw) as (s0 & He & _).
    destruct (Hmore (world s0)) as (more & w' & He'). congruence. }
  subst r.
  assert (Hc2 : config s2 = config s1) by apply (while_loop_count _ _ _ _ Hw).
  pose proof (while_loop_queue_exists _ _ _ _ Hq1 Hw) as Hq2.
  destruct (delay_queue s2) as [q2|] eqn:Eq2; [|exfalso; apply Hq2; exact Eq2].
  destruct (draining_returns s2 q2 Hread Eq2) as (m & s3 & Hd);
    [rewrite Hc2, Hc1; exact Hbs|].
  destruct (draining_frame _ _ _ _ _ Eq2 Hd) as (_ & Hs3 & _).
  assert (Hc3 : config s3 = config s2) by (rewrite Hs3; reflexivity).
  destruct (epilogue_returns s3 Hflush Hsum Hrestart) as (s4 & He & _).
  exists (Nat.max n m), s4. unfold _train_and_test. rewrite Hp.
  rewrite (while_loop_more_fuel n (Nat.max n m) s1 _ Hw) by lia.
  rewrite (draining_more_fuel m (Nat.max n m) s2 _ Hd) by lia.
  rewrite He, Hc3, Hc2, Hc1. reflexivity.
Qed.

End Evaluator.

(** * The concrete sorts *)

Lemma insert_row_perm (r : Row) (l : list Row) :
  Permutation (Demo.insert_row r l) (r :: l).
Proof.
  induction l as [|x l IH]; simpl; [reflexivity|].
  destruct (available_time r <=? available_time x); [reflexivity|].
  rewrite IH. apply perm_swap.
Qed.

Lemma insert_row_sorted (r : Row) (l : list Row) :
  StronglySorted (fun a b => available_time a <= available_time b) l ->
  StronglySorted (fun a b => available_time a <= available_time b)
                 (Demo.insert_row r l).
Proof.
  induction l as [|x l IH]; intros Hs; simpl.
  - constructor; constructor.
  - apply StronglySorted_inv in Hs. destruct Hs as [Hs Hx].
    destruct (available_time r <=? available_time x) eqn:E.
    + apply Z.leb_le in E. constructor.
      * constructor; assumption.
      * constructor; [exact E|].
        eapply List.Forall_impl; [|exact Hx]. intros b Hb. simpl in Hb. lia.
    + apply Z.leb_gt in E. constructor; [apply IH; exact Hs|].
      apply List.Forall_forall. intros b Hb.
      apply (Permutation_in _ (insert_row_perm r l)) in Hb.
      destruct Hb as [<-|Hb]; [lia|].
      rewrite List.Forall_forall in Hx. apply Hx. exact Hb.
Qed.

Lemma stable_sort_sorts : sorts_by_available_time Demo.stable_sort.
Proof.
  intros l. unfold Demo.stable_sort. induction l as [|r l [IHp IHs]]; simpl.
  - split; constructor.
  - split.
    + rewrite insert_row_perm. constructor. exact IHp.
    + apply insert_row_sorted. exact IHs.
Qed.

Lemma insert_row_filter (t : Time) (r : Row) (l : list Row) :
  List.filter (fun x => available_time x =? t) (Demo.insert_row r l) =
  List.filter (fun x => available_time x =? t) (r :: l).
Proof.
  induction l as [|x l IH]; [reflexivity|].
  cbn [Demo.insert_row].
  destruct (available_time r <=? available_time x) eqn:E; [reflexivity|].
  apply Z.leb_gt in E.
  cbn [List.filter]. cbn [List.filter] in IH. rewrite IH.
  destruct (available_time r =? t) eqn:Er; [|reflexivity].
  apply Z.eqb_eq in Er.
  destruct (available_time x =? t) eqn:Ex; [|reflexivity].
  apply Z.eqb_eq in Ex. lia.
Qed.

Lemma stable_sort_is_stable : stable_on_ties Demo.stable_sort.
Proof.
  intros l t. unfold Demo.stable_sort. induction l as [|r l IH]; [reflexivity|].
  cbn [fold_right]. rewrite insert_row_filter.
  cbn [List.filter]. rewrite IH. reflexivity.
Qed.

Lemma stable_sort_keeps_ties : keeps_ties_in_place Demo.stable_sort.
Proof. apply stable_keeps_ties_in_place. exact stable_sort_is_stable. Qed.

(** * The constructor and the caller's list *)

Lemma alloc_fresh (v : list string) (h : gmap nat (list string)) :
  h !! fst (Init.alloc v h) = None /\
  snd (Init.alloc v h) !! fst (Init.alloc v h) = Some v /\
  forall l, l <> fst (Init.alloc v h) -> snd (Init.alloc v h) !! l = h !! l.
Proof.
  unfold Init.alloc. simpl. split; [|split].
  - apply not_elem_of_dom. apply is_fresh.
  - apply lookup_insert_eq.
  - intros l Hl. apply lookup_insert_ne. congruence.
Qed.

(** C10.  With [data_points_for_classification=True]: when [metrics] is a
    list, the evaluator keeps a reference to that very list object and the
    object has the data-points constant appended, so the caller's list has
    changed, and no other object has; when [metrics] is [None], the
    evaluator refers to a new list object that holds the data-points
    constant only, and no object that existed before has changed. *)
Theorem init_appends_to_callers_list (a : Init.Args) (h : gmap nat (list string)) :
  Init.a_data_points_for_classification a = true ->
  (forall l ms,
      Init.a_metrics a = Init.MetricsList l ->
      h !! l = Some ms ->
      exists e h',
        Init.__init__ a h = inr (e, h') /\
        Init.metrics e = l /\
        h' !! l = Some (ms ++ [DATA_POINTS]) /\
        forall l', l' <> l -> h' !! l' = h !! l')
  /\ (Init.a_metrics a = Init.MetricsNone ->
      exists e h',
        Init.__init__ a h = inr (e, h') /\
        h !! Init.metrics e = None /\
        h' !! Init.metrics e = Some [DATA_POINTS] /\
        forall l', l' <> Init.metrics e -> h' !! l' = h !! l').
Proof.
  intros Hdp. split.
  - intros l ms Hm Hl. unfold Init.__init__. rewrite Hdp, Hm. simpl.
    eexists. eexists. split; [reflexivity|]. simpl. split; [reflexivity|].
    unfold Init.append. split.
    + rewrite lookup_alter_eq, Hl. reflexivity.
    + intros l' Hne. apply lookup_alter_ne. congruence.
  - intros Hm. unfold Init.__init__. rewrite Hdp, Hm. simpl.
    destruct (alloc_fresh [DATA_POINTS] h) as (Hf & Hnew & Hold).
    destruct (Init.alloc [DATA_POINTS] h) as [l h'] eqn:E. simpl in *.
    unfold Init.alloc in E. injection E as El Eh.
    exists (Init.build a l), h'. split; [rewrite <- El, <- Eh; reflexivity|]. simpl.
    split; [exact Hf|]. split; [exact Hnew|exact Hold].
Qed.

(** * The theorems at work on the concrete collaborators *)

Lemma no_label_leakage_witness :
  sorts_by_available_time Demo.stable_sort /\
  let s := snd (prologue Demo.World (Demo.ext Demo.Sound) Demo.stable_sort (Demo.start 2)) in
  queue_recorded Demo.World s /\
  match while_loop Demo.World (Demo.ext Demo.Sound) Demo.stable_sort Demo.ragged 20 s with
  | Some (_, s') =>
      queue_recorded Demo.World s' /\
      exists new,
        trace s' = new ++ trace s /\
        forall later i Xo yd c earlier,
          new = later ++ EvCall (model_partial_fit i Xo yd c) :: earlier ->
          exists rs,
            Xo = Some (map rX rs) /\ yd = map y_real rs /\
            forall r j, In r rs -> (j < n_models (config s))%nat ->
                        exists Xb,
                          In (EvCall (model_predict j Xb)) (earlier ++ trace s) /\
                          In (rX r) Xb
  | None => False
  end.
Proof.
  split; [exact stable_sort_sorts|]. intro s.
  assert (Hrec : queue_recorded Demo.World s).
  { intros q Hq. vm_compute in Hq. injection Hq as <-. constructor. }
  split; [exact Hrec|].
  destruct (while_loop Demo.World (Demo.ext Demo.Sound) Demo.stable_sort Demo.ragged 20 s)
    as [[r s']|] eqn:E.
  - exact (proj1 (no_label_leakage Demo.World (Demo.ext Demo.Sound) Demo.stable_sort
                    Demo.ragged stable_sort_sorts) 20%nat s r s' Hrec E).
  - vm_compute in E. discriminate E.
Defined.

Lemma drain_correct_witness :
  delay_queue Demo.midway = Some [Demo.rowA; Demo.rowC; Demo.rowB] /\
  current_timestamp Demo.midway = Some 5 /\
  let out := _get_delayed_samples Demo.World Demo.ragged Demo.midway in
  delay_queue (snd out) = Some [Demo.rowC] /\
  fst out = inr ([[1]; [2]], [0; 1], [[0; 0]; [1; 1]]) /\
  _get_delayed_samples Demo.World Demo.ragged (snd out) = (inr ([], [], []), snd out).
Proof.
  split; [reflexivity|]. split; [reflexivity|].
  pose proof (drain_correct Demo.World Demo.ragged Demo.midway
                [Demo.rowA; Demo.rowC; Demo.rowB] 5 eq_refl eq_refl) as H.
  cbv zeta in H. destruct H as (H1 & H2 & _ & _ & _ & _ & H7).
  intro out. split; [exact H1|]. split; [exact H2|exact H7].
Defined.

(** With a sort that leaves ties in place, an insertion sort for instance,
    rows with the same [available_time] are drained in the order in which
    they were enqueued. *)
Lemma tie_order_rests_on_the_sort_witness :
  keeps_ties_in_place Demo.stable_sort /\
  ties_drain_in_insertion_order Demo.World Demo.stable_sort Demo.ragged.
Proof.
  split; [exact stable_sort_keeps_ties|].
  exact (proj2 (tie_order_rests_on_the_sort Demo.World Demo.stable_sort
                  Demo.ragged Demo.midway) stable_sort_keeps_ties).
Defined.



(** Python's [/] on integers hands back the nearest float: a third is
    rounded at the 53rd bit, and half of [2^54 + 1] is [2^53]. *)
Lemma true_divide_rounds_to_nearest :
  true_divide 1 3 = inr (6004799503160661 # Z.to_pos (2 ^ 54)) /\
  true_divide 5 2 = inr (5 * 2 ^ 50 # Z.to_pos (2 ^ 51)) /\
  true_divide (2 ^ 54 + 1) 2 = inr (inject_Z (2 ^ 53)) /\
  true_divide (2 ^ 54 + 3) 2 = inr (inject_Z (2 ^ 53 + 2)).
Proof. repeat split; vm_compute; reflexivity. Qed.

(** Beyond [2^53] the float quotient decides differently from the exact
    one.  With a count of [2^54 + 1], [n_wait = 2] and [2^53 - 1] updates
    made, the exact quotient [2^53 + 1/2] exceeds [update_count + 1], but
    the float quotient is [2^53] and does not: the accumulators are fed and
    no update is triggered. *)
Lemma float_quotient_misses_update :
  let s := Demo.long_run in
  let s' := snd (_update_metrics_delayed Demo.World (Demo.ext Demo.Sound)
                   [0; 1] [[0; 0]; [1; 1]] s) in
  update_amended Demo.World s /\
  ~ update_coded Demo.World s /\
  _update_metrics_delayed Demo.World (Demo.ext Demo.Sound) [0; 1] [[0; 0]; [1; 1]] s
    = (inr tt, s') /\
  updates (trace s') = updates (trace s) /\
  update_count s' = update_count s.
Proof.
  intros s s'.
  split; [right; right; vm_compute; reflexivity|].
  split.
  - intros [H|[H|(x & Hx & Hlt)]].
    + vm_compute in H. discriminate.
    + vm_compute in H. apply H. reflexivity.
    + assert (Hd : true_divide (global_sample_count s) (n_wait (config s)) =
                   inr (inject_Z (2 ^ 53))) by (vm_compute; reflexivity).
      rewrite Hd in Hx. injection Hx as <-.
      vm_compute in Hlt. discriminate.
  - split; [vm_compute; reflexivity|].
    split; vm_compute; reflexivity.
Qed.

Lemma sample_count_budget_witness :
  match _train_and_test Demo.World (Demo.ext Demo.Sound) Demo.stable_sort Demo.ragged
                        ReadAsTuple 20 (Demo.start 2) with
  | Some (_, s') =>
      global_sample_count s' <=
        Z.max (global_sample_count (Demo.start 2)
               + Z.max 0 (pretrain_size (config (Demo.start 2))))
              (actual_max_samples s' + batch_size (config (Demo.start 2)) - 1)
  | None => False
  end.
Proof.
  destruct (_train_and_test Demo.World (Demo.ext Demo.Sound) Demo.stable_sort Demo.ragged
                            ReadAsTuple 20 (Demo.start 2)) as [[r s']|] eqn:E.
  - exact (proj2 (proj2 (proj2 (sample_count_budget Demo.World (Demo.ext Demo.Sound)
                                  Demo.stable_sort Demo.ragged ReadAsTuple)))
                 20%nat (Demo.start 2) r s' E).
  - vm_compute in E. discriminate E.
Defined.

(** The claim C5 as it stands fails when the pre-training block alone takes
    the count beyond the budget: with [pretrain_size = 8], [max_samples = 6]
    and [batch_size = 2] the run ends, without any iteration of the loop,
    with a count of 8 against a budget of 6. *)
Lemma pretrain_overshoots_budget :
  match _train_and_test Demo.World (Demo.ext Demo.Sound) Demo.stable_sort Demo.ragged
                        ReadAsTuple 20 (Demo.start 8) with
  | Some (inr _, s') =>
      global_sample_count s' = 8 /\
      actual_max_samples s' = 6 /\
      batch_size (config s') = 2 /\
      ~ (global_sample_count s' <=
         actual_max_samples s' + batch_size (config s') - 1)
  | _ => False
  end.
Proof. vm_compute. repeat split. intros H. apply H. reflexivity. Qed.

Lemma watermark_assignment_witness :
  sorts_by_available_time Demo.stable_sort /\
  (let s := Demo.start 2 in
   let s' := snd (pretrain Demo.World (Demo.ext Demo.Sound) Demo.stable_sort s) in
   pretrain Demo.World (Demo.ext Demo.Sound) Demo.stable_sort s = (inr tt, s') /\
   b_arrival_time (Demo.batch_of (map Demo.sample [1; 2])) = [1; 2] /\
   current_timestamp s' = Some 2 /\
   delay_queue s' = Some []) /\
  (let s := Demo.midway in
   let b := Demo.batch_of (map Demo.sample [7; 8]) in
   let w := {| Demo.pending := map Demo.sample [9; 10]; Demo.clock := 5 |} in
   Demo.ext Demo.Sound (stream_next_sample (batch_size (config s))) (world s)
     = (inr b, w) /\
   b_arrival_time b = [7] ++ [8] /\
   exists s1,
     loop_body Demo.World (Demo.ext Demo.Sound) Demo.stable_sort Demo.ragged s =
       process_batch Demo.World (Demo.ext Demo.Sound) Demo.stable_sort
                     Demo.ragged b s1 /\
     current_timestamp s1 = Some 8 /\
     trace s1 = EvCall (stream_next_sample (batch_size (config s))) :: trace s /\
     world s1 = w /\
     delay_queue s1 = delay_queue s /\
     counters Demo.World s1 = counters Demo.World s /\
     (forall q, delay_queue s = Some q ->
                _get_delayed_samples Demo.World Demo.ragged s1 =
                  (drained_columns Demo.ragged (released 8 q),
                   set_delay_queue (Some (retained 8 q)) s1)) /\
     current_timestamp
       (snd (loop_body Demo.World (Demo.ext Demo.Sound) Demo.stable_sort
               Demo.ragged s)) = Some 8).
Proof.
  split; [exact stable_sort_sorts|]. split.
  - intros s s'.
    assert (H : pretrain Demo.World (Demo.ext Demo.Sound) Demo.stable_sort s =
                (inr tt, s')) by (vm_compute; reflexivity).
    split; [exact H|]. split; [reflexivity|].
    destruct (proj1 (watermark_assignment Demo.World (Demo.ext Demo.Sound)
                       Demo.stable_sort Demo.ragged stable_sort_sorts) s s' H)
      as (b & w & earlier & t & He & Ha & Ht & Hq).
    cbn in He. injection He as <- _.
    assert (Hlast : [1] ++ [2] = earlier ++ [t]) by exact Ha.
    apply List.app_inj_tail in Hlast. destruct Hlast as [_ <-].
    split; [exact Ht|exact Hq].
  - intros s b w.
    assert (He : Demo.ext Demo.Sound
                   (stream_next_sample (batch_size (config s))) (world s) =
                 (inr b, w)) by reflexivity.
    assert (Ha : b_arrival_time b = [7] ++ [8]) by reflexivity.
    split; [exact He|]. split; [exact Ha|].
    exact (proj2 (watermark_assignment Demo.World (Demo.ext Demo.Sound)
                    Demo.stable_sort Demo.ragged stable_sort_sorts)
                 s b w [7] 8 He Ha).
Defined.


Lemma draining_only_shrinks_queue_witness :
  let sorted := [Demo.rowA; Demo.rowB; Demo.rowC] in
  delay_queue Demo.midway = Some [Demo.rowA; Demo.rowC; Demo.rowB] /\
  0 < batch_size (config Demo.midway) /\
  (draining Demo.World Demo.stable_sort ReadAsArray 5 Demo.midway =
     Some (inl (KeyError "not found in axis"),
           set_delay_queue (Some sorted) Demo.midway) /\
   trace (set_delay_queue (Some sorted) Demo.midway) = trace Demo.midway /\
   world (set_delay_queue (Some sorted) Demo.midway) = world Demo.midway) /\
  (draining Demo.World Demo.stable_sort ReadAsTuple 5 Demo.midway =
     Some (inr tt, set_delay_queue (Some [Demo.rowC]) Demo.midway) /\
   trace (set_delay_queue (Some [Demo.rowC]) Demo.midway) = trace Demo.midway /\
   world (set_delay_queue (Some [Demo.rowC]) Demo.midway) = world Demo.midway) /\
  exists fuel out,
    draining Demo.World Demo.stable_sort ReadAsArray fuel Demo.midway = Some out.
Proof.
  intros sorted.
  assert (Hq : delay_queue Demo.midway = Some [Demo.rowA; Demo.rowC; Demo.rowB])
    by reflexivity.
  assert (Hbs : 0 < batch_size (config Demo.midway)) by reflexivity.
  assert (Harray : draining Demo.World Demo.stable_sort ReadAsArray 5 Demo.midway =
                   Some (inl (KeyError "not found in axis"),
                         set_delay_queue (Some sorted) Demo.midway))
    by (vm_compute; reflexivity).
  assert (Htuple : draining Demo.World Demo.stable_sort ReadAsTuple 5 Demo.midway =
                   Some (inr tt, set_delay_queue (Some [Demo.rowC]) Demo.midway))
    by (vm_compute; reflexivity).
  destruct (draining_only_shrinks_queue Demo.World Demo.stable_sort ReadAsArray
              Demo.midway) as [Hframe Hterm].
  destruct (Hframe 5%nat _ _ Harray) as (Htr & Hw & _).
  destruct (proj1 (draining_only_shrinks_queue Demo.World Demo.stable_sort
                     ReadAsTuple Demo.midway) 5%nat _ _ Htuple)
    as (Htr' & Hw' & _).
  split; [exact Hq|]. split; [exact Hbs|].
  split; [split; [exact Harray|split; [exact Htr|exact Hw]]|].
  split; [split; [exact Htuple|split; [exact Htr'|exact Hw']]|].
  exact (Hterm Hbs).
Defined.

Lemma init_appends_to_callers_list_witness :
  let a := Demo.args (Init.MetricsList 0) in
  let h : gmap nat (list string) := {[ 0%nat := [ACCURACY] ]} in
  Init.a_data_points_for_classification a = true /\
  Init.a_metrics a = Init.MetricsList 0 /\
  h !! 0%nat = Some [ACCURACY] /\
  exists e h',
    Init.__init__ a h = inr (e, h') /\
    Init.metrics e = 0%nat /\
    h' !! 0%nat = Some ([ACCURACY] ++ [DATA_POINTS]) /\
    forall l', l' <> 0%nat -> h' !! l' = h !! l'.
Proof.
  intros a h.
  assert (H1 : Init.a_data_points_for_classification a = true) by reflexivity.
  assert (H2 : Init.a_metrics a = Init.MetricsList 0) by reflexivity.
  assert (H3 : h !! 0%nat = Some [ACCURACY]) by apply lookup_singleton_eq.
  split; [exact H1|]. split; [exact H2|]. split; [exact H3|].
  exact (proj1 (init_appends_to_callers_list a h H1) 0%nat [ACCURACY] H2 H3).
Defined.

(** * A run without pre-training *)

(** C7 at [pretrain_size = 0].  The pre-training block, the only place
    where the delay queue is created, is skipped.  The first iteration
    raises [AttributeError] when it reads the queue; the loop catches and
    prints it and stops.  The flush after the loop then reads the queue
    again, and this second [AttributeError] leaves [_train_and_test]: the
    file buffer is not flushed, no summary is emitted, the stream is not
    restarted and no models are returned. *)
Theorem run_without_pretraining_raises (reading : ListIndex) :
  option_map (fun out => (fst out, trace (snd out)))
             (_train_and_test Demo.World (Demo.ext Demo.Sound) Demo.stable_sort
                              Demo.ragged reading 20 (Demo.start 0))
  = Some (inl (AttributeError "delay_queue"),
          [EvPrintExn (AttributeError "delay_queue");
           EvCall (stream_next_sample 2);
           EvCall stream_has_more_samples;
           EvPrint "Evaluating...";
           EvCall stream_n_remaining_samples;
           EvPrint "Evaluating {} target(s).";
           EvPrint "Prequential Evaluation Delayed";
           EvCall timer;
           EvCall timer]).
Proof. destruct reading; vm_compute; reflexivity. Qed.


(** * More about the constructor *)

(** X1.  Without the data-points mode the constructor changes no list
    object.  A list passed as [metrics] is kept by reference, as it is: the
    evaluator and the caller hold the same object.  With [None] the
    evaluator refers to a new object holding accuracy and kappa, and no
    object that existed before has changed. *)
Theorem init_keeps_callers_list (a : Init.Args) (h : gmap nat (list string)) :
  Init.a_data_points_for_classification a = false ->
  (forall l,
      Init.a_metrics a = Init.MetricsList l ->
      Init.__init__ a h = inr (Init.build a l, h))
  /\ (Init.a_metrics a = Init.MetricsNone ->
      exists e h',
        Init.__init__ a h = inr (e, h') /\
        e = Init.build a (Init.metrics e) /\
        h !! Init.metrics e = None /\
        h' !! Init.metrics e = Some [ACCURACY; KAPPA] /\
        forall l', l' <> Init.metrics e -> h' !! l' = h !! l').
Proof.
  intros Hdp. split.
  - intros l Hm. unfold Init.__init__. rewrite Hdp, Hm. reflexivity.
  - intros Hm. unfold Init.__init__. rewrite Hdp, Hm. simpl.
    destruct (alloc_fresh [ACCURACY; KAPPA] h) as (Hf & Hnew & Hold).
    unfold Init.alloc in *. simpl in *.
    eexists. eexists. split; [reflexivity|]. simpl.
    split; [reflexivity|]. split; [exact Hf|]. split; [exact Hnew|exact Hold].
Qed.

Lemma init_keeps_callers_list_witness :
  let a := {| Init.a_n_wait := 200; Init.a_max_samples := 100000;
              Init.a_batch_size := 1; Init.a_pretrain_size := 200;
              Init.a_max_time := None; Init.a_metrics := Init.MetricsList 0;
              Init.a_output_file := None; Init.a_show_plot := false;
              Init.a_restart_stream := true;
              Init.a_data_points_for_classification := false |} in
  let h : gmap nat (list string) := {[ 0%nat := [KAPPA] ]} in
  Init.a_data_points_for_classification a = false /\
  Init.a_metrics a = Init.MetricsList 0 /\
  Init.__init__ a h = inr (Init.build a 0, h).
Proof.
  intros a h.
  assert (H1 : Init.a_data_points_for_classification a = false) by reflexivity.
  assert (H2 : Init.a_metrics a = Init.MetricsList 0) by reflexivity.
  split; [exact H1|]. split; [exact H2|].
  exact (proj1 (init_keeps_callers_list a h H1) 0%nat H2).
Defined.

(** ** The further properties at concrete inputs *)

Lemma enqueue_sorts_queue_witness :
  sorts_by_available_time Demo.stable_sort /\
  delay_queue Demo.midway = Some [Demo.rowA; Demo.rowC; Demo.rowB] /\
  exists q',
    _update_delayed_queue Demo.World Demo.stable_sort (Some [[7]; [8]])
      [7; 8] [10; 11] [1; 0] (Some [[0; 1]; [0; 1]]) Demo.midway =
      (inr tt, set_delay_queue (Some q') Demo.midway) /\
    Permutation q' ([Demo.rowA; Demo.rowC; Demo.rowB]
                      ++ zip_rows [[7]; [8]] [1; 0] [[0; 1]; [0; 1]]
                                  [7; 8] [10; 11]) /\
    by_available_time q' /\
    length q' = 5%nat.
Proof.
  split; [exact stable_sort_sorts|]. split; [reflexivity|].
  exact (enqueue_sorts_queue Demo.World Demo.stable_sort stable_sort_sorts
           Demo.midway [Demo.rowA; Demo.rowC; Demo.rowB] [[7]; [8]]
           [7; 8] [10; 11] [1; 0] [[0; 1]; [0; 1]] eq_refl).
Defined.

Lemma drain_takes_prefix_witness :
  let q := [Demo.rowA; Demo.rowB; Demo.rowC] in
  let s := set_delay_queue (Some q) Demo.midway in
  delay_queue s = Some q /\
  current_timestamp s = Some 5 /\
  by_available_time q /\
  _get_delayed_samples Demo.World Demo.ragged s =
    (drained_columns Demo.ragged [Demo.rowA; Demo.rowB],
     set_delay_queue (Some [Demo.rowC]) s) /\
  by_available_time [Demo.rowA; Demo.rowB] /\
  by_available_time [Demo.rowC].
Proof.
  intros q s.
  assert (Hs : by_available_time q)
    by exact (proj2 (stable_sort_sorts [Demo.rowA; Demo.rowB; Demo.rowC])).
  split; [reflexivity|]. split; [reflexivity|]. split; [exact Hs|].
  pose proof (drain_takes_prefix Demo.World Demo.ragged s q 5
                eq_refl eq_refl Hs) as H.
  cbv zeta in H. destruct H as (H1 & _ & H3 & H4).
  split; [exact H1|]. split; [exact H3|exact H4].
Defined.

Lemma queue_stays_sorted_witness :
  let s := set_delay_queue (Some [Demo.rowA; Demo.rowB; Demo.rowC]) Demo.midway in
  sorts_by_available_time Demo.stable_sort /\
  queue_sorted Demo.World s /\
  queue_sorted Demo.World
    (snd (loop_body Demo.World (Demo.ext Demo.Sound) Demo.stable_sort
            Demo.ragged s)).
Proof.
  intros s.
  assert (Hs : queue_sorted Demo.World s).
  { intros q E. injection E as <-.
    exact (proj2 (stable_sort_sorts [Demo.rowA; Demo.rowB; Demo.rowC])). }
  split; [exact stable_sort_sorts|]. split; [exact Hs|].
  exact (proj1 (proj2 (queue_stays_sorted Demo.World (Demo.ext Demo.Sound)
                         Demo.stable_sort Demo.ragged stable_sort_sorts))
               s Hs).
Defined.

Lemma run_terminates_witness :
  0 < batch_size (config (Demo.start 2)) /\
  exists fuel out,
    _train_and_test Demo.World (Demo.ext Demo.Sound) Demo.stable_sort
                    Demo.ragged ReadAsArray fuel (Demo.start 2) = Some out.
Proof.
  assert (H : 0 < batch_size (config (Demo.start 2))) by reflexivity.
  split; [exact H|].
  exact (proj2 (run_terminates Demo.World (Demo.ext Demo.Sound)
                  Demo.stable_sort Demo.ragged ReadAsArray (Demo.start 2) H)).
Defined.

Lemma flush_leaves_last_rows_witness :
  let q := [Demo.rowA; Demo.rowC; Demo.rowB] in
  sorts_by_available_time Demo.stable_sort /\
  delay_queue Demo.midway = Some q /\
  q <> [] /\
  0 < batch_size (config Demo.midway) /\
  (exists fuel dropped rest,
     draining Demo.World Demo.stable_sort ReadAsTuple fuel Demo.midway =
       Some (inr tt, set_delay_queue (Some rest) Demo.midway) /\
     Demo.stable_sort q = dropped ++ rest /\
     (exists k, length dropped = (k * 2)%nat) /\
     (1 <= length rest <= 2)%nat /\
     (forall x y, In x dropped -> In y rest ->
                  available_time x <= available_time y)) /\
  draining Demo.World Demo.stable_sort ReadAsArray 1 Demo.midway =
    Some (inl (KeyError "not found in axis"),
          set_delay_queue (Some [Demo.rowA; Demo.rowB; Demo.rowC]) Demo.midway).
Proof.
  intros q.
  assert (Hne : q <> []) by discriminate.
  assert (Hbs : 0 < batch_size (config Demo.midway)) by reflexivity.
  split; [exact stable_sort_sorts|]. split; [reflexivity|].
  split; [exact Hne|]. split; [exact Hbs|]. split.
  - exact (proj1 (flush_leaves_last_rows Demo.World Demo.stable_sort ReadAsTuple
                    Demo.midway q stable_sort_sorts eq_refl Hne Hbs) eq_refl).
  - exact (proj2 (flush_leaves_last_rows Demo.World Demo.stable_sort ReadAsArray
                    Demo.midway q stable_sort_sorts eq_refl Hne Hbs) eq_refl).
Defined.

Lemma iteration_conserves_rows_witness :
  let b := Demo.batch_of (map Demo.sample [7; 8]) in
  let q := [Demo.rowA; Demo.rowC; Demo.rowB] in
  let s' := snd (process_batch Demo.World (Demo.ext Demo.Sound)
                   Demo.stable_sort Demo.ragged b Demo.midway) in
  process_batch Demo.World (Demo.ext Demo.Sound) Demo.stable_sort Demo.ragged
                b Demo.midway = (inr tt, s') /\
  exists Xb yp q' s3 s4,
    bX b = Some Xb /\
    _predict_samples Demo.World (Demo.ext Demo.Sound) Demo.ragged (Some Xb) s3 =
      (inr (Some yp), s4) /\
    delay_queue s' = Some q' /\
    Permutation (released 5 q ++ q')
                (q ++ zip_rows Xb (b_y b) yp (b_arrival_time b)
                        (b_available_time b)).
Proof.
  intros b q s'.
  assert (H : process_batch Demo.World (Demo.ext Demo.Sound) Demo.stable_sort
                Demo.ragged b Demo.midway = (inr tt, s'))
    by (vm_compute; reflexivity).
  split; [exact H|].
  exact (iteration_conserves_rows Demo.World (Demo.ext Demo.Sound)
           Demo.stable_sort Demo.ragged b Demo.midway s' q 5
           stable_sort_sorts eq_refl eq_refl H).
Defined.

Lemma idle_iteration_only_predicts_witness :
  let b := Demo.batch_of (map Demo.sample [7; 8]) in
  let s := set_delay_queue (Some [Demo.rowC]) Demo.midway in
  (forall r, In r [Demo.rowC] -> available_time r > 5) /\
  trace (snd (process_batch Demo.World (Demo.ext Demo.Sound) Demo.stable_sort
                Demo.ragged b s)) =
    [ EvCall timer;
      EvCall (running_time 1 compute_testing_time_end);
      EvCall (model_predict 1 [[7]; [8]]);
      EvCall (running_time 1 compute_testing_time_begin);
      EvCall (running_time 0 compute_testing_time_end);
      EvCall (model_predict 0 [[7]; [8]]);
      EvCall (running_time 0 compute_testing_time_begin) ].
Proof.
  intros b s.
  assert (H : forall r, In r [Demo.rowC] -> available_time r > 5).
  { intros r [<-|[]]. reflexivity. }
  split; [exact H|].
  rewrite (idle_iteration_only_predicts Demo.World (Demo.ext Demo.Sound)
             Demo.stable_sort Demo.ragged b s [Demo.rowC] 5 eq_refl eq_refl H).
  vm_compute. reflexivity.
Defined.

Lemma training_round_witness :
  let s' := snd (_update_classifiers Demo.World (Demo.ext Demo.Sound)
                   [[1]; [2]] [0; 1] Demo.midway) in
  _update_classifiers Demo.World (Demo.ext Demo.Sound) [[1]; [2]] [0; 1]
                      Demo.midway = (inr tt, s') /\
  trace s' =
    rounds 2 (fit_calls 2 (Some [[1]; [2]]) [0; 1] NoClasses)
      ++ trace Demo.midway /\
  attributes Demo.World s' =
    attributes Demo.World (set_first_run false Demo.midway).
Proof.
  intros s'.
  assert (H : _update_classifiers Demo.World (Demo.ext Demo.Sound)
                [[1]; [2]] [0; 1] Demo.midway = (inr tt, s'))
    by (vm_compute; reflexivity).
  assert (Hne : [[1]; [2]] <> ([] : list Feat)) by discriminate.
  split; [exact H|].
  exact (proj2 (training_round Demo.World (Demo.ext Demo.Sound)
                  [[1]; [2]] [0; 1] Demo.midway s' H) Hne).
Defined.

Lemma metrics_round_witness :
  let yr := [0; 1] in
  let yp := [[0; 0]; [1; 1]] in
  let s' := snd (_update_metrics_delayed Demo.World (Demo.ext Demo.Sound)
                   yr yp Demo.midway) in
  _update_metrics_delayed Demo.World (Demo.ext Demo.Sound) yr yp Demo.midway =
    (inr tt, s') /\
  yp <> [] /\
  (exists upd,
      trace s' =
        upd ++ EvCall (check_progress 6)
            :: rounds 2 (fun j =>
                 flat_map (fun i => feed_calls j (nth i yr 0)
                                               (nth i (nth j yp []) 0))
                          (rev (range 2)))
            ++ trace Demo.midway /\
      (upd = [] /\ update_count s' = update_count Demo.midway \/
       upd = [EvCall update_metrics] /\
       update_count s' = update_count Demo.midway + 1)).
Proof.
  intros yr yp s'.
  assert (H : _update_metrics_delayed Demo.World (Demo.ext Demo.Sound)
                yr yp Demo.midway = (inr tt, s'))
    by (vm_compute; reflexivity).
  assert (Hne : yp <> []) by discriminate.
  split; [exact H|]. split; [exact Hne|].
  pose proof (metrics_round Demo.World (Demo.ext Demo.Sound) yr yp
                Demo.midway s' H) as R.
  cbv zeta in R. exact (proj1 (proj2 R Hne)).
Defined.

Lemma prediction_round_witness :
  let Xb := [[7]; [8]] in
  let yp := [[0; 1]; [0; 1]] in
  let s' := snd (_predict_samples Demo.World (Demo.ext Demo.Sound) Demo.ragged
                   (Some Xb) Demo.midway) in
  _predict_samples Demo.World (Demo.ext Demo.Sound) Demo.ragged (Some Xb)
                   Demo.midway = (inr (Some yp), s') /\
  exists preds,
    np_T Demo.ragged preds = inr yp /\
    trace s' = rounds 2 (predict_calls Xb) ++ trace Demo.midway /\
    global_sample_count s' = 6.
Proof.
  intros Xb yp s'.
  assert (H : _predict_samples Demo.World (Demo.ext Demo.Sound) Demo.ragged
                (Some Xb) Demo.midway = (inr (Some yp), s'))
    by (vm_compute; reflexivity).
  split; [exact H|].
  pose proof (prediction_round Demo.World (Demo.ext Demo.Sound) Demo.ragged
                Xb yp Demo.midway s' H) as R.
  cbv zeta in R. destruct R as (preds & _ & HT & Htr & HA & _).
  exists preds. split; [exact HT|]. split; [exact Htr|].
  exact (f_equal (fun a => snd (fst (fst (fst (fst (fst (fst (fst a))))))))
                 HA).
Defined.

Lemma pretraining_round_witness :
  let s := Demo.start 2 in
  let s' := snd (pretrain Demo.World (Demo.ext Demo.Sound) Demo.stable_sort s) in
  let b := Demo.batch_of (map Demo.sample [1; 2]) in
  pretrain Demo.World (Demo.ext Demo.Sound) Demo.stable_sort s = (inr tt, s') /\
  b_arrival_time b = [1; 2] /\
  trace s' =
    rounds 2 (fit_calls 2 (bX b) (b_y b) TargetValues)
      ++ EvCall (stream_next_sample 2)
      :: EvPrint "Pre-training on {} sample(s)."
      :: trace s /\
  attributes Demo.World s' =
    attributes Demo.World
      (set_delay_queue (Some (Demo.stable_sort []))
         (set_current_timestamp (Some 2)
            (set_first_run false (set_global_sample_count 2 s)))).
Proof.
  intros s s' b.
  assert (H : pretrain Demo.World (Demo.ext Demo.Sound) Demo.stable_sort s =
              (inr tt, s'))
    by (vm_compute; reflexivity).
  split; [exact H|]. split; [reflexivity|].
  destruct (pretraining_round Demo.World (Demo.ext Demo.Sound) Demo.stable_sort
              s s' H) as (b' & w & earlier & t & He & Ha & Htr & Hat).
  cbn in He. injection He as <- _.
  assert (Hlast : [1] ++ [2] = earlier ++ [t]) by exact Ha.
  apply List.app_inj_tail in Hlast. destruct Hlast as [_ <-].
  split; [exact Htr|exact Hat].
Defined.

Lemma loop_stops_without_pulling_witness :
  let s := set_global_sample_count 6 Demo.midway in
  Demo.ext Demo.Sound stream_has_more_samples (world s) = (inr true, world s) /\
  actual_max_samples s <= global_sample_count s /\
  while_loop Demo.World (Demo.ext Demo.Sound) Demo.stable_sort Demo.ragged 1 s =
    Some (inr tt,
          set_world (world s)
            (set_trace (EvCall stream_has_more_samples :: trace s) s)).
Proof.
  intros s.
  assert (He : Demo.ext Demo.Sound stream_has_more_samples (world s) =
               (inr true, world s)) by reflexivity.
  assert (Hb : actual_max_samples s <= global_sample_count s)
    by (vm_compute; discriminate).
  split; [exact He|]. split; [exact Hb|].
  exact (loop_stops_without_pulling Demo.World (Demo.ext Demo.Sound)
           Demo.stable_sort Demo.ragged 0 s true (world s) He
           (or_introl Hb)).
Defined.

Lemma only_the_loop_condition_raises_witness :
  let s := Demo.start 2 in
  let s1 := snd (prologue Demo.World Outage.ext Demo.stable_sort s) in
  prologue Demo.World Outage.ext Demo.stable_sort s = (inr tt, s1) /\
  Outage.ext stream_has_more_samples (world s1) =
    (inl (OtherError "connection lost"), world s1) /\
  _train_and_test Demo.World Outage.ext Demo.stable_sort Demo.ragged
                  ReadAsArray 1 s =
    Some (inl (OtherError "connection lost"),
          set_world (world s1)
            (set_trace (EvCall stream_has_more_samples :: trace s1) s1)).
Proof.
  intros s s1.
  assert (Hp : prologue Demo.World Outage.ext Demo.stable_sort s = (inr tt, s1))
    by (vm_compute; reflexivity).
  assert (He : Outage.ext stream_has_more_samples (world s1) =
               (inl (OtherError "connection lost"), world s1)) by reflexivity.
  split; [exact Hp|]. split; [exact He|].
  exact (proj1 (only_the_loop_condition_raises Demo.World Outage.ext
                  Demo.stable_sort Demo.ragged ReadAsArray)
               0%nat s s1 (OtherError "connection lost") (world s1) Hp He).
Defined.

Lemma batch_without_arrival_times_ends_loop_witness :
  let s := Outage.stalled in
  let s1 := set_trace [EvCall stream_has_more_samples] s in
  let b := Demo.batch_of [] in
  loop_guard Demo.World (Demo.ext Demo.Sound) s = (inr true, s1) /\
  Demo.ext Demo.Sound (stream_next_sample (batch_size (config s1))) (world s1) =
    (inr b, world s1) /\
  b_arrival_time b = [] /\
  while_loop Demo.World (Demo.ext Demo.Sound) Demo.stable_sort Demo.ragged 1 s =
    Some (inr tt,
          print_exn Demo.World (IndexError "list index out of range")
            (set_world (world s1)
               (set_trace
                  (EvCall (stream_next_sample (batch_size (config s1)))
                     :: trace s1) s1))).
Proof.
  intros s s1 b.
  assert (Hg : loop_guard Demo.World (Demo.ext Demo.Sound) s = (inr true, s1))
    by (vm_compute; reflexivity).
  assert (He : Demo.ext Demo.Sound
                 (stream_next_sample (batch_size (config s1))) (world s1) =
               (inr b, world s1)) by (vm_compute; reflexivity).
  assert (Hb : b_arrival_time b = []) by reflexivity.
  split; [exact Hg|]. split; [exact He|]. split; [exact Hb|].
  exact (batch_without_arrival_times_ends_loop Demo.World (Demo.ext Demo.Sound)
           Demo.stable_sort Demo.ragged 0 s s1 b (world s1) Hg He Hb).
Defined.

Lemma sound_models_answer_per_sample :
  models_answer_per_sample Demo.World (Demo.ext Demo.Sound).
Proof.
  intros i Xb w l w' H. simpl in H. injection H as <- _.
  apply List.length_map.
Qed.

Lemma midway_rows_complete : rows_complete Demo.World Demo.midway.
Proof. intros q E. injection E as <-. repeat constructor. Qed.

Lemma queued_rows_stay_complete_witness :
  sorts_by_available_time Demo.stable_sort /\
  models_answer_per_sample Demo.World (Demo.ext Demo.Sound) /\
  rows_complete Demo.World Demo.midway /\
  rows_complete Demo.World
    (snd (loop_body Demo.World (Demo.ext Demo.Sound) Demo.stable_sort
            Demo.ragged Demo.midway)).
Proof.
  split; [exact stable_sort_sorts|].
  split; [exact sound_models_answer_per_sample|].
  split; [exact midway_rows_complete|].
  exact (proj1 (proj2 (queued_rows_stay_complete Demo.World
                         (Demo.ext Demo.Sound) Demo.stable_sort Demo.ragged
                         stable_sort_sorts sound_models_answer_per_sample))
               Demo.midway midway_rows_complete).
Defined.

Lemma complete_rows_feed_without_index_error_witness :
  let q := [Demo.rowA; Demo.rowC; Demo.rowB] in
  delay_queue Demo.midway = Some q /\
  current_timestamp Demo.midway = Some 5 /\
  rows_complete Demo.World Demo.midway /\
  exists ypd,
    _get_delayed_samples Demo.World Demo.ragged Demo.midway =
      (inr (map rX (released 5 q), map y_real (released 5 q), ypd),
       set_delay_queue (Some (retained 5 q)) Demo.midway) /\
    (ypd = [] \/
     length ypd = 2%nat /\
     Forall (fun row => length row = length (released 5 q)) ypd) /\
    match fst (_update_metrics_delayed Demo.World (Demo.ext Demo.Sound)
                 (map y_real (released 5 q)) ypd
                 (set_delay_queue (Some (retained 5 q)) Demo.midway)) with
    | inr _ => True
    | inl e => e = ZeroDivisionError /\ n_wait (config Demo.midway) = 0 \/
               exists msg, e = OverflowError msg
    end.
Proof.
  intros q.
  split; [reflexivity|]. split; [reflexivity|].
  split; [exact midway_rows_complete|].
  exact (complete_rows_feed_without_index_error Demo.World
           (Demo.ext Demo.Sound) Demo.ragged Demo.midway q 5
           eq_refl eq_refl midway_rows_complete
           (fun _ _ _ _ _ => eq_refl) (fun _ _ => eq_refl) (fun _ => eq_refl)).
Defined.

Lemma run_with_pretraining_returns_models_witness :
  let s := Demo.start 2 in
  let s1 := snd (prologue Demo.World (Demo.ext Demo.Sound) Demo.stable_sort s) in
  prologue Demo.World (Demo.ext Demo.Sound) Demo.stable_sort s = (inr tt, s1) /\
  0 < pretrain_size (config s) /\
  0 < batch_size (config s) /\
  exists fuel s',
    _train_and_test Demo.World (Demo.ext Demo.Sound) Demo.stable_sort
                    Demo.ragged ReadAsTuple fuel s =
      Some (inr ["HT"; "NB"]%string, s').
Proof.
  intros s s1.
  assert (Hp : prologue Demo.World (Demo.ext Demo.Sound) Demo.stable_sort s =
               (inr tt, s1)) by (vm_compute; reflexivity).
  assert (Hpre : 0 < pretrain_size (config s)) by reflexivity.
  assert (Hbs : 0 < batch_size (config s)) by reflexivity.
  split; [exact Hp|]. split; [exact Hpre|]. split; [exact Hbs|].
  exact (run_with_pretraining_returns_models Demo.World (Demo.ext Demo.Sound)
           Demo.stable_sort Demo.ragged ReadAsTuple s s1 eq_refl Hp Hpre Hbs
           (fun w => ex_intro _ _ (ex_intro _ w eq_refl))
           (fun w => eq_refl) (fun w => eq_refl) (fun w => eq_refl)).
Defined.
